(** * select_coin: resumable page ingestion and coin selection

    A shallow embedding of the two scripts of the repository

    - [src/fetch_coins/fetch_coin_infos.py]: the paginated fetcher with its
      progress file, and
    - [src/select_coin.py]: aggregation of the cached pages, the eligibility
      filter, the score and the ranking.

    Python integers are [Z].  A JSON number of a record is a [num]: an
    [int], or a finite [float] given by its exact rational value; the filter
    compares such numbers with integer constants, which Python does exactly.
    The score is computed in binary64 arithmetic: every operation rounds its
    exact result to the nearest float, ties to even, and overflows to an
    infinity, and the conversion of an [int] beyond the range of [float]
    raises.  Strings are [string]; files are explicit values of a file-system
    state that every operation threads through, and a write that the source
    guards with [try] may fail; the [while] loops take fuel.  An exception
    that no [except] of the source catches leaves the function: it is
    returned as a [result].  Not modelled: the literals [NaN] and [Infinity]
    in a record, which are not JSON but which [json.load] accepts, the sign
    of a float zero, a [name] or [symbol] that is [null], and the text of a
    rejection reason, of which the model keeps the number it shows
    (formatting that number converts it to a float, which raises on an [int]
    beyond the range of [float]). *)

From Stdlib Require Import ZArith QArith Qround Qabs Qpower Lqa Lia Bool.
From Stdlib Require Qcanon.
From Stdlib Require Import List String Ascii Permutation Sorted.
From stdpp Require Import base option list gmap sorting.
Import ListNotations.

Local Open Scope Z_scope.

(** ** Data model *)

(** A JSON number as [json.load] gives it: an [int], or a [float], which is
    given by the rational it stands for.  (Every finite float is such a
    rational, one of at most 53 significant bits; nothing below needs more of
    a [Float q] than that it is a rational.) *)
Inductive num :=
| Int (z : Z)
| Float (q : Q).

(** The number a [num] stands for. *)
Definition num_value (n : num) : Q :=
  match n with
  | Int z => inject_Z z
  | Float q => q
  end.

Coercion num_value : num >-> Q.

(** A [float] that a computation gives: finite, an infinity, or NaN. *)
Inductive float :=
| Fin (q : Q)
| PInf
| NInf
| NaN.

(** One record of the listing endpoint, a JSON object.  A field is [None]
    when the key is absent or holds [null]; the code reads every numeric
    field through [coin.get(k, d) or d] or tests it against [None], so the two
    cases are never told apart.  [name] and [symbol] are read with
    [coin.get(k, '')]: [None] is the absent key.  "excellent_score" is the
    key [filter_coins] adds. *)
Record coin := mkCoin {
  name : option string;
  symbol : option string;
  market_cap : option num;
  market_cap_rank : option Z;
  total_volume : option num;
  price_change_percentage_24h : option num;
  price_change_percentage_7d : option num;
  ath_change_percentage : option num;
  ath_date : option string;
  excellent_score : option float
}.

(** The exceptions that leave a function of the two scripts because no
    [except] is around the place where they are raised. *)
Inductive py_exn :=
| OSError                 (* os.makedirs cannot create the directory *)
| TypeError_naive_aware   (* can't compare offset-naive and offset-aware *)
| OverflowError           (* int too large to convert to float *)
| ZeroDivisionError.

Inductive result (A : Type) :=
| Ok (a : A)
| Raise (e : py_exn).
Arguments Ok {A} a.
Arguments Raise {A} e.

(** A statement that raises ends the function with what it raises. *)
#[global] Instance result_bind : MBind result :=
  fun A B f r => match r with Ok a => f a | Raise e => Raise e end.

(** ** fetch_coin_infos.py *)

Definition PER_PAGE : Z := 250.
Definition MAX_RETRIES_PER_PAGE : Z := 3.

(** What one [session.get] followed by the decoding of its body can do. *)
Inductive response :=
| ConnError                      (* session.get raises *)
| Http429                        (* status_code == 429 *)
| HttpError                      (* raise_for_status raises *)
| BadJson                        (* resp.json() raises *)
| JsonNonList                    (* decoded, but not a list *)
| JsonList (data : list coin).

(** What a guarded [open(.., "w")] / [json.dump] can do to the file: succeed,
    fail before the file is opened, or fail after [open] truncated it. *)
Inductive write_outcome := WriteOk | WriteErrUntouched | WriteErrTruncated.

(** The value under "last_page": [null] or an integer ([save_state] writes
    [int(last_page)]; other JSON values are not modelled). *)
Inductive jval := JNull | JInt (z : Z).

(** fetch_state.json *)
Inductive state_file :=
| StateMissing
| StateUnreadable                        (* open or json.load raises *)
| StateNotDict
| StateDict (last_page : option jval).   (* None: no "last_page" key *)

(** coin_pages/page_N.json *)
Inductive page_payload :=
| PageUnreadable                 (* open, json.load or data.get raises *)
| PageCoinsNotList               (* "coins" is not a list *)
| PageCoins (coins : list coin). (* "coins", or [] when the key is absent *)

(** The files of the fetcher: the progress file and the page files by page
    number. *)
Record world := mkWorld {
  w_state : state_file;
  w_pages : gmap Z page_payload
}.

(** The environment of one run: the answer of the remote end to the [n]-th
    request for a page, the fate of the write of each page file and of each
    progress update, and whether [os.makedirs], which [save_page_data] calls
    outside its [try], returns when the page is to be stored (a run touches
    every page number at most once). *)
Record env := mkEnv {
  transport : Z -> nat -> response;
  page_write : Z -> write_outcome;
  state_write : Z -> write_outcome;
  makedirs : Z -> bool
}.

(** What a run does, in order: requests, sleeps, and the calls of
    [save_page_data] and [save_state] that returned. *)
Inductive event :=
| EvGet (page : Z) (attempt : nat)
| EvSleep (seconds : Z)
| EvSavePage (page : Z) (count : nat)
| EvSaveState (page : Z).

(** [load_state]: the value under "last_page" of the dict it returns. *)
Definition load_state (w : world) : jval :=
  match w_state w with
  | StateMissing => JInt 0
  | StateUnreadable => JInt 0
  | StateNotDict => JInt 0
  | StateDict None => JInt 0            (* setdefault("last_page", 0) *)
  | StateDict (Some v) => v
  end.

(** [save_state]: the write is inside a [try]; a failure is printed and the
    function returns as if nothing had happened. *)
Definition save_state (e : env) (last_page : Z) (w : world) : world :=
  match state_write e last_page with
  | WriteOk => mkWorld (StateDict (Some (JInt last_page))) (w_pages w)
  | WriteErrUntouched => w
  | WriteErrTruncated => mkWorld StateUnreadable (w_pages w)
  end.

(** The [try] block of [save_page_data]: likewise, and nothing tells the
    caller whether the page was written. *)
Definition write_page_file (e : env) (page : Z) (coins : list coin) (w : world)
  : world :=
  match page_write e page with
  | WriteOk => mkWorld (w_state w) (<[page := PageCoins coins]> (w_pages w))
  | WriteErrUntouched => w
  | WriteErrTruncated => mkWorld (w_state w) (<[page := PageUnreadable]> (w_pages w))
  end.

(** [save_page_data]: [os.makedirs] comes first, outside the [try]; what it
    raises leaves the function, with no file touched. *)
Definition save_page_data (e : env) (page : Z) (coins : list coin) (w : world)
  : result world :=
  if makedirs e page then Ok (write_page_file e page coins w)
  else Raise OSError.

(** [fetch_page]: the [while retries < MAX_RETRIES_PER_PAGE] loop.  [calls]
    counts the requests issued; the result carries the events in order. *)
Fixpoint fetch_page_loop (fuel : nat) (tr : nat -> response) (page : Z)
    (retries : Z) (calls : nat) (log : list event)
  : option (list coin * list event) :=
  match fuel with
  | O => None
  | S fuel' =>
    if retries <? MAX_RETRIES_PER_PAGE then
      let log := log ++ [EvGet page calls] in
      match tr calls with
      | Http429 =>
          fetch_page_loop fuel' tr page (retries + 1) (S calls)
            (log ++ [EvSleep 60])
      | ConnError | HttpError | BadJson =>
          fetch_page_loop fuel' tr page (retries + 1) (S calls)
            (log ++ [EvSleep 5])
      | JsonNonList => Some ([], log)
      | JsonList data => Some (data, log)
      end
    else Some ([], log)
  end.

(** [fetch_page], run with one unit of fuel more than the retry budget;
    [fetch_page_returns] below shows that this never runs out. *)
Definition fetch_page (e : env) (page : Z) : option (list coin * list event) :=
  fetch_page_loop (S (Z.to_nat MAX_RETRIES_PER_PAGE)) (transport e page)
    page 0 0%nat [].

(** The state of the [while True] loop of [fetch_coin_infos]. *)
Record loop_state := mkLoop {
  current_page : Z;
  fetched_pages : Z;
  last_fetched_page : Z;
  files : world;
  trace : list event
}.

Inductive stop_reason :=
| BudgetReached   (* fetched_pages >= max_pages *)
| NoData          (* not coins *)
| ShortPage.      (* len(coins) < PER_PAGE *)

Inductive step_result :=
| Continue (s : loop_state)
| Break (r : stop_reason) (s : loop_state)
| Abort (x : py_exn) (s : loop_state).   (* an exception leaves the loop *)

Definition budget_reached (max_pages : option Z) (fetched : Z) : bool :=
  match max_pages with
  | Some m => m <=? fetched
  | None => false
  end.

(** One pass through the loop body; [None] only if [fetch_page] ran out of
    fuel. *)
Definition loop_body (max_pages : option Z) (e : env) (s : loop_state)
  : option step_result :=
  if budget_reached max_pages (fetched_pages s) then Some (Break BudgetReached s)
  else
    match fetch_page e (current_page s) with
    | None => None
    | Some (coins, evs) =>
      let tr := trace s ++ evs in
      match coins with
      | [] => Some (Break NoData
                 (mkLoop (current_page s) (fetched_pages s)
                    (last_fetched_page s) (files s) tr))
      | _ :: _ =>
        match save_page_data e (current_page s) coins (files s) with
        | Raise x =>
            Some (Abort x
                    (mkLoop (current_page s) (fetched_pages s)
                       (last_fetched_page s) (files s) tr))
        | Ok w1 =>
          let w2 := save_state e (current_page s) w1 in
          let tr := tr ++ [EvSavePage (current_page s) (length coins);
                            EvSaveState (current_page s); EvSleep 1] in
          let s' := mkLoop (current_page s + 1) (fetched_pages s + 1)
                      (current_page s) w2 tr in
          if Z.of_nat (length coins) <? PER_PAGE
          then Some (Break ShortPage s')
          else Some (Continue s')
        end
      end
    end.

Inductive run_status :=
| Running                     (* the fuel ran out between two iterations *)
| Stopped (r : stop_reason)
| Raised (x : py_exn).        (* the exception left [fetch_coin_infos] *)

(** The [while True] loop, for at most [fuel] iterations. *)
Fixpoint run_loop (fuel : nat) (max_pages : option Z) (e : env)
    (s : loop_state) : run_status * loop_state :=
  match fuel with
  | O => (Running, s)
  | S fuel' =>
    match loop_body max_pages e s with
    | None => (Running, s)
    | Some (Break r s') => (Stopped r, s')
    | Some (Abort x s') => (Raised x, s')
    | Some (Continue s') => run_loop fuel' max_pages e s'
    end
  end.

(** [int(state.get("last_page", 0) or 0)] *)
Definition stored_last_page (w : world) : Z :=
  match load_state w with
  | JNull => 0
  | JInt z => z
  end.

(** [last_page + 1 if last_page >= 0 else 1] *)
Definition resume_page (w : world) : Z :=
  let last_page := stored_last_page w in
  if 0 <=? last_page then last_page + 1 else 1.

(** The page the run starts at:
    [start_page is not None and start_page > 0] selects the override. *)
Definition resolve_start_page (start_page : option Z) (w : world) : Z :=
  match start_page with
  | Some p => if 0 <? p then p else resume_page w
  | None => resume_page w
  end.

Definition initial_state (start_page : option Z) (w : world) : loop_state :=
  mkLoop (resolve_start_page start_page w) 0 0 w [].

(** [fetch_coin_infos]: how the loop ended and the loop state then.  When
    the loop stopped, the function's return value is [last_fetched_page] of
    that state; when an exception left it, the state is the one the exception
    found. *)
Definition fetch_coin_infos (fuel : nat) (max_pages start_page : option Z)
    (e : env) (w : world) : run_status * loop_state :=
  run_loop fuel max_pages e (initial_state start_page w).

(** ** select_coin.py: Python helpers *)

(** [l[:limit]]: a negative bound counts from the end. *)
Definition py_slice_to {A} (limit : Z) (l : list A) : list A :=
  if limit <? 0
  then firstn (length l - Z.to_nat (- limit)) l
  else firstn (Z.to_nat limit) l.

(** [list.sort] is a stable sort: elements that compare equal keep their
    order.  [before y x] says that [y] has to come strictly before [x]; the
    model is the insertion sort that moves an element past exactly those. *)
Fixpoint insert_stable {A} (before : A -> A -> bool) (x : A) (l : list A)
  : list A :=
  match l with
  | [] => [x]
  | y :: ys => if before y x then y :: insert_stable before x ys
               else x :: y :: ys
  end.

Fixpoint stable_sort {A} (before : A -> A -> bool) (l : list A) : list A :=
  match l with
  | [] => []
  | x :: xs => insert_stable before x (stable_sort before xs)
  end.

Definition Qlt_bool (x y : Q) : bool := negb (Qle_bool y x).

(** [coin.get(k, d) or d] on a numeric field: [None], [0] and [0.0] are
    falsy.  [get_or] is the number it gives, [get_num] that number as the
    [int] or [float] it is ([d] is an [int] in the source). *)
Definition get_or (x : option num) (d : Q) : Q :=
  match x with
  | Some v => if Qeq_bool v 0 then d else v
  | None => d
  end.

Definition get_num (x : option num) (d : Z) : num :=
  match x with
  | Some v => if Qeq_bool v 0 then Int d else v
  | None => Int d
  end.

(** *** Binary64 arithmetic

    [round64 q] is the float nearest to the rational [q], ties to the even
    significand: with [e] the binary exponent of [|q|], not below that of the
    smallest normal number, [|q|] is rounded to a multiple of [2 ^ (e - 52)];
    a result of [2 ^ 1024] or more is an infinity. *)

Definition pow2 (k : Z) : Q := (2 ^ k)%Q.

(** The binary exponent of a positive rational: [2 ^ ilog2 q <= q <
    2 ^ (ilog2 q + 1)]. *)
Definition ilog2 (q : Q) : Z :=
  let e := Z.log2 (Qnum q) - Z.log2 (Zpos (Qden q)) in
  if Qle_bool (pow2 e) q then e else e - 1.

(** The nearest integer, ties to even. *)
Definition rne (x : Q) : Z :=
  let f := Qfloor x in
  match (x - inject_Z f ?= 1 # 2)%Q with
  | Lt => f
  | Gt => f + 1
  | Eq => if Z.even f then f else f + 1
  end.

Definition ulp_exponent (q : Q) : Z := Z.max (ilog2 q) (-1022) - 52.

Definition round_mag (q : Q) : Q :=
  let s := pow2 (ulp_exponent q) in (inject_Z (rne (q / s)) * s)%Q.

Definition round64 (q : Q) : float :=
  let m := round_mag (Qabs q) in
  if Qle_bool (pow2 1024) m then (if Qlt_bool q 0 then NInf else PInf)
  else Fin (Qred (if Qlt_bool q 0 then - m else m)).

(** A float literal of the source. *)
Definition float_lit (q : Q) : float := round64 q.

(** [a < b] and [a == b] on floats, and on a float and an [int], which
    Python compares by their exact values; a comparison with NaN is false. *)
Definition flt (a b : float) : bool :=
  match a, b with
  | NaN, _ | _, NaN => false
  | Fin x, Fin y => Qlt_bool x y
  | NInf, NInf => false
  | NInf, _ => true
  | _, NInf => false
  | PInf, _ => false
  | Fin _, PInf => true
  end.

Definition feqb (a b : float) : bool :=
  match a, b with
  | Fin x, Fin y => Qeq_bool x y
  | PInf, PInf => true
  | NInf, NInf => true
  | _, _ => false
  end.

(** [a + b] and [a * b] on floats. *)
Definition fadd (a b : float) : float :=
  match a, b with
  | NaN, _ | _, NaN => NaN
  | Fin x, Fin y => round64 (x + y)
  | PInf, NInf | NInf, PInf => NaN
  | PInf, _ | _, PInf => PInf
  | NInf, _ | _, NInf => NInf
  end.

Definition inf_of_sign (negative : bool) : float :=
  if negative then NInf else PInf.

Definition fmul (a b : float) : float :=
  match a, b with
  | NaN, _ | _, NaN => NaN
  | Fin x, Fin y => round64 (x * y)
  | Fin x, PInf | PInf, Fin x =>
      if Qeq_bool x 0 then NaN else inf_of_sign (Qlt_bool x 0)
  | Fin x, NInf | NInf, Fin x =>
      if Qeq_bool x 0 then NaN else inf_of_sign (negb (Qlt_bool x 0))
  | PInf, PInf | NInf, NInf => PInf
  | PInf, NInf | NInf, PInf => NInf
  end.

(** [a / b] on floats: a zero divisor raises. *)
Definition fdiv (a b : float) : result float :=
  match b with
  | NaN => Ok NaN
  | Fin y =>
      if Qeq_bool y 0 then Raise ZeroDivisionError
      else match a with
           | NaN => Ok NaN
           | Fin x => Ok (round64 (x / y))
           | PInf => Ok (inf_of_sign (Qlt_bool y 0))
           | NInf => Ok (inf_of_sign (negb (Qlt_bool y 0)))
           end
  | PInf | NInf =>
      match a with
      | Fin _ => Ok (Fin 0)
      | _ => Ok NaN
      end
  end.

(** [float(z)]: an [int] is rounded like any other number, and one that
    rounds beyond the largest float raises. *)
Definition float_of_int (z : Z) : result float :=
  match round64 (inject_Z z) with
  | Fin q => Ok (Fin q)
  | _ => Raise OverflowError
  end.

Definition to_float (n : num) : result float :=
  match n with
  | Int z => float_of_int z
  | Float q => Ok (Fin q)
  end.

(** [a / b] on numbers.  Two [int]s give the float nearest to their exact
    quotient, and raise when that is beyond the largest float; otherwise
    the [int] operand is converted and the floats are divided. *)
Definition truediv (a b : num) : result float :=
  match a, b with
  | Int x, Int y =>
      if y =? 0 then Raise ZeroDivisionError
      else match round64 (inject_Z x / inject_Z y) with
           | Fin q => Ok (Fin q)
           | _ => Raise OverflowError
           end
  | _, _ =>
      match to_float a with
      | Raise e => Raise e
      | Ok fa =>
          match to_float b with
          | Raise e => Raise e
          | Ok fb => fdiv fa fb
          end
      end
  end.

(** [min(x, n)] of a float and an [int] literal: [n] when [n < x], else
    [x].  The [int] stands as the float of its value: the multiplication
    that follows converts it, exactly. *)
Definition py_min (x : float) (n : Z) : float :=
  if flt (Fin (inject_Z n)) x then Fin (inject_Z n) else x.

Definition get_or_Z (x : option Z) (d : Z) : Z :=
  match x with
  | Some v => if v =? 0 then d else v
  | None => d
  end.

(** [needle in hay] on strings. *)
Fixpoint str_in (needle hay : string) : bool :=
  match hay with
  | EmptyString => String.prefix needle hay
  | String _ rest => String.prefix needle hay || str_in needle rest
  end.

(** [s.replace('Z', '+00:00')] *)
Fixpoint replace_Z (s : string) : string :=
  match s with
  | EmptyString => EmptyString
  | String c rest =>
      if Ascii.eqb c "Z"%char then ("+00:00" ++ replace_Z rest)%string
      else String c (replace_Z rest)
  end.

(** A [datetime]: a naive one is its wall-clock time and an aware one its
    UTC instant, both in microseconds. *)
Inductive datetime :=
| Naive (wall_us : Z)
| Aware (utc_us : Z).

(** [a < b] on two datetimes. *)
Definition datetime_lt (a b : datetime) : result bool :=
  match a, b with
  | Naive x, Naive y => Ok (x <? y)
  | Aware x, Aware y => Ok (x <? y)
  | Naive _, Aware _ => Raise TypeError_naive_aware
  | Aware _, Naive _ => Raise TypeError_naive_aware
  end.

(** ** select_coin.py: aggregation *)

(** all_coins_cache.json *)
Inductive cache_file :=
| CacheMissing
| CacheUnreadable                 (* open, json.load or .get raises *)
| CacheCoins (coins : list coin). (* "coins", or [] when the key is absent *)

(** The files the selection reads.  [pages_dir] is [None] when coin_pages is
    not a directory; otherwise it lists, in [os.listdir] order, the page number
    and payload of every entry named page_<int>.json. *)
Record store := mkStore {
  pages_dir : option (list (Z * page_payload));
  cache : cache_file
}.

(** The [for page_num, file_path in page_files] loop. *)
Fixpoint load_pages_loop (limit : Z) (page_files : list (Z * page_payload))
    (coins : list coin) : list coin :=
  match page_files with
  | [] => coins
  | (_, payload) :: rest =>
      if limit <=? Z.of_nat (length coins) then coins
      else
        match payload with
        | PageCoins page_coins => load_pages_loop limit rest (coins ++ page_coins)
        | PageCoinsNotList => load_pages_loop limit rest coins
        | PageUnreadable => load_pages_loop limit rest coins
        end
  end.

Definition page_before (x y : Z * page_payload) : bool := fst x <? fst y.

Definition _load_coins_from_local_pages (limit : Z) (st : store) : list coin :=
  match pages_dir st with
  | None => []
  | Some [] => []
  | Some page_files =>
      py_slice_to limit
        (load_pages_loop limit (stable_sort page_before page_files) [])
  end.

Definition write_cache (o : write_outcome) (coins : list coin) (st : store)
  : store :=
  match o with
  | WriteOk => mkStore (pages_dir st) (CacheCoins coins)
  | WriteErrUntouched => st
  | WriteErrTruncated => mkStore (pages_dir st) CacheUnreadable
  end.

Definition rebuild_from_pages (o : write_outcome) (limit : Z) (st : store)
  : list coin * store :=
  let coins := _load_coins_from_local_pages limit st in
  match coins with
  | [] => ([], st)
  | _ :: _ => (py_slice_to limit coins, write_cache o coins st)
  end.

(** [get_all_coins]; [o] is the fate of the cache write, should there be one. *)
Definition get_all_coins (o : write_outcome) (limit : Z) (st : store)
  : list coin * store :=
  match cache st with
  | CacheCoins (c :: cs) => (py_slice_to limit (c :: cs), st)
  | CacheCoins [] => rebuild_from_pages o limit st
  | CacheUnreadable => rebuild_from_pages o limit st
  | CacheMissing => rebuild_from_pages o limit st
  end.

(** ** select_coin.py: score and filter *)

Definition MARKET_CAP_MAX : Q := 10000000000.
Definition MARKET_CAP_MIN : Q := 100000000.

(** [min(ratio, 10) * weight], the form of three of the sub-scores. *)
Definition capped_score (ratio : float) (weight : Q) : float :=
  fmul (py_min ratio 10) (float_lit weight).

Definition calculate_score (c : coin) : result float :=
  let score := Fin 0 in
  let market_cap := get_num (market_cap c) 0 in
  let total_volume := get_num (total_volume c) 0 in
  let price_change_24h := get_num (price_change_percentage_24h c) 0 in
  let price_change_7d := get_num (price_change_percentage_7d c) 0 in
  let market_cap_rank := get_or_Z (market_cap_rank c) 999 in
  score ←
    (if Qlt_bool 0 market_cap then
       ratio ← truediv total_volume market_cap;
       let volume_ratio := fmul ratio (Fin 100) in
       capped ← fdiv volume_ratio (Fin 5);
       let volume_score := capped_score capped 0.4 in
       Ok (fadd score volume_score)
     else Ok score);
  score ←
    (if Qlt_bool 0 price_change_24h then
       ratio ← truediv price_change_24h (Int 10);
       let change_24h_score := capped_score ratio 0.3 in
       Ok (fadd score change_24h_score)
     else Ok score);
  score ←
    (if Qlt_bool 0 price_change_7d then
       ratio ← truediv price_change_7d (Int 20);
       let change_7d_score := capped_score ratio 0.2 in
       Ok (fadd score change_7d_score)
     else Ok score);
  if market_cap_rank <=? 100 then
    ratio ← truediv (Int (101 - market_cap_rank)) (Int 10);
    let rank_score := fmul ratio (float_lit 0.1) in
    Ok (fadd score rank_score)
  else Ok score.

(** The reason strings of [is_excellent_coin], one constructor per [return
    (False, ...)] of the source, with the values the f-string interpolates. *)
Inductive filter_reason :=
| ReasonBlacklist (kw : string)
| ReasonStablecoin
| ReasonStaked
| ReasonCapAboveMax (market_cap : Q)
| ReasonCapBelowMin (market_cap : Q)
| ReasonCapNotPositive
| ReasonVolume (total_volume : Q)
| ReasonDrop24h (change : Q)
| ReasonStaleATH (ath_date : string) (ath_change : option num)
| ReasonATHDrawdown (ath_change : Q).

Section Filter.

(** [str.upper] and [datetime.fromisoformat] are the interpreter's; the
    filter is defined, and its properties hold, for whatever they compute
    ([None] is a [ValueError]). *)
Variable upper : string -> string.
Variable fromisoformat : string -> option datetime.

(** [for kw in self.blacklist_keywords: if kw == name or symbol == kw] *)
Fixpoint blacklist_hit (keywords : list string) (name symbol : string)
  : option string :=
  match keywords with
  | [] => None
  | kw :: rest =>
      if String.eqb kw name || String.eqb symbol kw then Some kw
      else blacklist_hit rest name symbol
  end.

(** The last check: [ath_change_percentage is not None and .. < -98]. *)
Definition check_ath_drawdown (c : coin)
  : result (bool * option filter_reason) :=
  match ath_change_percentage c with
  | Some p =>
      if Qlt_bool p (-98) then Ok (false, Some (ReasonATHDrawdown p))
      else Ok (true, None)
  | None => Ok (true, None)
  end.

(** The [if ath_date_str:] block with its [try]; only [ValueError] and
    [AttributeError] are caught. *)
Definition check_ath_date (c : coin) : result (bool * option filter_reason) :=
  match ath_date c with
  | None => check_ath_drawdown c
  | Some EmptyString => check_ath_drawdown c
  | Some ath_date_str =>
      match fromisoformat (replace_Z ath_date_str) with
      | None => check_ath_drawdown c
      | Some ath_date =>
          match fromisoformat "2023-01-01T00:00:00+00:00" with
          | None => check_ath_drawdown c
          | Some cutoff_date =>
              match datetime_lt ath_date cutoff_date with
              | Raise e => Raise e
              | Ok lt =>
                  if lt && (match ath_change_percentage c with
                            | None => true
                            | Some p => Qlt_bool p (-95)
                            end)
                  then Ok (false, Some (ReasonStaleATH ath_date_str
                                          (ath_change_percentage c)))
                  else check_ath_drawdown c
              end
          end
      end
  end.

Definition is_excellent_coin (blacklist_keywords : list string) (c : coin)
  : result (bool * option filter_reason) :=
  let market_cap := get_or (market_cap c) 0 in
  let total_volume := get_or (total_volume c) 0 in
  let price_change_percentage_24h :=
    get_or (price_change_percentage_24h c) 0 in
  let name := upper (default EmptyString (name c)) in
  let symbol := upper (default EmptyString (symbol c)) in
  match blacklist_hit blacklist_keywords name symbol with
  | Some kw => Ok (false, Some (ReasonBlacklist kw))
  | None =>
    if str_in "USD" name || str_in "USD" symbol || str_in "USDT" name
       || str_in "STAKED" name || str_in "STAKED" symbol
    then Ok (false, Some ReasonStablecoin)
    else if str_in "STAKED" name || str_in "STAKED" symbol
    then Ok (false, Some ReasonStaked)
    else if Qlt_bool MARKET_CAP_MAX market_cap
    then Ok (false, Some (ReasonCapAboveMax market_cap))
    else if Qlt_bool market_cap MARKET_CAP_MIN
    then Ok (false, Some (ReasonCapBelowMin market_cap))
    else if Qle_bool market_cap 0
    then Ok (false, Some ReasonCapNotPositive)
    else if Qlt_bool total_volume 600000
    then Ok (false, Some (ReasonVolume total_volume))
    else if Qlt_bool price_change_percentage_24h (-20)
    then Ok (false, Some (ReasonDrop24h price_change_percentage_24h))
    else check_ath_date c
  end.

End Filter.

(** ** select_coin.py: selection *)

(** An entry of [filtered_out_coins]. *)
Record rejected := mkRejected {
  r_name : option string;
  r_symbol : option string;
  r_market_cap : option num;
  r_market_cap_rank : option Z;
  r_total_volume : option num;
  r_price_change_percentage_24h : option num;
  r_filter_reason : option filter_reason
}.

(** [coin['excellent_score'] = score] *)
Definition set_excellent_score (c : coin) (score : float) : coin :=
  mkCoin (name c) (symbol c) (market_cap c) (market_cap_rank c)
    (total_volume c) (price_change_percentage_24h c)
    (price_change_percentage_7d c) (ath_change_percentage c) (ath_date c)
    (Some score).

Definition reject (c : coin) (reason : option filter_reason) : rejected :=
  mkRejected (name c) (symbol c) (market_cap c) (market_cap_rank c)
    (total_volume c) (price_change_percentage_24h c) reason.

(** [x.get('excellent_score', 0)] *)
Definition sort_key (c : coin) : float := default (Fin 0) (excellent_score c).

(** [sort(key=.., reverse=True)]: a record goes before those of a strictly
    smaller key.  (This is what [list.sort] does when the keys are totally
    ordered by [<]; the scores [filter_coins] sorts by are never NaN, see
    [calculate_score_comparable].) *)
Definition score_before (y x : coin) : bool := flt (sort_key x) (sort_key y).

Section Selection.

Variable upper : string -> string.
Variable fromisoformat : string -> option datetime.
Variable blacklist_keywords : list string.

(** The [for coin in all_coins] loop of [filter_coins]. *)
Fixpoint filter_loop (all_coins filtered_coins : list coin)
    (filtered_out_coins : list rejected)
  : result (list coin * list rejected) :=
  match all_coins with
  | [] => Ok (filtered_coins, filtered_out_coins)
  | c :: rest =>
      match is_excellent_coin upper fromisoformat blacklist_keywords c with
      | Raise e => Raise e
      | Ok (true, _) =>
          match calculate_score c with
          | Raise e => Raise e
          | Ok score =>
              filter_loop rest
                (filtered_coins ++ [set_excellent_score c score])
                filtered_out_coins
          end
      | Ok (false, reason) =>
          filter_loop rest filtered_coins
            (filtered_out_coins ++ [reject c reason])
      end
  end.

(** The part of [filter_coins] after [get_all_coins]. *)
Definition select_from (all_coins : list coin)
  : result (list coin * list rejected) :=
  match all_coins with
  | [] => Ok ([], [])
  | _ :: _ =>
      match filter_loop all_coins [] [] with
      | Raise e => Raise e
      | Ok (filtered_coins, filtered_out_coins) =>
          Ok (stable_sort score_before filtered_coins, filtered_out_coins)
      end
  end.

Definition filter_coins (o : write_outcome) (limit : Z) (st : store)
  : result (list coin * list rejected) * store :=
  let '(all_coins, st') := get_all_coins o limit st in
  (select_from all_coins, st').

End Selection.

(** ** An instance of the interpreter's functions

    [ascii_upper] is [str.upper] on ASCII text.  [fromisoformat_basic] reads
    the formats [datetime.isoformat] emits with a [T] separator:
    [YYYY-MM-DD], optionally followed by [THH:MM:SS], a fraction of three or
    six digits and an offset [+HH:MM] or [-HH:MM]; everything else is a
    [ValueError]. *)

Definition ascii_upper_char (c : ascii) : ascii :=
  let n := nat_of_ascii c in
  if ((97 <=? n) && (n <=? 122))%nat then ascii_of_nat (n - 32) else c.

Fixpoint ascii_upper (s : string) : string :=
  match s with
  | EmptyString => EmptyString
  | String c rest => String (ascii_upper_char c) (ascii_upper rest)
  end.

Definition digit_of (c : ascii) : option Z :=
  let n := nat_of_ascii c in
  if ((48 <=? n) && (n <=? 57))%nat then Some (Z.of_nat n - 48) else None.

(** Exactly [n] decimal digits at the head of [s]. *)
Fixpoint read_digits (n : nat) (acc : Z) (s : string) : option (Z * string) :=
  match n with
  | O => Some (acc, s)
  | S n' =>
      match s with
      | EmptyString => None
      | String c rest =>
          match digit_of c with
          | Some d => read_digits n' (acc * 10 + d) rest
          | None => None
          end
      end
  end.

Definition expect (c : ascii) (s : string) : option string :=
  match s with
  | String c' rest => if Ascii.eqb c c' then Some rest else None
  | EmptyString => None
  end.

Definition is_leap (y : Z) : bool :=
  ((y mod 4 =? 0) && negb (y mod 100 =? 0)) || (y mod 400 =? 0).

Definition days_in_month (y m : Z) : Z :=
  if m =? 2 then (if is_leap y then 29 else 28)
  else if (m =? 4) || (m =? 6) || (m =? 9) || (m =? 11) then 30 else 31.

(** Days from 1970-01-01 to the given civil date. *)
Definition days_from_civil (y m d : Z) : Z :=
  let y' := if m <=? 2 then y - 1 else y in
  let era := y' / 400 in
  let yoe := y' - era * 400 in
  let mp := if 2 <? m then m - 3 else m + 9 in
  let doy := (153 * mp + 2) / 5 + d - 1 in
  let doe := yoe * 365 + yoe / 4 - yoe / 100 + doy in
  era * 146097 + doe - 719468.

Definition read_date (s : string) : option (Z * string) :=
  '(y, s) ← read_digits 4 0 s;
  s ← expect "-" s;
  '(m, s) ← read_digits 2 0 s;
  s ← expect "-" s;
  '(d, s) ← read_digits 2 0 s;
  if (1 <=? y) && (1 <=? m) && (m <=? 12) && (1 <=? d)
     && (d <=? days_in_month y m)
  then Some (days_from_civil y m d, s) else None.

(** [HH:MM:SS] as seconds. *)
Definition read_hms (s : string) : option (Z * string) :=
  '(h, s) ← read_digits 2 0 s;
  s ← expect ":" s;
  '(mi, s) ← read_digits 2 0 s;
  s ← expect ":" s;
  '(sec, s) ← read_digits 2 0 s;
  if (h <? 24) && (mi <? 60) && (sec <? 60)
  then Some (h * 3600 + mi * 60 + sec, s) else None.

(** An optional fraction, as microseconds. *)
Definition read_fraction (s : string) : option (Z * string) :=
  match s with
  | String "." rest =>
      match read_digits 6 0 rest with
      | Some r => Some r
      | None =>
          '(ms, s) ← read_digits 3 0 rest;
          Some (ms * 1000, s)
      end
  | _ => Some (0, s)
  end.

(** An optional offset, as seconds east of UTC. *)
Definition read_offset (s : string) : option (option Z) :=
  match s with
  | EmptyString => Some None
  | String sign rest =>
      if Ascii.eqb sign "+" || Ascii.eqb sign "-" then
        '(h, s) ← read_digits 2 0 rest;
        s ← expect ":" s;
        '(mi, s) ← read_digits 2 0 s;
        match s with
        | EmptyString =>
            if (h <? 24) && (mi <? 60) then
              let off := h * 3600 + mi * 60 in
              Some (Some (if Ascii.eqb sign "-" then - off else off))
            else None
        | _ => None
        end
      else None
  end.

Definition fromisoformat_basic (s : string) : option datetime :=
  '(days, s) ← read_date s;
  match s with
  | EmptyString => Some (Naive (days * 86400 * 1000000))
  | String "T" rest =>
      '(secs, s) ← read_hms rest;
      '(us, s) ← read_fraction s;
      off ← read_offset s;
      let wall := (days * 86400 + secs) * 1000000 + us in
      match off with
      | None => Some (Naive wall)
      | Some o => Some (Aware (wall - o * 1000000))
      end
  | _ => None
  end.

(** ** Specification-level definitions: ingestion *)

(** The backoff after a response that is retried. *)
Definition backoff (r : response) : option Z :=
  match r with
  | Http429 => Some 60
  | ConnError | HttpError | BadJson => Some 5
  | JsonNonList | JsonList _ => None
  end.

(** The retry policy in the specification's words: a budget of attempts per
    page; a rate-limit answer and a generic failure each use up one attempt
    and are followed by their backoff; a list is returned as it is, a payload
    that is not a list gives no records at once, and so does the end of the
    budget. *)
Fixpoint retry_policy (budget : nat) (tr : nat -> response) (page : Z)
    (attempt : nat) : list coin * list event :=
  match budget with
  | O => ([], [])
  | S budget' =>
      match tr attempt with
      | JsonList data => (data, [EvGet page attempt])
      | JsonNonList => ([], [EvGet page attempt])
      | Http429 =>
          let '(coins, log) := retry_policy budget' tr page (S attempt) in
          (coins, EvGet page attempt :: EvSleep 60 :: log)
      | ConnError | HttpError | BadJson =>
          let '(coins, log) := retry_policy budget' tr page (S attempt) in
          (coins, EvGet page attempt :: EvSleep 5 :: log)
      end
  end.

Definition is_get (ev : event) : bool :=
  match ev with EvGet _ _ => true | _ => false end.

(** The requests issued, in order. *)
Definition attempts (log : list event) : list event := List.filter is_get log.

(** What [fetch_page] returns for a page, and the events it leaves. *)
Definition page_result (e : env) (p : Z) : list coin :=
  match fetch_page e p with
  | Some (coins, _) => coins
  | None => []
  end.

Definition page_events (e : env) (p : Z) : list event :=
  match fetch_page e p with
  | Some (_, evs) => evs
  | None => []
  end.

Definition full_page (e : env) (p : Z) : Prop :=
  PER_PAGE <= Z.of_nat (List.length (page_result e p)).

Definition short_page (e : env) (p : Z) : Prop :=
  page_result e p <> [] /\ Z.of_nat (List.length (page_result e p)) < PER_PAGE.

Definition no_data (e : env) (p : Z) : Prop := page_result e p = [].

(** The pages handed to [save_page_data] and to [save_state], in order, and
    the page an event is about. *)
Definition saved_page (ev : event) : option Z :=
  match ev with EvSavePage p _ => Some p | _ => None end.

Definition saved_state (ev : event) : option Z :=
  match ev with EvSaveState p => Some p | _ => None end.

Definition saved_pages (tr : list event) : list Z := omap saved_page tr.
Definition saved_states (tr : list event) : list Z := omap saved_state tr.

Definition event_page (ev : event) : option Z :=
  match ev with
  | EvGet p _ => Some p
  | EvSavePage p _ => Some p
  | EvSaveState p => Some p
  | EvSleep _ => None
  end.

(** The files after the pages [p], [p + 1], ..., [p + k - 1] went through
    the [try] block of [save_page_data] and through [save_state]. *)
Fixpoint process_pages (e : env) (p : Z) (k : nat) (w : world) : world :=
  match k with
  | O => w
  | S k' =>
      process_pages e (p + 1) k'
        (save_state e p (write_page_file e p (page_result e p) w))
  end.

(** How a run that started at page [p0] with [f0] pages counted stands after
    [k] pages went through store and progress update: still running, stopped
    for one of the three reasons, or left by the exception of [os.makedirs]
    at a page that was fetched with records. *)
Definition stop_case (max_pages : option Z) (e : env) (p0 f0 : Z) (k : nat)
    (st : run_status) : Prop :=
  match st with
  | Running =>
      forall j : nat, (j < k)%nat -> full_page e (p0 + Z.of_nat j)
  | Stopped ShortPage =>
      exists k' : nat, k = S k' /\ short_page e (p0 + Z.of_nat k')
  | Stopped BudgetReached =>
      budget_reached max_pages (f0 + Z.of_nat k) = true /\
      forall j : nat, (j < k)%nat -> full_page e (p0 + Z.of_nat j)
  | Stopped NoData =>
      budget_reached max_pages (f0 + Z.of_nat k) = false /\
      no_data e (p0 + Z.of_nat k) /\
      forall j : nat, (j < k)%nat -> full_page e (p0 + Z.of_nat j)
  | Raised x =>
      x = OSError /\
      budget_reached max_pages (f0 + Z.of_nat k) = false /\
      page_result e (p0 + Z.of_nat k) <> [] /\
      makedirs e (p0 + Z.of_nat k) = false /\
      forall j : nat, (j < k)%nat -> full_page e (p0 + Z.of_nat j)
  end.

(** What holds of a run of [fetch_coin_infos] from the files [w] that started
    at page [p0] and stands at [(st, s')] after at most [fuel] iterations.
    [k] pages went through [save_page_data] and [save_state], one after the
    other from [p0]; each is in the page store if its write succeeded, the
    progress file holds the last of them if that write succeeded, nothing
    else was touched; the loop went on exactly while the pages were full and
    the budget open; and the status is one of the three stops, the exception
    of [os.makedirs], or the end of the fuel. *)
Definition run_report (fuel : nat) (max_pages : option Z) (e : env) (w : world)
    (p0 : Z) (st : run_status) (s' : loop_state) : Prop :=
  exists k : nat,
    fetched_pages s' = Z.of_nat k /\
    current_page s' = p0 + Z.of_nat k /\
    last_fetched_page s' = (if decide (k = 0%nat) then 0 else p0 + Z.of_nat k - 1) /\
    saved_pages (trace s') = seqZ p0 (Z.of_nat k) /\
    saved_states (trace s') = seqZ p0 (Z.of_nat k) /\
    (forall q, p0 <= q < p0 + Z.of_nat k -> page_write e q = WriteOk ->
       w_pages (files s') !! q = Some (PageCoins (page_result e q))) /\
    (forall q, ~ (p0 <= q < p0 + Z.of_nat k) ->
       w_pages (files s') !! q = w_pages w !! q) /\
    (forall k' : nat, k = S k' -> state_write e (p0 + Z.of_nat k') = WriteOk ->
       w_state (files s') = StateDict (Some (JInt (p0 + Z.of_nat k')))) /\
    (k = 0%nat -> files s' = w) /\
    (forall j : nat, (j < k)%nat -> budget_reached max_pages (Z.of_nat j) = false) /\
    (forall j : nat, (S j < k)%nat -> full_page e (p0 + Z.of_nat j)) /\
    match st with
    | Stopped ShortPage =>
        (* (a) the last page handled is short, and was handled *)
        exists k' : nat, k = S k' /\ short_page e (p0 + Z.of_nat k')
    | Stopped BudgetReached =>
        (* (b) the budget is used up; all [k] pages were full *)
        budget_reached max_pages (Z.of_nat k) = true /\
        forall j : nat, (j < k)%nat -> full_page e (p0 + Z.of_nat j)
    | Stopped NoData =>
        (* (c) the next page gave no records, and is not among the [k] *)
        budget_reached max_pages (Z.of_nat k) = false /\
        no_data e (p0 + Z.of_nat k) /\
        forall j : nat, (j < k)%nat -> full_page e (p0 + Z.of_nat j)
    | Raised x =>
        (* the next page gave records, and [os.makedirs] raised *)
        x = OSError /\
        budget_reached max_pages (Z.of_nat k) = false /\
        page_result e (p0 + Z.of_nat k) <> [] /\
        makedirs e (p0 + Z.of_nat k) = false /\
        forall j : nat, (j < k)%nat -> full_page e (p0 + Z.of_nat j)
    | Running =>
        k = fuel /\
        forall j : nat, (j < k)%nat -> full_page e (p0 + Z.of_nat j)
    end.

(** ** Specification-level definitions: selection *)

(** The records of a page file that decodes ([] for one that is skipped),
    and the concatenation of the page store in page-number order. *)
Definition coins_of (f : Z * page_payload) : list coin :=
  match snd f with
  | PageCoins coins => coins
  | PageCoinsNotList => []
  | PageUnreadable => []
  end.

Definition page_concat (st : store) : list coin :=
  match pages_dir st with
  | None => []
  | Some page_files => List.flat_map coins_of (stable_sort page_before page_files)
  end.

(** What a rebuild with fate [o] of the cache write leaves as cache file,
    given the records to be cached. *)
Definition cache_after (o : write_outcome) (cached : list coin) : cache_file :=
  match cached with
  | [] => CacheMissing
  | _ :: _ =>
      match o with
      | WriteOk => CacheCoins cached
      | WriteErrUntouched => CacheMissing
      | WriteErrTruncated => CacheUnreadable
      end
  end.

(** The four sub-scores in the specification's words: each is a capped
    ratio times its weight, and nothing when its input is missing or not
    positive (for the rank: beyond 100); and their sum, taken from zero in
    this order. *)
Definition liquidity_score (c : coin) : result float :=
  let market_cap := get_num (market_cap c) 0 in
  let total_volume := get_num (total_volume c) 0 in
  if Qlt_bool 0 market_cap then
    ratio ← truediv total_volume market_cap;
    capped ← fdiv (fmul ratio (Fin 100)) (Fin 5);
    Ok (capped_score capped 0.4)
  else Ok (Fin 0).

Definition momentum_score (change : num) (scale : Z) (weight : Q)
  : result float :=
  if Qlt_bool 0 change then
    ratio ← truediv change (Int scale);
    Ok (capped_score ratio weight)
  else Ok (Fin 0).

Definition momentum_24h_score (c : coin) : result float :=
  momentum_score (get_num (price_change_percentage_24h c) 0) 10 0.3.

Definition momentum_7d_score (c : coin) : result float :=
  momentum_score (get_num (price_change_percentage_7d c) 0) 20 0.2.

Definition rank_score (c : coin) : result float :=
  let rank := get_or_Z (market_cap_rank c) 999 in
  if rank <=? 100 then
    ratio ← truediv (Int (101 - rank)) (Int 10);
    Ok (fmul ratio (float_lit 0.1))
  else Ok (Fin 0).

Definition score_sum (liquidity momentum_24h momentum_7d rank : float)
  : float :=
  fadd (fadd (fadd (fadd (Fin 0) liquidity) momentum_24h) momentum_7d) rank.

(** A float that is a number between two bounds. *)
Definition float_between (lo hi : Q) (f : float) : Prop :=
  exists v : Q, f = Fin v /\ (lo <= v)%Q /\ (v <= hi)%Q.

(** [a <= b] on floats that are not NaN. *)
Definition fle (a b : float) : Prop :=
  match a, b with
  | NaN, _ | _, NaN => False
  | NInf, _ => True
  | _, PInf => True
  | Fin x, Fin y => (x <= y)%Q
  | _, _ => False
  end.

(** A float: what [round64] gives, or an infinity or NaN. *)
Definition is_float (f : float) : Prop :=
  match f with
  | Fin v => round64 v = Fin v
  | _ => True
  end.

(** An [int] that [float] converts. *)
Definition int_in_float_range (z : Z) : Prop :=
  Z.abs z < 2 ^ 1024 - 2 ^ 970.

(** Two numbers that are both [int]s or both floats. *)
Definition same_kind (a b : num) : Prop :=
  match a, b with
  | Int _, Int _ | Float _, Float _ => True
  | _, _ => False
  end.

(** A number of a record that is a float or an [int] that [float]
    converts. *)
Definition in_float_range (n : num) : Prop :=
  match n with
  | Int z => int_in_float_range z
  | Float _ => True
  end.

(** [needle] is a substring of [hay]. *)
Definition contains (needle hay : string) : Prop :=
  exists pre post : string, hay = (pre ++ needle ++ post)%string.

(** The eight rules of the filter in the specification's words and
    order. *)
Inductive rule :=
| RuleBlacklist | RuleStablecoin | RuleCapCeiling | RuleCapFloor
| RuleVolume | RuleDrop24h | RuleStaleATH | RuleATHDrawdown.

Definition rules_before_ath : list rule :=
  [RuleBlacklist; RuleStablecoin; RuleCapCeiling; RuleCapFloor; RuleVolume;
   RuleDrop24h].

Definition rule_order : list rule :=
  rules_before_ath ++ [RuleStaleATH; RuleATHDrawdown].

Section Rules.

Variable upper : string -> string.
Variable fromisoformat : string -> option datetime.
Variable blacklist_keywords : list string.

(** The two datetimes the staleness rule compares, when both parse. *)
Definition ath_dates (c : coin) : option (datetime * datetime) :=
  match ath_date c with
  | None => None
  | Some EmptyString => None
  | Some ath_date_str =>
      match fromisoformat (replace_Z ath_date_str),
            fromisoformat "2023-01-01T00:00:00+00:00" with
      | Some d, Some cutoff => Some (d, cutoff)
      | _, _ => None
      end
  end.

(** The comparison of the two is between a datetime with an offset and one
    without. *)
Definition date_comparison_raises (c : coin) : bool :=
  match ath_dates c with
  | Some (d, cutoff) =>
      match datetime_lt d cutoff with
      | Raise _ => true
      | Ok _ => false
      end
  | None => false
  end.

Definition rule_fails (r : rule) (c : coin) : bool :=
  let name := upper (default EmptyString (name c)) in
  let symbol := upper (default EmptyString (symbol c)) in
  match r with
  | RuleBlacklist =>
      match blacklist_hit blacklist_keywords name symbol with
      | Some _ => true
      | None => false
      end
  | RuleStablecoin =>
      str_in "USD" name || str_in "USDT" name || str_in "STAKED" name
      || str_in "USD" symbol || str_in "USDT" symbol || str_in "STAKED" symbol
  | RuleCapCeiling => Qlt_bool MARKET_CAP_MAX (get_or (market_cap c) 0)
  | RuleCapFloor => Qlt_bool (get_or (market_cap c) 0) MARKET_CAP_MIN
  | RuleVolume => Qlt_bool (get_or (total_volume c) 0) 600000
  | RuleDrop24h => Qlt_bool (get_or (price_change_percentage_24h c) 0) (-20)
  | RuleStaleATH =>
      match ath_dates c with
      | Some (d, cutoff) =>
          match datetime_lt d cutoff with
          | Ok lt =>
              lt && match ath_change_percentage c with
                    | None => true
                    | Some p => Qlt_bool p (-95)
                    end
          | Raise _ => false
          end
      | None => false
      end
  | RuleATHDrawdown =>
      match ath_change_percentage c with
      | Some p => Qlt_bool p (-98)
      | None => false
      end
  end.

Definition rule_reason (r : rule) (c : coin) : filter_reason :=
  match r with
  | RuleBlacklist =>
      ReasonBlacklist
        (default EmptyString
           (blacklist_hit blacklist_keywords
              (upper (default EmptyString (name c)))
              (upper (default EmptyString (symbol c)))))
  | RuleStablecoin => ReasonStablecoin
  | RuleCapCeiling => ReasonCapAboveMax (get_or (market_cap c) 0)
  | RuleCapFloor => ReasonCapBelowMin (get_or (market_cap c) 0)
  | RuleVolume => ReasonVolume (get_or (total_volume c) 0)
  | RuleDrop24h => ReasonDrop24h (get_or (price_change_percentage_24h c) 0)
  | RuleStaleATH =>
      ReasonStaleATH (default EmptyString (ath_date c)) (ath_change_percentage c)
  | RuleATHDrawdown =>
      ReasonATHDrawdown (from_option num_value 0%Q (ath_change_percentage c))
  end.

(** The outcome the specification describes: the reason of the first rule
    that fails, or acceptance. *)
Definition first_failing (rules : list rule) (c : coin) : option rule :=
  List.find (fun r => rule_fails r c) rules.

Definition verdict (c : coin) : bool * option filter_reason :=
  match first_failing rule_order c with
  | Some r => (false, Some (rule_reason r c))
  | None => (true, None)
  end.

End Rules.

Section SelectionSpec.

Variable upper : string -> string.
Variable fromisoformat : string -> option datetime.
Variable blacklist_keywords : list string.

(** The verdict of the filter on a record: accepted, rejected, or an
    exception. *)
Definition accepts (c : coin) : bool :=
  match is_excellent_coin upper fromisoformat blacklist_keywords c with
  | Ok (true, _) => true
  | _ => false
  end.

(** The exception the selection loop meets at a record: that of the
    filter, or that of the score of a record the filter accepts. *)
Definition raises (c : coin) : option py_exn :=
  match is_excellent_coin upper fromisoformat blacklist_keywords c with
  | Raise e => Some e
  | Ok (true, _) =>
      match calculate_score c with
      | Raise e => Some e
      | Ok _ => None
      end
  | Ok (false, _) => None
  end.

Definition first_raise (all_coins : list coin) : option py_exn :=
  head (omap raises all_coins).

(** A record with its score. *)
Definition scored (c : coin) : option coin :=
  match calculate_score c with
  | Ok score => Some (set_excellent_score c score)
  | Raise _ => None
  end.

Definition rejection (c : coin) : option rejected :=
  match is_excellent_coin upper fromisoformat blacklist_keywords c with
  | Ok (false, reason) => Some (reject c reason)
  | _ => None
  end.

(** The accepted records with their scores, and the rejected ones, in
    aggregation order. *)
Definition accepted_in_order (all_coins : list coin) : list coin :=
  omap scored (List.filter accepts all_coins).

Definition rejected_in_order (all_coins : list coin) : list rejected :=
  omap rejection all_coins.

End SelectionSpec.

(** The records of one score. *)
Definition of_score (v : float) (l : list coin) : list coin :=
  List.filter (fun c => feqb (sort_key c) v) l.

(** The ranking in the specification's words: the list is the accepted
    records rearranged, it runs down in score, and the records of any one
    score stand in it as they stood in aggregation order. *)
Definition ranked (in_order ranking : list coin) : Prop :=
  Permutation ranking in_order /\
  StronglySorted (fun a b => fle (sort_key b) (sort_key a)) ranking /\
  forall v : float, of_score v ranking = of_score v in_order.

(** ** Sample data *)

Definition sample_coin : coin :=
  mkCoin (Some "Sample Coin"%string) (Some "smp"%string) (Some (Float 5000000000))
    (Some 50) (Some (Float 300000000)) (Some (Float 5)) (Some (Float 10)) (Some (Float (-40)))
    (Some "2023-06-01T00:00:00.000Z"%string) None.

Definition empty_world : world := mkWorld StateMissing ∅.

(** Progress recorded up to page 5. *)
Definition world_at_5 : world := mkWorld (StateDict (Some (JInt 5))) ∅.

(** Every page holds one record; all writes succeed. *)
Definition env_one_record : env :=
  mkEnv (fun _ _ => JsonList [sample_coin]) (fun _ => WriteOk) (fun _ => WriteOk)
    (fun _ => true).

(** The same, but no page file can be written. *)
Definition env_store_fails : env :=
  mkEnv (fun _ _ => JsonList [sample_coin]) (fun _ => WriteErrUntouched)
    (fun _ => WriteOk) (fun _ => true).

(** The same, but the progress file cannot be written. *)
Definition env_progress_fails : env :=
  mkEnv (fun _ _ => JsonList [sample_coin]) (fun _ => WriteOk)
    (fun _ => WriteErrUntouched) (fun _ => true).

(** Two rate-limit answers, then the page. *)
Definition env_two_429 : env :=
  mkEnv (fun _ n => match n with
                    | 0%nat | 1%nat => Http429
                    | _ => JsonList [sample_coin]
                    end)
    (fun _ => WriteOk) (fun _ => WriteOk) (fun _ => true).

(** The record of the specification's first scenario, whose all-time-high
    date has no UTC offset. *)
Definition coin_naive_ath_date : coin :=
  mkCoin (Some "Sample Coin"%string) (Some "smp"%string) (Some (Float 5000000000))
    (Some 50) (Some (Float 300000000)) (Some (Float 5)) (Some (Float 10)) (Some (Float (-40)))
    (Some "2023-06-01"%string) None.

(** A record named after a dollar-pegged token. *)
Definition coin_usd : coin :=
  mkCoin (Some "First Digital usd"%string) (Some "fdusd"%string)
    (Some (Float 2000000000)) (Some 80) (Some (Float 900000000)) (Some (Float 0)) (Some (Float 0))
    (Some (Float (-2))) (Some "2024-01-01T00:00:00.000Z"%string) None.

(** A store of one page of three records and no cache. *)
Definition store_three : store :=
  mkStore (Some [(1, PageCoins [sample_coin; coin_usd; coin_naive_ath_date])])
    CacheMissing.

(** Two records of the same score, 0.4, that differ in their names. *)
Definition coin_alpha : coin :=
  mkCoin (Some "Alpha"%string) (Some "alp"%string) (Some (Float 1000000000)) None
    (Some (Float 50000000)) None None None None None.

Definition coin_beta : coin :=
  mkCoin (Some "Beta"%string) (Some "bet"%string) (Some (Float 1000000000)) None
    (Some (Float 50000000)) None None None None None.

(** A cache of three accepted records and a rejected one, the one of the
    highest score between the two of equal score, and no page files. *)
Definition store_cached : store :=
  mkStore None (CacheCoins [coin_alpha; coin_usd; sample_coin; coin_beta]).

(** The same cache beside a page file. *)
Definition store_cached_pages : store :=
  mkStore (Some [(1, PageCoins [coin_usd; coin_beta])])
    (CacheCoins [coin_alpha; coin_usd; sample_coin; coin_beta]).

(** ** Further definitions *)

(** The seconds a log spends in [time.sleep]. *)
Definition sleep_seconds (ev : event) : Z :=
  match ev with
  | EvSleep n => n
  | _ => 0
  end.

Definition total_sleep (log : list event) : Z :=
  List.fold_right (fun ev acc => sleep_seconds ev + acc) 0 log.

(** A transport that answers every request with a list of [n] records. *)
Definition env_pages_of (n : nat) : env :=
  mkEnv (fun _ _ => JsonList (List.repeat sample_coin n))
    (fun _ => WriteOk) (fun _ => WriteOk) (fun _ => true).

(** One connection error, then the page. *)
Definition env_error_then_page : env :=
  mkEnv (fun _ n => match n with
                    | 0%nat => ConnError
                    | _ => JsonList [sample_coin]
                    end)
    (fun _ => WriteOk) (fun _ => WriteOk) (fun _ => true).

(** Full pages; the pages directory can be created when pages 1 and 2 are
    stored and no longer when page 3 is. *)
Definition env_makedirs_fails_at_3 : env :=
  mkEnv (fun _ _ => JsonList (List.repeat sample_coin 250))
    (fun _ => WriteOk) (fun _ => WriteOk) (fun q => q <? 3).

(** A page file whose "coins" the aggregation uses. *)
Definition readable_page (f : Z * page_payload) : bool :=
  match snd f with
  | PageCoins _ => true
  | PageCoinsNotList => false
  | PageUnreadable => false
  end.

(** Pages 2, 1 and 3 in this listing order, page 3 unreadable. *)
Definition store_unordered : store :=
  mkStore (Some [(2, PageCoins [coin_usd]); (1, PageCoins [sample_coin]);
                 (3, PageUnreadable)])
    CacheMissing.

(** The same pages, listed in another order. *)
Definition store_reordered : store :=
  mkStore (Some [(3, PageUnreadable); (1, PageCoins [sample_coin]);
                 (2, PageCoins [coin_usd])])
    CacheMissing.

Section Blacklist.

(** [str.upper] and [str.strip] are the interpreter's. *)
Variable upper : string -> string.
Variable strip : string -> string.

(** The [for line in f] loop of [_load_blacklist_keywords]. *)
Fixpoint blacklist_lines (lines : list string) : list string :=
  match lines with
  | [] => []
  | line :: rest =>
      let line := strip line in
      if String.eqb line EmptyString || String.prefix "#" line
      then blacklist_lines rest
      else upper line :: blacklist_lines rest
  end.

(** [_load_blacklist_keywords]: [file] is [None] when blacklist.txt does not
    exist ([FileNotFoundError], the one exception the source catches), and
    the lines of the file otherwise. *)
Definition _load_blacklist_keywords (file : option (list string))
  : list string :=
  match file with
  | None => []
  | Some lines => blacklist_lines lines
  end.

End Blacklist.

(** The record without its "ath_date" key. *)
Definition clear_ath_date (c : coin) : coin :=
  mkCoin (name c) (symbol c) (market_cap c) (market_cap_rank c)
    (total_volume c) (price_change_percentage_24h c)
    (price_change_percentage_7d c) (ath_change_percentage c) None
    (excellent_score c).

(** A record whose date does not parse. *)
Definition coin_bad_date : coin :=
  mkCoin (Some "Alpha"%string) (Some "alp"%string) (Some (Float 1000000000)) None
    (Some (Float 50000000)) None None None (Some "yesterday"%string) None.

(** A record at the cap of every sub-score. *)
Definition coin_top : coin :=
  mkCoin (Some "Top"%string) (Some "top"%string) (Some (Float 1000000000)) (Some 1)
    (Some (Float 600000000)) (Some (Float 150)) (Some (Float 250)) None None None.

(** [str.strip] on ASCII text: the whitespace characters are the space,
    [\t] to [\r] and the four separators 28 to 31. *)
Definition ascii_is_space (c : ascii) : bool :=
  let n := nat_of_ascii c in
  ((n =? 32) || ((9 <=? n) && (n <=? 13)) || ((28 <=? n) && (n <=? 31)))%nat.

Fixpoint ascii_lstrip (s : string) : string :=
  match s with
  | EmptyString => EmptyString
  | String c rest => if ascii_is_space c then ascii_lstrip rest else s
  end.

Fixpoint ascii_rstrip (s : string) : string :=
  match s with
  | EmptyString => EmptyString
  | String c rest =>
      match ascii_rstrip rest with
      | EmptyString => if ascii_is_space c then EmptyString
                       else String c EmptyString
      | kept => String c kept
      end
  end.

Definition ascii_strip (s : string) : string := ascii_rstrip (ascii_lstrip s).

(** A blacklist file: a comment, a blank line and one keyword. *)
Definition blacklist_file : list string :=
  ["# dead projects"; "  "; " alpha "]%string.

(** Two records that differ in volume only. *)
Definition coin_quiet : coin :=
  mkCoin (Some "Alpha"%string) (Some "alp"%string) (Some (Float 1000000000))
    (Some 50) (Some (Float 1000000)) (Some (Float 5)) (Some (Float 10)) None None None.

Definition coin_busy : coin :=
  mkCoin (Some "Alpha"%string) (Some "alp"%string) (Some (Float 1000000000))
    (Some 50) (Some (Float 20000000)) (Some (Float 5)) (Some (Float 10)) None None None.

(** A record whose volume is an [int] beyond the range of [float]. *)
Definition coin_huge_volume : coin :=
  mkCoin (Some "Huge"%string) (Some "hug"%string) (Some (Float 1000000000))
    (Some 50) (Some (Int (10 ^ 400))) None None None None None.

(** A record that has nothing but the rank 100. *)
Definition coin_rank_100 : coin :=
  mkCoin (Some "Last"%string) (Some "lst"%string) None (Some 100) None None
    None None None None.

(** Two records whose scores are both 3/5 in exact arithmetic; as floats
    the first scores 0.6 and the second 0.6000000000000001. *)
Definition coin_lo : coin :=
  mkCoin (Some "Lo"%string) (Some "lo"%string) (Some (Int 1000000000))
    (Some 91) (Some (Int 50000000)) None (Some (Int 10)) None None None.

Definition coin_hi : coin :=
  mkCoin (Some "Hi"%string) (Some "hi"%string) (Some (Int 1000000000))
    None (Some (Int 50000000)) None (Some (Int 20)) None None None.

(** * Properties of fetch_coin_infos.py *)

Section FetchPage.

Variable tr : nat -> response.
Variable page : Z.

Lemma fetch_page_loop_policy (fuel : nat) :
  forall (retries : Z) (calls : nat) (log : list event),
    0 <= retries ->
    (Z.to_nat (MAX_RETRIES_PER_PAGE - retries) < fuel)%nat ->
    fetch_page_loop fuel tr page retries calls log =
    Some (fst (retry_policy (Z.to_nat (MAX_RETRIES_PER_PAGE - retries))
                 tr page calls),
          log ++ snd (retry_policy (Z.to_nat (MAX_RETRIES_PER_PAGE - retries))
                        tr page calls)).
Proof.
  unfold MAX_RETRIES_PER_PAGE.
  induction fuel as [|fuel IH]; intros retries calls log Hr Hf; [lia|].
  cbn [fetch_page_loop]. unfold MAX_RETRIES_PER_PAGE.
  destruct (Z.ltb_spec retries 3) as [Hlt|Hge].
  - replace (Z.to_nat (3 - retries)) with (S (Z.to_nat (3 - (retries + 1))))
      in * by lia.
    cbn [retry_policy].
    destruct (tr calls); try (rewrite IH by lia;
      destruct (retry_policy _ tr page (S calls)) as [c l]; cbn;
      rewrite <- !app_assoc; reflexivity).
    + cbn. reflexivity.
    + cbn. reflexivity.
  - replace (Z.to_nat (3 - retries)) with O by lia. cbn.
    rewrite app_nil_r. reflexivity.
Qed.

Lemma retry_policy_attempts (budget : nat) :
  forall attempt,
    (List.length (attempts (snd (retry_policy budget tr page attempt)))
     <= budget)%nat.
Proof.
  induction budget as [|b IH]; intros attempt; cbn; [lia|].
  destruct (tr attempt);
    try (specialize (IH (S attempt));
         destruct (retry_policy b tr page (S attempt)) as [c l];
         cbn in *; lia);
    cbn; lia.
Qed.

End FetchPage.

(** [fetch_page] always returns: the fuel it is given is never used up. *)
Lemma fetch_page_returns (e : env) (page : Z) :
  fetch_page e page = Some (retry_policy 3 (transport e page) page 0).
Proof.
  unfold fetch_page. rewrite fetch_page_loop_policy.
  - cbn [app]. change (Z.to_nat (MAX_RETRIES_PER_PAGE - 0)) with 3%nat.
    destruct (retry_policy 3 (transport e page) page 0); reflexivity.
  - lia.
  - cbn. lia.
Qed.

Lemma fetch_page_eq (e : env) (p : Z) :
  fetch_page e p = Some (page_result e p, page_events e p).
Proof.
  unfold page_result, page_events. rewrite fetch_page_returns.
  destruct (retry_policy 3 (transport e p) p 0); reflexivity.
Qed.

(** The first event of a fetch is the first request for the page. *)
Lemma page_events_head (e : env) (p : Z) :
  exists rest, page_events e p = EvGet p 0 :: rest.
Proof.
  unfold page_events. rewrite fetch_page_returns.
  generalize 2%nat. intros b. cbn [retry_policy].
  destruct (transport e p 0%nat);
    try (destruct (retry_policy b (transport e p) p 1) as [c l]);
    eexists; reflexivity.
Qed.

Lemma page_events_pages (e : env) (p : Z) :
  Forall (fun ev => forall q, event_page ev = Some q -> q = p) (page_events e p).
Proof.
  unfold page_events. rewrite fetch_page_returns.
  generalize 0%nat, 3%nat. intros a b. revert a.
  induction b as [|b IH]; intros a; cbn; [constructor|].
  destruct (transport e p a);
    try (specialize (IH (S a));
         destruct (retry_policy b (transport e p) p (S a)) as [c l]; cbn in *;
         repeat constructor; cbn; try congruence; exact IH);
    repeat constructor; cbn; congruence.
Qed.

Lemma page_events_no_save (e : env) (p : Z) :
  saved_pages (page_events e p) = [] /\ saved_states (page_events e p) = [].
Proof.
  unfold page_events. rewrite fetch_page_returns.
  generalize 0%nat, 3%nat. intros a b. revert a.
  induction b as [|b IH]; intros a; cbn; [auto|].
  destruct (transport e p a);
    try (specialize (IH (S a));
         destruct (retry_policy b (transport e p) p (S a)) as [c l]; cbn in *;
         exact IH);
    cbn; auto.
Qed.

Section Controller.

Variable max_pages : option Z.
Variable e : env.

(** The loop body, by cases on the budget and on what the fetch returned. *)
Lemma loop_body_cases (s : loop_state) :
  let p := current_page s in
  let coins := page_result e p in
  let fetched :=
    mkLoop p (fetched_pages s) (last_fetched_page s) (files s)
      (trace s ++ page_events e p) in
  let stored :=
    mkLoop (p + 1) (fetched_pages s + 1) p
      (save_state e p (write_page_file e p coins (files s)))
      ((trace s ++ page_events e p)
         ++ [EvSavePage p (List.length coins); EvSaveState p; EvSleep 1]) in
  loop_body max_pages e s =
    if budget_reached max_pages (fetched_pages s)
    then Some (Break BudgetReached s)
    else if decide (coins = [])
    then Some (Break NoData fetched)
    else if makedirs e p
    then (if Z.of_nat (List.length coins) <? PER_PAGE
          then Some (Break ShortPage stored)
          else Some (Continue stored))
    else Some (Abort OSError fetched).
Proof.
  cbn zeta. unfold loop_body, save_page_data. rewrite fetch_page_eq.
  destruct (budget_reached max_pages (fetched_pages s)); [reflexivity|].
  destruct (page_result e (current_page s)) as [|c cs] eqn:E.
  - reflexivity.
  - destruct (decide (c :: cs = [])); [discriminate|].
    destruct (makedirs e (current_page s)); reflexivity.
Qed.

Lemma saved_pages_step (tr : list event) (p : Z) (n : nat) :
  saved_pages ((tr ++ page_events e p)
                 ++ [EvSavePage p n; EvSaveState p; EvSleep 1])
  = saved_pages tr ++ [p].
Proof.
  unfold saved_pages. rewrite !omap_app.
  destruct (page_events_no_save e p) as [H _]. unfold saved_pages in H.
  rewrite H. cbn. rewrite app_nil_r. reflexivity.
Qed.

Lemma saved_states_step (tr : list event) (p : Z) (n : nat) :
  saved_states ((tr ++ page_events e p)
                  ++ [EvSavePage p n; EvSaveState p; EvSleep 1])
  = saved_states tr ++ [p].
Proof.
  unfold saved_states. rewrite !omap_app.
  destruct (page_events_no_save e p) as [_ H]. unfold saved_states in H.
  rewrite H. cbn. rewrite app_nil_r. reflexivity.
Qed.

Local Ltac run_spec_close :=
  intros; rewrite ?Z.add_0_r; auto; try lia; try discriminate.

(** The loop after at most [fuel] iterations: [k] pages were stored and
    counted, one after the other from [current_page], and the status is
    accounted for by [stop_case]. *)
Lemma run_loop_spec (fuel : nat) :
  forall (s : loop_state) (st : run_status) (s' : loop_state),
    run_loop fuel max_pages e s = (st, s') ->
    exists k : nat,
      (k <= fuel)%nat /\
      (st = Running -> k = fuel) /\
      fetched_pages s' = fetched_pages s + Z.of_nat k /\
      current_page s' = current_page s + Z.of_nat k /\
      last_fetched_page s' =
        (if decide (k = 0%nat) then last_fetched_page s
         else current_page s + Z.of_nat k - 1) /\
      files s' = process_pages e (current_page s) k (files s) /\
      saved_pages (trace s') =
        saved_pages (trace s) ++ seqZ (current_page s) (Z.of_nat k) /\
      saved_states (trace s') =
        saved_states (trace s) ++ seqZ (current_page s) (Z.of_nat k) /\
      (forall j : nat, (j < k)%nat ->
         budget_reached max_pages (fetched_pages s + Z.of_nat j) = false) /\
      (forall j : nat, (S j < k)%nat ->
         full_page e (current_page s + Z.of_nat j)) /\
      stop_case max_pages e (current_page s) (fetched_pages s) k st.
Proof.
  induction fuel as [|fuel IH]; intros s st s' Hrun.
  - cbn in Hrun. injection Hrun as <- <-. exists 0%nat.
    rewrite !Z.add_0_r, !app_nil_r. cbn.
    repeat split; run_spec_close.
  - cbn [run_loop] in Hrun. rewrite loop_body_cases in Hrun. cbn zeta in Hrun.
    destruct (budget_reached max_pages (fetched_pages s)) eqn:Hb.
    { injection Hrun as <- <-. exists 0%nat.
      rewrite !Z.add_0_r, !app_nil_r. cbn.
      repeat split; run_spec_close. }
    destruct (decide (page_result e (current_page s) = [])) as [Hnil|Hne].
    { injection Hrun as <- <-. exists 0%nat. cbn [current_page fetched_pages
        last_fetched_page files trace].
      rewrite !Z.add_0_r. cbn.
      destruct (page_events_no_save e (current_page s)) as [H1 H2].
      unfold saved_pages, saved_states in *. rewrite !omap_app, H1, H2.
      rewrite !app_nil_r.
      repeat split; run_spec_close. }
    destruct (makedirs e (current_page s)) eqn:Hmk.
    2:{ injection Hrun as <- <-. exists 0%nat. cbn [current_page fetched_pages
          last_fetched_page files trace].
        rewrite !Z.add_0_r. cbn.
        destruct (page_events_no_save e (current_page s)) as [H1 H2].
        unfold saved_pages, saved_states in *. rewrite !omap_app, H1, H2.
        rewrite !app_nil_r.
        repeat split; run_spec_close. }
    destruct (Z.ltb_spec (Z.of_nat (List.length (page_result e (current_page s))))
                PER_PAGE) as [Hshort|Hfull].
    { injection Hrun as <- <-. exists 1%nat. cbn [current_page fetched_pages
        last_fetched_page files trace].
      rewrite saved_pages_step, saved_states_step.
      change (seqZ (current_page s) (Z.of_nat 1)) with [current_page s].
      cbn [process_pages].
      repeat split; run_spec_close.
      - destruct (decide (1%nat = 0%nat)); lia.
      - replace j with 0%nat by lia. rewrite Z.add_0_r. exact Hb.
      - exists 0%nat. rewrite Z.add_0_r. repeat split; auto. }
    apply IH in Hrun. destruct Hrun as (k & Hk & Hrunning & Hf & Hc & Hl & Hw & Hsp & Hss
                                        & Hbud & Hfullp & Hcase).
    cbn [current_page fetched_pages last_fetched_page files trace] in *.
    exists (S k).
    rewrite saved_pages_step in Hsp. rewrite saved_states_step in Hss.
    assert (Hseq : seqZ (current_page s) (Z.of_nat (S k))
                   = current_page s :: seqZ (current_page s + 1) (Z.of_nat k)).
    { rewrite seqZ_cons by lia. f_equal. f_equal; lia. }
    rewrite Hseq. rewrite <- !app_assoc in Hsp, Hss. cbn [app] in Hsp, Hss.
    split; [lia|]. split; [intros H; f_equal; auto|].
    split; [lia|]. split; [lia|].
    split.
    { destruct (decide (S k = 0%nat)); [lia|].
      destruct (decide (k = 0%nat)); subst; lia. }
    split; [exact Hw|]. split; [exact Hsp|]. split; [exact Hss|].
    split.
    { intros [|j] Hj; [rewrite Z.add_0_r; exact Hb|].
      replace (fetched_pages s + Z.of_nat (S j))
        with (fetched_pages s + 1 + Z.of_nat j) by lia.
      apply Hbud. lia. }
    assert (Hshift : forall j : nat,
               (forall i : nat, (i < j)%nat ->
                  full_page e (current_page s + 1 + Z.of_nat i)) ->
               forall i : nat, (i < S j)%nat ->
                  full_page e (current_page s + Z.of_nat i)).
    { intros j H [|i] Hi; [rewrite Z.add_0_r; exact Hfull|].
      replace (current_page s + Z.of_nat (S i))
        with (current_page s + 1 + Z.of_nat i) by lia.
      apply H. lia. }
    split.
    { intros [|j] Hj; [rewrite Z.add_0_r; exact Hfull|].
      replace (current_page s + Z.of_nat (S j))
        with (current_page s + 1 + Z.of_nat j) by lia.
      apply Hfullp. lia. }
    destruct st as [|[| |]|x]; cbn [stop_case] in *.
    + apply Hshift; exact Hcase.
    + destruct Hcase as [Hbr Hall]. split.
      * replace (fetched_pages s + Z.of_nat (S k))
          with (fetched_pages s + 1 + Z.of_nat k) by lia. exact Hbr.
      * apply Hshift; exact Hall.
    + destruct Hcase as (Hbr & Hno & Hall). repeat split.
      * replace (fetched_pages s + Z.of_nat (S k))
          with (fetched_pages s + 1 + Z.of_nat k) by lia. exact Hbr.
      * replace (current_page s + Z.of_nat (S k))
          with (current_page s + 1 + Z.of_nat k) by lia. exact Hno.
      * apply Hshift; exact Hall.
    + destruct Hcase as (k' & -> & Hs). exists (S k'). split; [reflexivity|].
      replace (current_page s + Z.of_nat (S k'))
        with (current_page s + 1 + Z.of_nat k') by lia. exact Hs.
    + destruct Hcase as (Hx & Hbr & Hnil & Hraise & Hall).
      split; [exact Hx|]. split.
      { replace (fetched_pages s + Z.of_nat (S k))
          with (fetched_pages s + 1 + Z.of_nat k) by lia. exact Hbr. }
      replace (current_page s + Z.of_nat (S k))
        with (current_page s + 1 + Z.of_nat k) by lia.
      split; [exact Hnil|]. split; [exact Hraise|].
      apply Hshift; exact Hall.
Qed.

(** The pages that went through store and progress update are pages for
    which [os.makedirs] returned. *)
Lemma run_loop_makedirs (fuel : nat) :
  forall (s : loop_state) (st : run_status) (s' : loop_state),
    run_loop fuel max_pages e s = (st, s') ->
    forall q, current_page s <= q < current_page s' -> makedirs e q = true.
Proof.
  induction fuel as [|fuel IH]; intros s st s' Hrun q Hq.
  - cbn in Hrun. injection Hrun as <- <-. lia.
  - cbn [run_loop] in Hrun. rewrite loop_body_cases in Hrun. cbn zeta in Hrun.
    destruct (budget_reached max_pages (fetched_pages s)).
    { injection Hrun as <- <-. lia. }
    destruct (decide (page_result e (current_page s) = [])).
    { injection Hrun as <- <-. cbn [current_page] in Hq. lia. }
    destruct (makedirs e (current_page s)) eqn:Hmk.
    2:{ injection Hrun as <- <-. cbn [current_page] in Hq. lia. }
    destruct (Z.of_nat _ <? PER_PAGE).
    { injection Hrun as <- <-. cbn [current_page] in Hq.
      replace q with (current_page s) by lia. exact Hmk. }
    destruct (Z.eq_dec q (current_page s)) as [->|Hne]; [exact Hmk|].
    apply (IH _ _ _ Hrun). cbn [current_page]. lia.
Qed.

End Controller.

Section Files.

Variable e : env.

Lemma save_state_pages (p : Z) (w : world) :
  w_pages (save_state e p w) = w_pages w.
Proof. unfold save_state. destruct (state_write e p); reflexivity. Qed.

Lemma save_state_ok (p : Z) (w : world) :
  state_write e p = WriteOk ->
  w_state (save_state e p w) = StateDict (Some (JInt p)).
Proof. intros H. unfold save_state. rewrite H. reflexivity. Qed.

Lemma save_page_data_other (p q : Z) (coins : list coin) (w : world) :
  q <> p -> w_pages (write_page_file e p coins w) !! q = w_pages w !! q.
Proof.
  intros H. unfold write_page_file.
  destruct (page_write e p); cbn; try reflexivity;
    rewrite lookup_insert_ne by congruence; reflexivity.
Qed.

Lemma save_page_data_ok (p : Z) (coins : list coin) (w : world) :
  page_write e p = WriteOk ->
  w_pages (write_page_file e p coins w) !! p = Some (PageCoins coins).
Proof.
  intros H. unfold write_page_file. rewrite H. cbn. apply lookup_insert_eq.
Qed.

(** A page file that is not written keeps what it held. *)
Lemma save_page_data_failed (p : Z) (coins : list coin) (w : world) :
  page_write e p <> WriteOk ->
  w_pages (write_page_file e p coins w) !! p = w_pages w !! p \/
  w_pages (write_page_file e p coins w) !! p = Some PageUnreadable.
Proof.
  intros H. unfold write_page_file.
  destruct (page_write e p); [congruence|left|right]; cbn;
    [reflexivity|apply lookup_insert_eq].
Qed.

Lemma process_pages_other (k : nat) :
  forall (p q : Z) (w : world),
    ~ (p <= q < p + Z.of_nat k) ->
    w_pages (process_pages e p k w) !! q = w_pages w !! q.
Proof.
  induction k as [|k IH]; intros p q w H; [reflexivity|].
  cbn [process_pages]. rewrite IH by lia.
  rewrite save_state_pages. apply save_page_data_other. lia.
Qed.

Lemma process_pages_stored (k : nat) :
  forall (p q : Z) (w : world),
    p <= q < p + Z.of_nat k ->
    page_write e q = WriteOk ->
    w_pages (process_pages e p k w) !! q = Some (PageCoins (page_result e q)).
Proof.
  induction k as [|k IH]; intros p q w H Hok; [lia|].
  cbn [process_pages]. destruct (Z.eq_dec q p) as [->|Hne].
  - rewrite process_pages_other by lia. rewrite save_state_pages.
    apply save_page_data_ok. exact Hok.
  - apply IH; [lia|exact Hok].
Qed.

Lemma process_pages_progress (k : nat) :
  forall (p : Z) (w : world),
    state_write e (p + Z.of_nat k) = WriteOk ->
    w_state (process_pages e p (S k) w)
    = StateDict (Some (JInt (p + Z.of_nat k))).
Proof.
  induction k as [|k IH]; intros p w Hok.
  - cbn [process_pages]. rewrite Z.add_0_r in *. apply save_state_ok. exact Hok.
  - change (process_pages e p (S (S k)) w)
      with (process_pages e (p + 1) (S k)
              (save_state e p (write_page_file e p (page_result e p) w))).
    replace (p + Z.of_nat (S k)) with (p + 1 + Z.of_nat k) in * by lia.
    apply IH. exact Hok.
Qed.

End Files.

Section Trace.

Variable max_pages : option Z.
Variable e : env.

(** A run only adds events, all about pages from [current_page] on, and the
    first one, unless the budget is used up at once, is the first request
    for [current_page]. *)
Lemma run_loop_trace (fuel : nat) :
  forall (s : loop_state) (st : run_status) (s' : loop_state),
    run_loop fuel max_pages e s = (st, s') ->
    exists new,
      trace s' = trace s ++ new /\
      Forall (fun ev => forall q, event_page ev = Some q -> current_page s <= q)
        new /\
      ((0 < fuel)%nat ->
       budget_reached max_pages (fetched_pages s) = false ->
       exists rest, new = EvGet (current_page s) 0 :: rest).
Proof.
  induction fuel as [|fuel IH]; intros s st s' Hrun.
  - cbn in Hrun. injection Hrun as <- <-. exists []. rewrite app_nil_r.
    repeat split; [constructor|lia].
  - cbn [run_loop] in Hrun. rewrite loop_body_cases in Hrun. cbn zeta in Hrun.
    pose proof (page_events_pages e (current_page s)) as Hev.
    destruct (page_events_head e (current_page s)) as [rest0 Hhead].
    assert (Hge : Forall (fun ev => forall q, event_page ev = Some q ->
                                      current_page s <= q)
                    (page_events e (current_page s))).
    { eapply Forall_impl; [exact Hev|]. cbn. intros ev H q Hq.
      rewrite (H q Hq). lia. }
    destruct (budget_reached max_pages (fetched_pages s)) eqn:Hb.
    { injection Hrun as <- <-. exists []. rewrite app_nil_r.
      repeat split; [constructor|discriminate]. }
    destruct (decide (page_result e (current_page s) = [])).
    { injection Hrun as <- <-. exists (page_events e (current_page s)).
      cbn [trace]. repeat split; [exact Hge|].
      intros _ _. exists rest0. exact Hhead. }
    destruct (makedirs e (current_page s)).
    2:{ injection Hrun as <- <-. exists (page_events e (current_page s)).
        cbn [trace]. repeat split; [exact Hge|].
        intros _ _. exists rest0. exact Hhead. }
    set (saves := [EvSavePage (current_page s)
                     (List.length (page_result e (current_page s)));
                   EvSaveState (current_page s); EvSleep 1]) in *.
    assert (Hs : Forall (fun ev => forall q, event_page ev = Some q ->
                                     current_page s <= q) saves).
    { repeat constructor; cbn; intros q Hq; try discriminate;
        injection Hq as <-; lia. }
    destruct (Z.of_nat _ <? PER_PAGE).
    { injection Hrun as <- <-.
      exists (page_events e (current_page s) ++ saves). cbn [trace].
      rewrite app_assoc. repeat split.
      - apply Forall_app. split; assumption.
      - intros _ _. rewrite Hhead. eexists. reflexivity. }
    apply IH in Hrun. destruct Hrun as (new & Htr & Hall & _).
    cbn [trace current_page] in *.
    exists (page_events e (current_page s) ++ saves ++ new).
    rewrite Htr, <- !app_assoc. repeat split.
    + apply Forall_app. split; [exact Hge|]. apply Forall_app. split; [exact Hs|].
      eapply Forall_impl; [exact Hall|]. cbn. intros ev H q Hq.
      specialize (H q Hq). lia.
    + intros _ _. rewrite Hhead. eexists. reflexivity.
Qed.

End Trace.

(** ** The retry policy of [fetch_page] *)

(** C4.  [fetch_page] follows the retry policy with a budget of three
    attempts: it always returns, after at most three requests; a 429 answer
    and a generic failure each use up one attempt of that one budget, followed
    by a backoff of 60 and of 5; two 429 answers and then a list return that
    list; three failures return no records; a payload that is not a list
    returns no records at once, and that request is the last one. *)
Theorem fetch_page_retry_policy (e : env) (page : Z) :
  let tr := transport e page in
  exists coins log,
    fetch_page e page = Some (coins, log) /\
    (coins, log) = retry_policy 3 tr page 0 /\
    (List.length (attempts log) <= 3)%nat /\
    (forall data,
        tr 0%nat = Http429 -> tr 1%nat = Http429 -> tr 2%nat = JsonList data ->
        coins = data) /\
    (forall b0 b1 b2,
        backoff (tr 0%nat) = Some b0 -> backoff (tr 1%nat) = Some b1 ->
        backoff (tr 2%nat) = Some b2 ->
        coins = [] /\
        log = [EvGet page 0; EvSleep b0; EvGet page 1; EvSleep b1;
               EvGet page 2; EvSleep b2]) /\
    backoff Http429 = Some 60 /\
    backoff ConnError = Some 5 /\ backoff HttpError = Some 5 /\
    backoff BadJson = Some 5 /\
    (forall n : nat,
        (n < 3)%nat ->
        (forall j : nat, (j < n)%nat -> is_Some (backoff (tr j))) ->
        tr n = JsonNonList ->
        coins = [] /\ last log = Some (EvGet page n) /\
        List.length (attempts log) = S n).
Proof.
  intros tr. rewrite fetch_page_returns. fold tr.
  destruct (retry_policy 3 tr page 0) as [coins log] eqn:E.
  exists coins, log. split; [reflexivity|]. split; [reflexivity|].
  split.
  { pose proof (retry_policy_attempts tr page 3 0) as H. rewrite E in H. exact H. }
  split.
  { intros data H0 H1 H2. cbn in E. rewrite H0, H1, H2 in E. congruence. }
  split.
  { intros b0 b1 b2 H0 H1 H2. cbn in E.
    destruct (tr 0%nat), (tr 1%nat), (tr 2%nat); cbn in H0, H1, H2;
      try discriminate; injection H0 as <-; injection H1 as <-;
      injection H2 as <-; injection E as <- <-; split; reflexivity. }
  repeat (split; [reflexivity|]).
  intros n Hn Hprev Hnl. cbn in E.
  destruct n as [|[|[|n]]]; [| | |lia].
  - rewrite Hnl in E. injection E as <- <-. repeat split; reflexivity.
  - assert (H0 : is_Some (backoff (tr 0%nat))) by (apply Hprev; lia).
    rewrite Hnl in E.
    destruct (tr 0%nat); cbn in H0; try (destruct H0; discriminate);
      injection E as <- <-; repeat split; reflexivity.
  - assert (H0 : is_Some (backoff (tr 0%nat))) by (apply Hprev; lia).
    assert (H1 : is_Some (backoff (tr 1%nat))) by (apply Hprev; lia).
    rewrite Hnl in E.
    destruct (tr 0%nat); cbn in H0; try (destruct H0; discriminate);
      destruct (tr 1%nat); cbn in H1; try (destruct H1; discriminate);
      injection E as <- <-; repeat split; reflexivity.
Qed.

(** The policy on the sample transport: two 429 answers, then the page. *)
Lemma fetch_page_retry_policy_witness :
  exists log,
    fetch_page env_two_429 1 = Some ([sample_coin], log) /\
    (List.length (attempts log) <= 3)%nat.
Proof.
  destruct (fetch_page_retry_policy env_two_429 1)
    as (coins & log & Hf & _ & Hn & H429 & _).
  exists log. rewrite Hf.
  rewrite (H429 [sample_coin] eq_refl eq_refl eq_refl).
  split; [reflexivity|exact Hn].
Defined.

(** ** The ingestion loop *)

Lemma fetch_coin_infos_report (fuel : nat) (max_pages start_page : option Z)
    (e : env) (w : world) (st : run_status) (s' : loop_state) :
  fetch_coin_infos fuel max_pages start_page e w = (st, s') ->
  run_report fuel max_pages e w (resolve_start_page start_page w) st s'.
Proof.
  unfold fetch_coin_infos, initial_state. intros Hrun.
  apply run_loop_spec in Hrun.
  destruct Hrun as (k & Hk & Hrunning & Hf & Hc & Hl & Hw & Hsp & Hss
                    & Hbud & Hfullp & Hcase).
  cbn [current_page fetched_pages last_fetched_page files trace] in *.
  set (p0 := resolve_start_page start_page w) in *.
  exists k. cbn [saved_pages saved_states omap] in Hsp, Hss.
  cbn [list_omap app] in Hsp, Hss.
  split; [lia|]. split; [exact Hc|]. split; [exact Hl|].
  split; [exact Hsp|]. split; [exact Hss|].
  split. { intros q Hq Hok. rewrite Hw. apply process_pages_stored; assumption. }
  split. { intros q Hq. rewrite Hw. apply process_pages_other. exact Hq. }
  split. { intros k' -> Hok. rewrite Hw. apply process_pages_progress. exact Hok. }
  split. { intros ->. exact Hw. }
  split. { intros j Hj. specialize (Hbud j Hj). exact Hbud. }
  split; [exact Hfullp|].
  destruct st as [|[| |]|x]; cbn [stop_case] in Hcase.
  - split; [auto|exact Hcase].
  - exact Hcase.
  - exact Hcase.
  - exact Hcase.
  - exact Hcase.
Qed.

(** C1.  With the first page fetched (one record) and its file not written
    while the progress file is, [fetch_coin_infos] stops with progress at
    page 1 although no page 1 is in the store; the next run starts at
    page 2. *)
Theorem progress_advanced_past_unstored_page :
  exists s' : loop_state,
    fetch_coin_infos 2 None None env_store_fails empty_world
    = (Stopped ShortPage, s') /\
    page_result env_store_fails 1 = [sample_coin] /\
    page_write env_store_fails 1 = WriteErrUntouched /\
    w_pages (files s') !! 1 = None /\
    stored_last_page (files s') = 1 /\
    resolve_start_page None (files s') = 2.
Proof.
  eexists. split; [vm_compute; reflexivity|].
  repeat split; vm_compute; reflexivity.
Qed.

(** The same in general: when the write of the page file is reached and
    fails and the progress file is written, one pass through the loop body
    leaves progress at the page and the page file as it was, or unreadable. *)
Lemma loop_body_advances_without_store (max_pages : option Z) (e : env)
    (s : loop_state) :
  budget_reached max_pages (fetched_pages s) = false ->
  page_result e (current_page s) <> [] ->
  makedirs e (current_page s) = true ->
  page_write e (current_page s) <> WriteOk ->
  state_write e (current_page s) = WriteOk ->
  exists r s',
    loop_body max_pages e s = Some r /\
    (r = Continue s' \/ r = Break ShortPage s') /\
    w_state (files s') = StateDict (Some (JInt (current_page s))) /\
    (w_pages (files s') !! current_page s = w_pages (files s) !! current_page s \/
     w_pages (files s') !! current_page s = Some PageUnreadable).
Proof.
  intros Hb Hne Hmk Hpw Hsw. rewrite loop_body_cases. cbn zeta. rewrite Hb, Hmk.
  destruct (decide (page_result e (current_page s) = [])); [contradiction|].
  destruct (Z.of_nat _ <? PER_PAGE); eexists; eexists;
    (split; [reflexivity|]); (split; [auto|]); cbn [files];
    (split; [apply save_state_ok; exact Hsw|]);
    rewrite save_state_pages; apply save_page_data_failed; exact Hpw.
Qed.

(** C2, as stated, fails: with a short first page stored and the progress
    file not written, the loop stops for the short page and progress is not
    advanced to it. *)
Lemma short_page_progress_not_advanced :
  exists s' : loop_state,
    fetch_coin_infos 2 None None env_progress_fails empty_world
    = (Stopped ShortPage, s') /\
    last_fetched_page s' = 1 /\
    w_pages (files s') !! 1 = Some (PageCoins [sample_coin]) /\
    w_state (files s') = StateMissing /\
    stored_last_page (files s') <> 1.
Proof.
  eexists. split; [vm_compute; reflexivity|].
  repeat split; try (vm_compute; reflexivity). vm_compute. discriminate.
Qed.

(** C2, amended.  A run that started at page [p0] has, when it stands at
    [(st, s')], counted [k] pages, one after the other from [p0], and went on
    exactly while the budget was open, the pages were full and [os.makedirs]
    returned.  It stops in three cases only: (a) the last of the [k] pages is
    not empty and shorter than the page size; (b) the budget is reached; (c)
    the fetch of page [p0 + k] gives no records, and that page is handed
    neither to [save_page_data] nor to [save_state], its file left as it was.
    Otherwise it is left by an exception, that of [os.makedirs] for page
    [p0 + k], which was fetched with records: no call of [save_page_data] or
    [save_state] for that page returned, and its file is as it was.  Each of
    the [k] pages whose file write succeeded is in the store, no other page
    file is touched, and progress is at the last of them when its file write
    and its progress write succeeded.  A stop condition within the fuel ends
    the run, and a run in which [os.makedirs] always returns is left by no
    exception. *)
Theorem ingestion_stop_cases (fuel : nat) (max_pages start_page : option Z)
    (e : env) (w : world) (st : run_status) (s' : loop_state) :
  fetch_coin_infos fuel max_pages start_page e w = (st, s') ->
  let p0 := resolve_start_page start_page w in
  (exists k : nat,
    fetched_pages s' = Z.of_nat k /\
    current_page s' = p0 + Z.of_nat k /\
    last_fetched_page s' = (if decide (k = 0%nat) then 0 else p0 + Z.of_nat k - 1) /\
    (forall j : nat, (j < k)%nat -> budget_reached max_pages (Z.of_nat j) = false) /\
    (forall j : nat, (S j < k)%nat -> full_page e (p0 + Z.of_nat j)) /\
    (forall j : nat, (j < k)%nat -> makedirs e (p0 + Z.of_nat j) = true) /\
    (forall q, p0 <= q < p0 + Z.of_nat k -> page_write e q = WriteOk ->
       w_pages (files s') !! q = Some (PageCoins (page_result e q))) /\
    (forall q, ~ (p0 <= q < p0 + Z.of_nat k) ->
       w_pages (files s') !! q = w_pages w !! q) /\
    (forall k' : nat, k = S k' ->
       page_write e (p0 + Z.of_nat k') = WriteOk ->
       state_write e (p0 + Z.of_nat k') = WriteOk ->
       stored_last_page (files s') = p0 + Z.of_nat k') /\
    (k = 0%nat -> files s' = w) /\
    match st with
    | Stopped ShortPage =>
        exists k' : nat, k = S k' /\ short_page e (p0 + Z.of_nat k')
    | Stopped BudgetReached =>
        budget_reached max_pages (Z.of_nat k) = true /\
        forall j : nat, (j < k)%nat -> full_page e (p0 + Z.of_nat j)
    | Stopped NoData =>
        budget_reached max_pages (Z.of_nat k) = false /\
        no_data e (p0 + Z.of_nat k) /\
        (p0 + Z.of_nat k ∉ saved_pages (trace s')) /\
        (p0 + Z.of_nat k ∉ saved_states (trace s')) /\
        forall j : nat, (j < k)%nat -> full_page e (p0 + Z.of_nat j)
    | Raised x =>
        x = OSError /\
        budget_reached max_pages (Z.of_nat k) = false /\
        page_result e (p0 + Z.of_nat k) <> [] /\
        makedirs e (p0 + Z.of_nat k) = false /\
        (p0 + Z.of_nat k ∉ saved_pages (trace s')) /\
        (p0 + Z.of_nat k ∉ saved_states (trace s')) /\
        forall j : nat, (j < k)%nat -> full_page e (p0 + Z.of_nat j)
    | Running =>
        k = fuel /\
        forall j : nat, (j < k)%nat -> full_page e (p0 + Z.of_nat j)
    end) /\
  (forall j : nat,
     (j < fuel)%nat ->
     budget_reached max_pages (Z.of_nat j) = true \/
     ~ full_page e (p0 + Z.of_nat j) \/
     makedirs e (p0 + Z.of_nat j) = false ->
     st <> Running) /\
  ((forall q, makedirs e q = true) -> forall x, st <> Raised x).
Proof.
  intros Hrun p0.
  pose proof (fetch_coin_infos_report _ _ _ _ _ _ _ Hrun) as Hrep.
  fold p0 in Hrep.
  destruct Hrep as (k & Hf & Hc & Hl & Hsp & Hss & Hstored & Hother & Hprog
                    & Hnone & Hbud & Hfullp & Hcase).
  assert (Hmk : forall j : nat, (j < k)%nat -> makedirs e (p0 + Z.of_nat j) = true).
  { intros j Hj. unfold fetch_coin_infos in Hrun.
    apply (run_loop_makedirs _ _ _ _ _ _ Hrun).
    cbn [initial_state current_page]. fold p0. lia. }
  split; [|split].
  - exists k. repeat (split; [assumption|]).
    split.
    { intros k' -> _ Hok. unfold stored_last_page, load_state.
      rewrite (Hprog k' eq_refl Hok). reflexivity. }
    split; [exact Hnone|].
    destruct st as [|[| |]|x]; try exact Hcase.
    + destruct Hcase as (Hb & Hno & Hall).
      rewrite Hsp, Hss, !elem_of_seqZ.
      repeat split; try assumption; lia.
    + destruct Hcase as (Hx & Hb & Hne & Hraise & Hall).
      rewrite Hsp, Hss, !elem_of_seqZ.
      repeat split; try assumption; lia.
  - intros j Hj Hstop ->. destruct Hcase as (-> & Hall).
    destruct Hstop as [Hb|[Hnf|Hraise]].
    + rewrite (Hbud j Hj) in Hb. discriminate.
    + apply Hnf. apply Hall. exact Hj.
    + rewrite (Hmk j Hj) in Hraise. discriminate.
  - intros Hall x ->. destruct Hcase as (_ & _ & _ & Hraise & _).
    rewrite Hall in Hraise. discriminate.
Qed.

(** The amended claim on the sample run in which the progress file is not
    written: the run stops for the short page 1, which is in the store. *)
Lemma ingestion_stop_cases_witness :
  let r := fetch_coin_infos 2 None None env_progress_fails empty_world in
  fst r = Stopped ShortPage /\
  w_pages (files (snd r)) !! 1 = Some (PageCoins (page_result env_progress_fails 1)).
Proof.
  intros r.
  pose proof (ingestion_stop_cases 2 None None env_progress_fails empty_world
                (fst r) (snd r) (surjective_pairing r))
    as ((k & _ & Hc & _ & _ & _ & _ & Hstored & _) & _).
  split; [vm_compute; reflexivity|].
  apply Hstored; [|reflexivity].
  change (resolve_start_page None empty_world) with 1 in *.
  assert (Hcur : current_page (snd r) = 2) by (vm_compute; reflexivity).
  lia.
Defined.

(** A run on full pages in which [os.makedirs] raises when page 3 is to be
    stored: the exception leaves [fetch_coin_infos] after two pages, page 3
    fetched and not stored, progress at page 2. *)
Lemma makedirs_failure_ends_run :
  exists s' : loop_state,
    fetch_coin_infos 5 None None env_makedirs_fails_at_3 empty_world
    = (Raised OSError, s') /\
    fetched_pages s' = 2 /\
    current_page s' = 3 /\
    List.length (page_result env_makedirs_fails_at_3 3) = 250%nat /\
    w_pages (files s') !! 3 = None /\
    stored_last_page (files s') = 2.
Proof.
  eexists. split; [vm_compute; reflexivity|].
  repeat split; vm_compute; reflexivity.
Qed.

(** ** Start page and resume *)

(** C9, as stated, fails: an override of 0 is given, progress is at page 5,
    and fetching begins at page 6. *)
Lemma override_zero_is_ignored :
  resolve_start_page (Some 0) world_at_5 = 6 /\
  resolve_start_page (Some 0) world_at_5 <> 0 /\
  head (trace (snd (fetch_coin_infos 1 None (Some 0) env_one_record world_at_5)))
  = Some (EvGet 6 0).
Proof. repeat split; vm_compute; congruence. Qed.

(** C9, amended.  An override greater than 0 is the page fetching begins at,
    whatever the progress file holds; without an override, or with one that is
    0 or negative, fetching begins one page after the stored last page when
    that is not negative, and at page 1 when it is negative or no progress
    file exists.  Unless the budget is used up at once, the first event of
    the run is the first request for that page, and every event of the run is
    about that page or a later one. *)
Theorem start_page_resolution (fuel : nat) (max_pages start_page : option Z)
    (e : env) (w : world) :
  let p0 := resolve_start_page start_page w in
  let s' := snd (fetch_coin_infos (S fuel) max_pages start_page e w) in
  (forall p, start_page = Some p -> 0 < p -> p0 = p) /\
  (start_page = None \/ (exists p, start_page = Some p /\ p <= 0) ->
     (0 <= stored_last_page w -> p0 = stored_last_page w + 1) /\
     (stored_last_page w < 0 -> p0 = 1) /\
     (w_state w = StateMissing -> p0 = 1)) /\
  (budget_reached max_pages 0 = false ->
     exists rest, trace s' = EvGet p0 0 :: rest) /\
  Forall (fun ev => forall q, event_page ev = Some q -> p0 <= q) (trace s').
Proof.
  cbn zeta. split.
  { intros p -> Hp. unfold resolve_start_page.
    destruct (Z.ltb_spec 0 p); [reflexivity|lia]. }
  split.
  { intros Hno.
    assert (Hres : resolve_start_page start_page w = resume_page w).
    { destruct Hno as [->|(p & -> & Hp)]; [reflexivity|].
      unfold resolve_start_page. destruct (Z.ltb_spec 0 p); [lia|reflexivity]. }
    rewrite Hres. unfold resume_page.
    repeat split.
    - intros H. destruct (Z.leb_spec 0 (stored_last_page w)); [reflexivity|lia].
    - intros H. destruct (Z.leb_spec 0 (stored_last_page w)); [lia|reflexivity].
    - intros H. unfold stored_last_page, load_state. rewrite H. reflexivity. }
  destruct (fetch_coin_infos (S fuel) max_pages start_page e w) as [st s'] eqn:E.
  unfold fetch_coin_infos in E. apply run_loop_trace in E.
  destruct E as (new & Htr & Hall & Hhead). cbn in Htr, Hall, Hhead. cbn [snd].
  rewrite Htr. split.
  - intros Hb. apply Hhead; [lia|exact Hb].
  - exact Hall.
Qed.

(** The amended claim on the sample files: an override of 3 begins at page 3
    although progress is at page 5, and no override begins at page 6. *)
Lemma start_page_resolution_witness :
  resolve_start_page (Some 3) world_at_5 = 3 /\
  resolve_start_page None world_at_5 = 6.
Proof.
  split.
  - exact (proj1 (start_page_resolution 0 None (Some 3) env_one_record world_at_5)
             3 eq_refl eq_refl).
  - apply (proj1 (proj2 (start_page_resolution 0 None None env_one_record
                           world_at_5))).
    + left. reflexivity.
    + vm_compute. discriminate.
Defined.

(** C3, as stated, fails: the first run fetches page 1 and stores it, the
    progress file is not written; the run after the restart, without
    override, begins at page 1 and stores page 1 again. *)
Lemma resume_without_progress_write :
  let r1 := fetch_coin_infos 2 None None env_progress_fails empty_world in
  let r2 := fetch_coin_infos 2 None None env_one_record (files (snd r1)) in
  fst r1 = Stopped ShortPage /\
  last_fetched_page (snd r1) = 1 /\
  w_pages (files (snd r1)) !! 1 = Some (PageCoins [sample_coin]) /\
  current_page (initial_state None (files (snd r1))) = 1 /\
  head (trace (snd r2)) = Some (EvGet 1 0) /\
  saved_pages (trace (snd r2)) = [1].
Proof. repeat split; vm_compute; reflexivity. Qed.

(** C3, amended.  When a run has fetched and stored pages up to page
    [N >= 1], the page file and the progress file of page [N] written, the
    files it leaves hold page [N] and progress [N]; a later run on these
    files without an override starts at page [N + 1], every event of it is
    about page [N + 1] or a later page, and page [N] is not handed to
    [save_page_data] again. *)
Theorem resume_after_restart (N : Z)
    (fuel1 : nat) (max1 start1 : option Z) (e1 : env) (w : world)
    (st1 : run_status) (s1 : loop_state)
    (fuel2 : nat) (max2 : option Z) (e2 : env)
    (st2 : run_status) (s2 : loop_state) :
  1 <= N ->
  fetch_coin_infos fuel1 max1 start1 e1 w = (st1, s1) ->
  last_fetched_page s1 = N ->
  page_write e1 N = WriteOk ->
  state_write e1 N = WriteOk ->
  fetch_coin_infos fuel2 max2 None e2 (files s1) = (st2, s2) ->
  w_pages (files s1) !! N = Some (PageCoins (page_result e1 N)) /\
  page_result e1 N <> [] /\
  stored_last_page (files s1) = N /\
  current_page (initial_state None (files s1)) = N + 1 /\
  ((0 < fuel2)%nat -> budget_reached max2 0 = false ->
     exists rest, trace s2 = EvGet (N + 1) 0 :: rest) /\
  Forall (fun ev => forall q, event_page ev = Some q -> N + 1 <= q) (trace s2) /\
  (N ∉ saved_pages (trace s2)) /\
  (forall q, q <= N -> w_pages (files s2) !! q = w_pages (files s1) !! q).
Proof.
  intros HN Hrun1 Hlast Hpw Hsw Hrun2.
  pose proof (fetch_coin_infos_report _ _ _ _ _ _ _ Hrun1) as Hrep1.
  destruct Hrep1 as (k & Hf & Hc & Hl & Hsp & Hss & Hstored & Hother & Hprog
                     & Hnone & Hbud & Hfullp & Hcase).
  set (p0 := resolve_start_page start1 w) in *.
  destruct (decide (k = 0%nat)) as [->|Hk0]; [lia|].
  destruct k as [|k]; [lia|].
  assert (HNk : N = p0 + Z.of_nat k) by lia.
  assert (Hstate : w_state (files s1) = StateDict (Some (JInt N))).
  { rewrite HNk. apply (Hprog k eq_refl). rewrite <- HNk. exact Hsw. }
  assert (Hslp : stored_last_page (files s1) = N).
  { unfold stored_last_page, load_state. rewrite Hstate. reflexivity. }
  assert (Hstart : resolve_start_page None (files s1) = N + 1).
  { unfold resolve_start_page, resume_page. rewrite Hslp.
    destruct (Z.leb_spec 0 N); [reflexivity|lia]. }
  split. { apply Hstored; [lia|exact Hpw]. }
  split.
  { assert (Hb : budget_reached max1 (Z.of_nat k) = false) by (apply Hbud; lia).
    destruct st1 as [|[| |]|x].
    - destruct Hcase as (_ & Hall). specialize (Hall k).
      unfold full_page, PER_PAGE in Hall. rewrite <- HNk in Hall.
      intros Hnil. rewrite Hnil in Hall. cbn in Hall. lia.
    - destruct Hcase as (_ & Hall). specialize (Hall k).
      unfold full_page, PER_PAGE in Hall. rewrite <- HNk in Hall.
      intros Hnil. rewrite Hnil in Hall. cbn in Hall. lia.
    - destruct Hcase as (_ & _ & Hall). specialize (Hall k).
      unfold full_page, PER_PAGE in Hall. rewrite <- HNk in Hall.
      intros Hnil. rewrite Hnil in Hall. cbn in Hall. lia.
    - destruct Hcase as (k' & Hk' & Hs & _). injection Hk' as <-.
      rewrite <- HNk in Hs. exact Hs.
    - destruct Hcase as (_ & _ & _ & _ & Hall). specialize (Hall k).
      unfold full_page, PER_PAGE in Hall. rewrite <- HNk in Hall.
      intros Hnil. rewrite Hnil in Hall. cbn in Hall. lia. }
  split; [exact Hslp|]. split; [exact Hstart|].
  pose proof (fetch_coin_infos_report _ _ _ _ _ _ _ Hrun2) as Hrep2.
  rewrite Hstart in Hrep2.
  destruct Hrep2 as (k2 & _ & _ & _ & Hsp2 & _ & _ & Hother2 & _).
  unfold fetch_coin_infos in Hrun2. apply run_loop_trace in Hrun2.
  destruct Hrun2 as (new & Htr & Hall & Hhead).
  cbn [initial_state current_page fetched_pages trace app] in Htr, Hall, Hhead.
  rewrite Hstart in Hall, Hhead. rewrite Htr.
  split; [exact Hhead|]. split; [exact Hall|].
  split.
  - rewrite <- Htr, Hsp2, elem_of_seqZ. lia.
  - intros q Hq. apply Hother2. lia.
Qed.

(** Resuming on the sample data: the first run stores page 1, the second
    starts at page 2. *)
Lemma resume_after_restart_witness :
  let r1 := fetch_coin_infos 2 None None env_one_record empty_world in
  let r2 := fetch_coin_infos 2 None None env_one_record (files (snd r1)) in
  stored_last_page (files (snd r1)) = 1 /\
  current_page (initial_state None (files (snd r1))) = 2 /\
  (1 ∉ saved_pages (trace (snd r2))).
Proof.
  intros r1 r2.
  pose proof (resume_after_restart 1 2 None None env_one_record empty_world
                (fst r1) (snd r1) 2 None env_one_record (fst r2) (snd r2)
                ltac:(lia) (surjective_pairing r1) eq_refl eq_refl eq_refl
                (surjective_pairing r2))
    as (_ & _ & H1 & H2 & _ & _ & H3 & _).
  repeat split; assumption.
Defined.

(** * Properties of select_coin.py *)

(** ** Numbers and strings *)

Lemma Qlt_bool_iff (x y : Q) : Qlt_bool x y = true <-> (x < y)%Q.
Proof.
  unfold Qlt_bool. rewrite negb_true_iff, <- not_true_iff_false, Qle_bool_iff.
  split; [apply Qnot_le_lt|apply Qlt_not_le].
Qed.

Lemma Qlt_bool_false (x y : Q) : Qlt_bool x y = false <-> (y <= x)%Q.
Proof.
  unfold Qlt_bool. rewrite negb_false_iff. apply Qle_bool_iff.
Qed.

Lemma append_cons (c : ascii) (s t : string) :
  (String c s ++ t)%string = String c (s ++ t)%string.
Proof. reflexivity. Qed.

Lemma prefix_app (n h : string) :
  String.prefix n h = true <-> exists post, h = (n ++ post)%string.
Proof.
  revert h. induction n as [|c n IH]; intros h.
  - split; [intros _; exists h; reflexivity|intros _; destruct h; reflexivity].
  - destruct h as [|c' h]; cbn.
    + split; [discriminate|intros [post H]; discriminate].
    + destruct (ascii_dec c c') as [->|Hne].
      * rewrite IH. split; intros [post H]; exists post;
          rewrite append_cons in *; congruence.
      * split; [discriminate|intros [post H]].
        rewrite append_cons in H. congruence.
Qed.

(** [str_in] is the substring test. *)
Lemma str_in_spec (n h : string) :
  str_in n h = true <-> exists pre post, h = (pre ++ n ++ post)%string.
Proof.
  induction h as [|c h IH]; cbn [str_in].
  - rewrite prefix_app. split.
    + intros [post H]. exists EmptyString, post. exact H.
    + intros (pre & post & H). destruct pre; [exists post; exact H|].
      rewrite append_cons in H. discriminate.
  - rewrite orb_true_iff, prefix_app, IH. split.
    + intros [[post H]|(pre & post & ->)].
      * exists EmptyString, post. exact H.
      * exists (String c pre), post. reflexivity.
    + intros (pre & post & H). destruct pre as [|c' pre].
      * left. exists post. exact H.
      * right. rewrite append_cons in H. injection H as -> ->.
        exists pre, post. reflexivity.
Qed.

(** A string that contains USDT contains USD. *)
Lemma str_in_usdt_usd (s : string) :
  str_in "USDT" s = true -> str_in "USD" s = true.
Proof.
  rewrite !str_in_spec. intros (pre & post & ->).
  exists pre, ("T" ++ post)%string. reflexivity.
Qed.

(** ** Binary64 rounding *)

Section Rounding.

Local Open Scope Q_scope.

Lemma pow2_pos (k : Z) : 0 < pow2 k.
Proof. apply Qpower_0_lt. reflexivity. Qed.

Lemma pow2_add (a b : Z) : pow2 (a + b) == pow2 a * pow2 b.
Proof. apply Qpower_plus. discriminate. Qed.

Lemma pow2_le (a b : Z) : (a <= b)%Z -> pow2 a <= pow2 b.
Proof. intros H. apply Qpower_le_compat_l; [exact H|discriminate]. Qed.

Lemma pow2_lt (a b : Z) : (a < b)%Z -> pow2 a < pow2 b.
Proof. intros H. apply Qpower_lt_compat_l; [exact H|reflexivity]. Qed.

Lemma pow2_lt_inv (a b : Z) : pow2 a < pow2 b -> (a < b)%Z.
Proof. intros H. apply (Qpower_lt_compat_l_inv 2); [exact H|reflexivity]. Qed.

Lemma pow2_Z (k : Z) : (0 <= k)%Z -> pow2 k == inject_Z (2 ^ k).
Proof. intros H. unfold pow2. rewrite Zpower_Qpower by exact H. reflexivity. Qed.

(** [ilog2 q] is the binary exponent of a positive [q]. *)
Lemma ilog2_spec (q : Q) :
  0 < q -> pow2 (ilog2 q) <= q /\ q < pow2 (ilog2 q + 1).
Proof.
  intros Hq. unfold ilog2.
  destruct q as [n d]. cbn [Qnum Qden].
  assert (Hn : (0 < n)%Z) by (unfold Qlt in Hq; cbn in Hq; lia).
  set (ln := Z.log2 n). set (ld := Z.log2 (Z.pos d)).
  destruct (Z.log2_spec n Hn) as [Hn1 Hn2]. fold ln in Hn1, Hn2.
  destruct (Z.log2_spec (Z.pos d) ltac:(lia)) as [Hd1 Hd2]. fold ld in Hd1, Hd2.
  assert (Hln : (0 <= ln)%Z) by apply Z.log2_nonneg.
  assert (Hld : (0 <= ld)%Z) by apply Z.log2_nonneg.
  assert (Hq' : n # d == inject_Z n / inject_Z (Z.pos d)) by apply Qmake_Qdiv.
  assert (Hdpos : 0 < inject_Z (Z.pos d)) by reflexivity.
  assert (Hlo : pow2 (ln - ld - 1) <= n # d).
  { rewrite Hq'. apply Qle_shift_div_l; [exact Hdpos|].
    apply Qle_trans with (pow2 (ln - ld - 1) * pow2 (ld + 1)).
    - apply Qmult_le_l; [apply pow2_pos|].
      rewrite pow2_Z by lia. rewrite <- Zle_Qle. lia.
    - rewrite <- pow2_add. replace (ln - ld - 1 + (ld + 1))%Z with ln by lia.
      rewrite pow2_Z by lia. rewrite <- Zle_Qle. exact Hn1. }
  assert (Hhi : n # d < pow2 (ln - ld + 1)).
  { rewrite Hq'. apply Qlt_shift_div_r; [exact Hdpos|].
    apply Qlt_le_trans with (pow2 (ln + 1)).
    - rewrite pow2_Z by lia. rewrite <- Zlt_Qlt.
      replace (ln + 1)%Z with (Z.succ ln) by lia. exact Hn2.
    - replace (ln + 1)%Z with (ln - ld + 1 + ld)%Z by lia. rewrite pow2_add.
      apply Qmult_le_l; [apply pow2_pos|].
      rewrite pow2_Z by lia. rewrite <- Zle_Qle. exact Hd1. }
  destruct (Qle_bool (pow2 (ln - ld)) (n # d)) eqn:E.
  - apply Qle_bool_iff in E. split; assumption.
  - split; [exact Hlo|].
    replace (ln - ld - 1 + 1)%Z with (ln - ld)%Z by lia.
    apply Qnot_le_lt. intros H. apply Qle_bool_iff in H. congruence.
Qed.

Lemma ilog2_unique (q : Q) (e : Z) :
  pow2 e <= q -> q < pow2 (e + 1) -> ilog2 q = e.
Proof.
  intros H1 H2.
  assert (Hq : 0 < q) by (eapply Qlt_le_trans; [apply pow2_pos|exact H1]).
  destruct (ilog2_spec q Hq) as [H3 H4].
  assert (e < ilog2 q + 1)%Z
    by (apply pow2_lt_inv; eapply Qle_lt_trans; eassumption).
  assert (ilog2 q < e + 1)%Z
    by (apply pow2_lt_inv; eapply Qle_lt_trans; eassumption).
  lia.
Qed.

Lemma ilog2_mono (q1 q2 : Q) : 0 < q1 -> q1 <= q2 -> (ilog2 q1 <= ilog2 q2)%Z.
Proof.
  intros H1 H12.
  assert (H2 : 0 < q2) by (eapply Qlt_le_trans; eassumption).
  destruct (ilog2_spec q1 H1) as [Ha _]. destruct (ilog2_spec q2 H2) as [_ Hb].
  assert (ilog2 q1 < ilog2 q2 + 1)%Z; [|lia].
  apply pow2_lt_inv. eapply Qle_lt_trans; [exact Ha|].
  eapply Qle_lt_trans; eassumption.
Qed.

Lemma ilog2_comp (q1 q2 : Q) : 0 < q1 -> q1 == q2 -> ilog2 q1 = ilog2 q2.
Proof.
  intros H1 H12. symmetry.
  destruct (ilog2_spec q1 H1) as [Ha Hb].
  apply ilog2_unique; rewrite <- H12; assumption.
Qed.

(** Rounding to the nearest integer, ties to even. *)
Lemma rne_bounds (x : Q) : (Qfloor x <= rne x <= Qfloor x + 1)%Z.
Proof.
  unfold rne. destruct (x - inject_Z (Qfloor x) ?= 1 # 2);
    [destruct (Z.even (Qfloor x))| |]; lia.
Qed.

Lemma rne_comp (x y : Q) : x == y -> rne x = rne y.
Proof.
  intros H. unfold rne. rewrite (Qfloor_comp _ _ H).
  assert (Hc : (x - inject_Z (Qfloor y) ?= 1 # 2)
               = (y - inject_Z (Qfloor y) ?= 1 # 2)).
  { apply Qcompare_comp; [|reflexivity]. rewrite H. reflexivity. }
  rewrite Hc. reflexivity.
Qed.

Lemma rne_Z (n : Z) : rne (inject_Z n) = n.
Proof.
  unfold rne. rewrite Qfloor_Z.
  assert (H : (inject_Z n - inject_Z n ?= 1 # 2) = Lt).
  { apply (proj1 (Qlt_alt _ _)). lra. }
  rewrite H. reflexivity.
Qed.

Lemma rne_mono (x y : Q) : x <= y -> (rne x <= rne y)%Z.
Proof.
  intros Hxy.
  pose proof (Qfloor_resp_le _ _ Hxy) as Hf.
  pose proof (rne_bounds x) as Hx. pose proof (rne_bounds y) as Hy.
  destruct (Z.eq_dec (Qfloor x) (Qfloor y)) as [Heq|Hne]; [|lia].
  unfold rne in *. rewrite Heq in *.
  set (f := Qfloor y) in *.
  destruct (x - inject_Z f ?= 1 # 2) eqn:Ex;
    destruct (y - inject_Z f ?= 1 # 2) eqn:Ey;
    try (destruct (Z.even f)); try lia; exfalso;
    repeat match goal with
           | H : (_ ?= _) = Eq |- _ => apply (proj2 (Qeq_alt _ _)) in H
           | H : (_ ?= _) = Lt |- _ => apply (proj2 (Qlt_alt _ _)) in H
           | H : (_ ?= _) = Gt |- _ => apply (proj2 (Qgt_alt _ _)) in H
           end; lra.
Qed.

Lemma rne_nonneg (x : Q) : 0 <= x -> (0 <= rne x)%Z.
Proof. intros H. rewrite <- (rne_Z 0). apply rne_mono. exact H. Qed.

(** The rounding of a magnitude. *)
Lemma ulp_exponent_min (q : Q) : (-1074 <= ulp_exponent q)%Z.
Proof. unfold ulp_exponent. lia. Qed.

Lemma round_mag_zero (q : Q) : q == 0 -> round_mag q == 0.
Proof.
  intros H. unfold round_mag.
  assert (Hr : rne (q / pow2 (ulp_exponent q)) = 0%Z).
  { rewrite <- (rne_Z 0). apply rne_comp. unfold Qdiv.
    generalize (/ pow2 (ulp_exponent q)). intros r. rewrite H.
    apply Qmult_0_l. }
  rewrite Hr. apply Qmult_0_l.
Qed.

Lemma round_mag_nonneg (q : Q) : 0 <= q -> 0 <= round_mag q.
Proof.
  intros H. unfold round_mag.
  apply Qmult_le_0_compat; [|apply Qlt_le_weak, pow2_pos].
  change 0 with (inject_Z 0). rewrite <- Zle_Qle. apply rne_nonneg.
  apply Qle_shift_div_l; [apply pow2_pos|]. rewrite Qmult_0_l. exact H.
Qed.

Lemma ulp_exponent_comp (q1 q2 : Q) :
  0 < q1 -> q1 == q2 -> ulp_exponent q1 = ulp_exponent q2.
Proof.
  intros H1 H12. unfold ulp_exponent. rewrite (ilog2_comp q1 q2 H1 H12).
  reflexivity.
Qed.

Lemma round_mag_comp (q1 q2 : Q) :
  0 <= q1 -> q1 == q2 -> round_mag q1 == round_mag q2.
Proof.
  intros H1 H12.
  destruct (Qlt_le_dec 0 q1) as [Hpos|Hzero].
  - unfold round_mag. rewrite (ulp_exponent_comp q1 q2 Hpos H12).
    assert (Hr : rne (q1 / pow2 (ulp_exponent q2))
                 = rne (q2 / pow2 (ulp_exponent q2))).
    { apply rne_comp. rewrite H12. reflexivity. }
    rewrite Hr. reflexivity.
  - assert (Hz : q1 == 0) by (apply Qle_antisym; assumption).
    rewrite (round_mag_zero q1 Hz).
    rewrite (round_mag_zero q2); [reflexivity|]. rewrite <- H12. exact Hz.
Qed.

(** A quotient by a power of two. *)
Lemma div_pow2_le (q : Q) (e k : Z) :
  q <= pow2 (e + k) -> q / pow2 e <= pow2 k.
Proof.
  intros H. apply Qle_shift_div_r; [apply pow2_pos|].
  rewrite <- pow2_add. replace (k + e)%Z with (e + k)%Z by lia. exact H.
Qed.

Lemma div_pow2_ge (q : Q) (e k : Z) :
  pow2 (e + k) <= q -> pow2 k <= q / pow2 e.
Proof.
  intros H. apply Qle_shift_div_l; [apply pow2_pos|].
  rewrite <- pow2_add. replace (k + e)%Z with (e + k)%Z by lia. exact H.
Qed.

(** The rounded magnitude stays within the binade of [q], its upper end
    included. *)
Lemma round_mag_le_binade (q : Q) :
  0 < q -> round_mag q <= pow2 (ulp_exponent q + 53).
Proof.
  intros Hq. unfold round_mag.
  set (e := ulp_exponent q).
  destruct (ilog2_spec q Hq) as [_ Hhi].
  assert (Hq53 : q <= pow2 (e + 53)).
  { apply Qlt_le_weak. eapply Qlt_le_trans; [exact Hhi|].
    apply pow2_le. unfold e, ulp_exponent. lia. }
  assert (Hn : (rne (q / pow2 e) <= 2 ^ 53)%Z).
  { rewrite <- (rne_Z (2 ^ 53)). apply rne_mono.
    rewrite <- pow2_Z by lia. apply div_pow2_le. exact Hq53. }
  apply Qle_trans with (inject_Z (2 ^ 53) * pow2 e).
  - apply Qmult_le_compat_r; [|apply Qlt_le_weak, pow2_pos].
    rewrite <- Zle_Qle. exact Hn.
  - rewrite <- pow2_Z by lia. rewrite <- pow2_add.
    replace (53 + e)%Z with (e + 53)%Z by lia. apply Qle_refl.
Qed.

Lemma round_mag_ge_binade (q : Q) :
  0 < q -> (-1022 <= ilog2 q)%Z -> pow2 (ilog2 q) <= round_mag q.
Proof.
  intros Hq Hnormal. unfold round_mag.
  assert (He : ulp_exponent q = (ilog2 q - 52)%Z)
    by (unfold ulp_exponent; lia).
  rewrite He. set (e := (ilog2 q - 52)%Z).
  destruct (ilog2_spec q Hq) as [Hlo _].
  assert (Hn : (2 ^ 52 <= rne (q / pow2 e))%Z).
  { rewrite <- (rne_Z (2 ^ 52)). apply rne_mono.
    rewrite <- pow2_Z by lia. apply div_pow2_ge.
    replace (e + 52)%Z with (ilog2 q) by (unfold e; lia). exact Hlo. }
  apply Qle_trans with (inject_Z (2 ^ 52) * pow2 e).
  - rewrite <- pow2_Z by lia. rewrite <- pow2_add.
    replace (52 + e)%Z with (ilog2 q) by (unfold e; lia). apply Qle_refl.
  - apply Qmult_le_compat_r; [|apply Qlt_le_weak, pow2_pos].
    rewrite <- Zle_Qle. exact Hn.
Qed.

(** Rounding is monotone. *)
Lemma round_mag_mono (q1 q2 : Q) :
  0 <= q1 -> q1 <= q2 -> round_mag q1 <= round_mag q2.
Proof.
  intros H1 H12.
  assert (H2 : 0 <= q2) by (eapply Qle_trans; eassumption).
  destruct (Qlt_le_dec 0 q1) as [Hpos|Hzero].
  2:{ rewrite (round_mag_zero q1) by (apply Qle_antisym; assumption).
      apply round_mag_nonneg. exact H2. }
  assert (Hpos2 : 0 < q2) by (eapply Qlt_le_trans; eassumption).
  pose proof (ilog2_mono q1 q2 Hpos H12) as Hlog.
  destruct (Z.eq_dec (ulp_exponent q1) (ulp_exponent q2)) as [Heq|Hne].
  - unfold round_mag. rewrite Heq.
    apply Qmult_le_compat_r; [|apply Qlt_le_weak, pow2_pos].
    rewrite <- Zle_Qle. apply rne_mono.
    apply Qmult_le_compat_r; [exact H12|].
    apply Qlt_le_weak, Qinv_lt_0_compat, pow2_pos.
  - assert (Hlt : (ulp_exponent q1 < ulp_exponent q2)%Z)
      by (unfold ulp_exponent in *; lia).
    assert (Hnormal : (-1022 <= ilog2 q2)%Z)
      by (unfold ulp_exponent in *; lia).
    apply Qle_trans with (pow2 (ilog2 q2)).
    + eapply Qle_trans; [apply round_mag_le_binade; exact Hpos|].
      apply pow2_le. unfold ulp_exponent in *. lia.
    + apply round_mag_ge_binade; assumption.
Qed.

(** A number of at most 53 bits times a power of two within the exponent
    range is a float: rounding leaves it as it is. *)
Lemma round_mag_representable (n e : Z) :
  (0 <= n < 2 ^ 53)%Z -> (-1074 <= e)%Z ->
  round_mag (inject_Z n * pow2 e) == inject_Z n * pow2 e.
Proof.
  intros Hn He.
  destruct (Z.eq_dec n 0%Z) as [->|Hn0].
  { rewrite round_mag_zero by apply Qmult_0_l. rewrite Qmult_0_l. reflexivity. }
  set (v := inject_Z n * pow2 e).
  assert (Hv : 0 < v).
  { unfold v. apply Qmult_lt_0_compat; [|apply pow2_pos].
    change 0 with (inject_Z 0). rewrite <- Zlt_Qlt. lia. }
  assert (Hlog : (ilog2 v < e + 53)%Z).
  { destruct (ilog2_spec v Hv) as [Hlo _].
    apply pow2_lt_inv. eapply Qle_lt_trans; [exact Hlo|].
    unfold v. replace (e + 53)%Z with (53 + e)%Z by lia. rewrite pow2_add.
    apply Qmult_lt_compat_r; [apply pow2_pos|].
    rewrite pow2_Z by lia. rewrite <- Zlt_Qlt. lia. }
  unfold round_mag. fold v. set (e' := ulp_exponent v).
  assert (He' : (e' <= e)%Z) by (unfold e', ulp_exponent; lia).
  assert (Hdiv : v / pow2 e' == inject_Z (n * 2 ^ (e - e'))).
  { unfold v. rewrite inject_Z_mult, <- pow2_Z by lia.
    replace e with (e - e' + e')%Z at 1 by lia. rewrite pow2_add.
    field. apply Qnot_eq_sym, Qlt_not_eq, pow2_pos. }
  rewrite (rne_comp _ _ Hdiv), rne_Z.
  rewrite inject_Z_mult, <- pow2_Z by lia.
  unfold v. rewrite <- Qmult_assoc, <- pow2_add.
  replace (e - e' + e')%Z with e by lia. reflexivity.
Qed.

Lemma round_mag_output (q : Q) :
  0 <= q ->
  exists n e : Z,
    (0 <= n < 2 ^ 53)%Z /\ (-1074 <= e)%Z /\
    round_mag q == inject_Z n * pow2 e.
Proof.
  intros Hq.
  destruct (Qlt_le_dec 0 q) as [Hpos|Hzero].
  2:{ exists 0%Z, 0%Z. split; [lia|]. split; [lia|].
      rewrite Qmult_0_l. apply round_mag_zero. apply Qle_antisym; assumption. }
  pose proof (ulp_exponent_min q) as Hmin.
  set (e := ulp_exponent q) in *.
  set (n := rne (q / pow2 e)).
  assert (Hn0 : (0 <= n)%Z).
  { apply rne_nonneg. apply Qle_shift_div_l; [apply pow2_pos|].
    rewrite Qmult_0_l. exact Hq. }
  assert (Hn53 : (n <= 2 ^ 53)%Z).
  { unfold n. rewrite <- (rne_Z (2 ^ 53)). apply rne_mono.
    rewrite <- pow2_Z by lia. apply div_pow2_le.
    destruct (ilog2_spec q Hpos) as [_ Hhi].
    apply Qlt_le_weak. eapply Qlt_le_trans; [exact Hhi|].
    apply pow2_le. unfold e, ulp_exponent. lia. }
  destruct (Z.eq_dec n (2 ^ 53)%Z) as [Htop|Hlow].
  - exists (2 ^ 52)%Z, (e + 1)%Z. split; [lia|]. split; [lia|].
    unfold round_mag. fold e. fold n. rewrite Htop.
    rewrite <- !pow2_Z by lia. rewrite <- !pow2_add.
    replace (52 + (e + 1))%Z with (53 + e)%Z by lia. reflexivity.
  - exists n, e. split; [lia|]. split; [exact Hmin|]. reflexivity.
Qed.

Lemma round_mag_idempotent (q : Q) :
  0 <= q -> round_mag (round_mag q) == round_mag q.
Proof.
  intros Hq. destruct (round_mag_output q Hq) as (n & e & Hn & He & Hv).
  rewrite (round_mag_comp _ _ (round_mag_nonneg q Hq) Hv).
  rewrite round_mag_representable by assumption.
  symmetry. exact Hv.
Qed.

(** *** [round64] *)

Lemma round64_comp (q1 q2 : Q) : q1 == q2 -> round64 q1 = round64 q2.
Proof.
  intros H. unfold round64.
  assert (Hm : round_mag (Qabs q1) == round_mag (Qabs q2)).
  { apply round_mag_comp; [apply Qabs_nonneg|]. rewrite H. reflexivity. }
  set (m1 := round_mag (Qabs q1)) in *. set (m2 := round_mag (Qabs q2)) in *.
  assert (Ho : Qle_bool (pow2 1024) m1 = Qle_bool (pow2 1024) m2).
  { apply eq_true_iff_eq. rewrite !Qle_bool_iff, Hm. reflexivity. }
  assert (Hs : Qlt_bool q1 0 = Qlt_bool q2 0).
  { apply eq_true_iff_eq. rewrite !Qlt_bool_iff, H. reflexivity. }
  rewrite Ho, Hs. destruct (Qle_bool (pow2 1024) m2); [reflexivity|].
  f_equal. apply Qred_complete. destruct (Qlt_bool q2 0); rewrite Hm; reflexivity.
Qed.

Lemma round64_not_nan (q : Q) : round64 q <> NaN.
Proof.
  unfold round64. destruct (Qle_bool _ _); [destruct (Qlt_bool q 0)|];
    discriminate.
Qed.

(** What [round64] gives, by the sign of [q]. *)
Lemma round64_nonneg_cases (q : Q) :
  0 <= q ->
  (round64 q = PInf /\ pow2 1024 <= round_mag q) \/
  (exists v, round64 q = Fin v /\ v == round_mag q /\ round_mag q < pow2 1024).
Proof.
  intros Hq. unfold round64.
  assert (Habs : Qabs q == q) by (apply Qabs_pos; exact Hq).
  assert (Hm : round_mag (Qabs q) == round_mag q)
    by (apply round_mag_comp; [apply Qabs_nonneg|exact Habs]).
  assert (Hs : Qlt_bool q 0 = false) by (apply Qlt_bool_false; exact Hq).
  rewrite Hs. destruct (Qle_bool (pow2 1024) (round_mag (Qabs q))) eqn:E.
  - left. apply Qle_bool_iff in E. rewrite Hm in E. auto.
  - right. eexists. split; [reflexivity|]. rewrite Qred_correct. split; [exact Hm|].
    apply Qnot_le_lt. intros H. rewrite <- Hm in H. apply Qle_bool_iff in H.
    congruence.
Qed.

Lemma round64_neg_cases (q : Q) :
  q < 0 ->
  (round64 q = NInf /\ pow2 1024 <= round_mag (- q)) \/
  (exists v, round64 q = Fin v /\ v == - round_mag (- q)
             /\ round_mag (- q) < pow2 1024).
Proof.
  intros Hq. unfold round64.
  assert (Habs : Qabs q == - q) by (apply Qabs_neg; apply Qlt_le_weak; exact Hq).
  assert (Hm : round_mag (Qabs q) == round_mag (- q))
    by (apply round_mag_comp; [apply Qabs_nonneg|exact Habs]).
  assert (Hs : Qlt_bool q 0 = true) by (apply Qlt_bool_iff; exact Hq).
  rewrite Hs. destruct (Qle_bool (pow2 1024) (round_mag (Qabs q))) eqn:E.
  - left. apply Qle_bool_iff in E. rewrite Hm in E. auto.
  - right. eexists. split; [reflexivity|]. rewrite Qred_correct.
    split; [rewrite Hm; reflexivity|].
    apply Qnot_le_lt. intros H. rewrite <- Hm in H. apply Qle_bool_iff in H.
    congruence.
Qed.

(** Rounding is monotone. *)
Lemma round64_mono (q1 q2 : Q) : q1 <= q2 -> fle (round64 q1) (round64 q2).
Proof.
  intros H12.
  destruct (Qlt_le_dec q1 0) as [Hn1|Hp1]; destruct (Qlt_le_dec q2 0) as [Hn2|Hp2].
  - assert (Hm : round_mag (- q2) <= round_mag (- q1))
      by (apply round_mag_mono; lra).
    destruct (round64_neg_cases q1 Hn1) as [[-> _]|(v1 & -> & Hv1 & Hf1)];
      destruct (round64_neg_cases q2 Hn2) as [[-> Ho2]|(v2 & -> & Hv2 & Hf2)];
      cbn; auto.
    + exfalso. lra.
    + rewrite Hv1, Hv2. lra.
  - pose proof (round_mag_nonneg (- q1) ltac:(lra)) as Hm1.
    pose proof (round_mag_nonneg q2 Hp2) as Hm2.
    destruct (round64_neg_cases q1 Hn1) as [[-> _]|(v1 & -> & Hv1 & Hf1)];
      destruct (round64_nonneg_cases q2 Hp2) as [[-> _]|(v2 & -> & Hv2 & Hf2)];
      cbn; auto.
    rewrite Hv1, Hv2. lra.
  - exfalso. lra.
  - assert (Hm : round_mag q1 <= round_mag q2)
      by (apply round_mag_mono; assumption).
    destruct (round64_nonneg_cases q1 Hp1) as [[-> Ho1]|(v1 & -> & Hv1 & Hf1)];
      destruct (round64_nonneg_cases q2 Hp2) as [[-> _]|(v2 & -> & Hv2 & Hf2)];
      cbn; auto.
    + exfalso. lra.
    + rewrite Hv1, Hv2. exact Hm.
Qed.

(** A number that rounding leaves alone, within the range. *)
Lemma round64_fixed (x : Q) :
  round_mag (Qabs x) == Qabs x -> Qabs x < pow2 1024 ->
  round64 x = Fin (Qred x).
Proof.
  intros Hfix Hrange. unfold round64.
  set (m := round_mag (Qabs x)) in *.
  assert (Ho : Qle_bool (pow2 1024) m = false).
  { apply not_true_iff_false. rewrite Qle_bool_iff, Hfix. apply Qlt_not_le.
    exact Hrange. }
  rewrite Ho. f_equal. apply Qred_complete.
  destruct (Qlt_bool x 0) eqn:Es.
  - apply Qlt_bool_iff in Es. rewrite Hfix, Qabs_neg by lra. ring.
  - apply Qlt_bool_false in Es. rewrite Hfix, Qabs_pos by lra. reflexivity.
Qed.

(** What [round64] gives when it is finite. *)
Lemma round64_Fin (q v : Q) :
  round64 q = Fin v ->
  v = Qred v /\ Qabs v == round_mag (Qabs q) /\ Qabs v < pow2 1024 /\
  (0 <= q -> 0 <= v) /\ (q <= 0 -> v <= 0).
Proof.
  unfold round64. set (m := round_mag (Qabs q)).
  assert (Hm : 0 <= m) by (apply round_mag_nonneg, Qabs_nonneg).
  destruct (Qle_bool (pow2 1024) m) eqn:Eo;
    [destruct (Qlt_bool q 0); discriminate|].
  intros H. injection H as <-.
  assert (Hlt : m < pow2 1024).
  { apply Qnot_le_lt. intros H. apply Qle_bool_iff in H. congruence. }
  split; [symmetry; apply Qred_complete, Qred_correct|].
  rewrite Qred_correct.
  destruct (Qlt_bool q 0) eqn:Es.
  - apply Qlt_bool_iff in Es.
    assert (Ha : Qabs (- m) == m) by (rewrite Qabs_opp; apply Qabs_pos; exact Hm).
    rewrite Ha. split; [reflexivity|]. split; [exact Hlt|]. split; lra.
  - apply Qlt_bool_false in Es.
    assert (Ha : Qabs m == m) by (apply Qabs_pos; exact Hm).
    rewrite Ha. split; [reflexivity|]. split; [exact Hlt|]. split; [lra|].
    intros Hq0. assert (Hq : q == 0) by lra.
    assert (Hz : m == 0).
    { unfold m. apply round_mag_zero. rewrite Hq. reflexivity. }
    lra.
Qed.

(** A float is left as it is. *)
Lemma round64_idempotent (q v : Q) : round64 q = Fin v -> round64 v = Fin v.
Proof.
  intros H. destruct (round64_Fin q v H) as (Hred & Habs & Hrange & _).
  rewrite Hred at 2. apply round64_fixed; [|exact Hrange].
  rewrite (round_mag_comp _ _ (Qabs_nonneg v) Habs).
  rewrite round_mag_idempotent by apply Qabs_nonneg. symmetry. exact Habs.
Qed.

(** An integer of less than 54 bits is a float. *)
Lemma round64_small_int (z : Z) :
  (Z.abs z < 2 ^ 53)%Z -> round64 (inject_Z z) = Fin (inject_Z z).
Proof.
  intros Hz.
  assert (Habs : Qabs (inject_Z z) == inject_Z (Z.abs z) * pow2 0).
  { unfold pow2. rewrite Qmult_1_r. unfold Qabs, inject_Z. reflexivity. }
  rewrite round64_fixed.
  - f_equal. apply Qcanon.Qred_identity. cbn. apply Z.gcd_1_r.
  - rewrite (round_mag_comp _ _ (Qabs_nonneg _) Habs).
    rewrite round_mag_representable by lia. symmetry. exact Habs.
  - rewrite Habs. unfold pow2 at 1. rewrite Qmult_1_r.
    rewrite pow2_Z by lia. rewrite <- Zlt_Qlt. lia.
Qed.

(** Rounding between two floats. *)
Lemma round64_between (q lo hi a b : Q) :
  lo <= q -> q <= hi -> round64 lo = Fin a -> round64 hi = Fin b ->
  float_between a b (round64 q).
Proof.
  intros Hlo Hhi Ha Hb.
  pose proof (round64_mono lo q Hlo) as H1.
  pose proof (round64_mono q hi Hhi) as H2.
  rewrite Ha in H1. rewrite Hb in H2.
  destruct (round64 q) as [v| | |]; cbn in H1, H2; try contradiction.
  exists v. auto.
Qed.

End Rounding.

(** ** Floats *)

Section Floats.

Local Open Scope Q_scope.

Lemma fle_refl_Fin (x : Q) : fle (Fin x) (Fin x).
Proof. cbn. apply Qle_refl. Qed.

Lemma fle_trans (a b c : float) : fle a b -> fle b c -> fle a c.
Proof.
  destruct a, b, c; cbn; try tauto. apply Qle_trans.
Qed.

Lemma float_between_fle (lo hi : Q) (f : float) :
  float_between lo hi f <-> fle (Fin lo) f /\ fle f (Fin hi).
Proof.
  split.
  - intros (v & -> & H1 & H2). cbn. auto.
  - intros [H1 H2]. destruct f as [v| | |]; cbn in *; try tauto.
    exists v. auto.
Qed.

Lemma round64_zero : round64 0 = Fin 0.
Proof. reflexivity. Qed.

Lemma round64_nonneg (q : Q) : 0 <= q -> fle (Fin 0) (round64 q).
Proof. intros H. rewrite <- round64_zero. apply round64_mono. exact H. Qed.

Lemma round64_is_float (q : Q) : is_float (round64 q).
Proof.
  destruct (round64 q) as [v| | |] eqn:E; cbn; auto.
  exact (round64_idempotent q v E).
Qed.

Lemma fadd_is_float (a b : float) : is_float (fadd a b).
Proof.
  destruct a as [x| | |], b as [y| | |]; cbn [fadd]; try exact I.
  apply round64_is_float.
Qed.

Lemma fmul_is_float (a b : float) : is_float (fmul a b).
Proof.
  destruct a as [x| | |], b as [y| | |]; cbn [fmul];
    match goal with
    | |- is_float (round64 _) => apply round64_is_float
    | |- is_float (if _ then _ else _) =>
        destruct (Qeq_bool _ 0); [exact I|destruct (Qlt_bool _ 0); exact I]
    | |- _ => exact I
    end.
Qed.

(** Adding zero changes nothing. *)
Lemma fadd_zero_r (s : float) : is_float s -> fadd s (Fin 0) = s.
Proof.
  destruct s as [v| | |]; cbn; try reflexivity.
  intros H. rewrite <- H at 1. apply round64_comp. ring.
Qed.

Lemma fadd_nonneg (a b : float) :
  fle (Fin 0) a -> fle (Fin 0) b -> fle (Fin 0) (fadd a b).
Proof.
  destruct a as [x| | |], b as [y| | |]; cbn [fle fadd]; try tauto.
  intros Hx Hy. apply round64_nonneg. lra.
Qed.

Lemma fmul_nonneg (a : float) (w : Q) :
  fle (Fin 0) a -> 0 < w -> fle (Fin 0) (fmul a (Fin w)).
Proof.
  destruct a as [x| | |]; cbn [fle fmul]; try tauto.
  - intros Hx Hw. apply round64_nonneg. apply Qmult_le_0_compat; lra.
  - intros _ Hw.
    assert (E : Qeq_bool w 0 = false).
    { apply not_true_iff_false. rewrite Qeq_bool_iff. lra. }
    assert (E' : Qlt_bool w 0 = false) by (apply Qlt_bool_false; lra).
    rewrite E, E'. exact I.
Qed.

Lemma fdiv_nonneg (a : float) (d : Q) :
  fle (Fin 0) a -> 0 < d ->
  exists r, fdiv a (Fin d) = Ok r /\ fle (Fin 0) r.
Proof.
  intros Ha Hd. unfold fdiv.
  assert (E : Qeq_bool d 0 = false).
  { apply not_true_iff_false. rewrite Qeq_bool_iff. lra. }
  assert (E' : Qlt_bool d 0 = false) by (apply Qlt_bool_false; lra).
  rewrite E. destruct a as [x| | |]; cbn [fle] in Ha; try tauto.
  - eexists. split; [reflexivity|]. apply round64_nonneg.
    apply Qle_shift_div_l; [exact Hd|]. lra.
  - rewrite E'. eexists. split; [reflexivity|exact I].
Qed.

(** The cap. *)
Lemma py_min_between (x : float) :
  fle (Fin 0) x -> float_between 0 10 (py_min x 10).
Proof.
  unfold py_min. destruct x as [v| | |]; cbn [fle flt]; try tauto.
  - intros Hv. destruct (Qlt_bool (inject_Z 10) v) eqn:E.
    + exists (inject_Z 10). split; [reflexivity|]. split; discriminate.
    + apply Qlt_bool_false in E. exists v. auto.
  - intros _. exists (inject_Z 10). split; [reflexivity|]. split; discriminate.
Qed.

Lemma capped_score_between (x : float) (w w' cap : Q) :
  float_lit w = Fin w' -> 0 <= w' -> round64 (10 * w') = Fin cap ->
  fle (Fin 0) x -> float_between 0 cap (capped_score x w).
Proof.
  intros Hw Hw' Hcap Hx. unfold capped_score. rewrite Hw.
  destruct (py_min_between x Hx) as (y & -> & Hy0 & Hy10). cbn [fmul].
  apply (round64_between _ 0 (10 * w')); [| |reflexivity|exact Hcap].
  - apply Qmult_le_0_compat; assumption.
  - apply Qmult_le_compat_r; assumption.
Qed.

Lemma fadd_between (a b : float) (A B S : Q) :
  round64 (A + B) = Fin S ->
  float_between 0 A a -> float_between 0 B b ->
  float_between 0 S (fadd a b).
Proof.
  intros HS (x & -> & Hx0 & HxA) (y & -> & Hy0 & HyB). cbn [fadd].
  apply (round64_between _ 0 (A + B)); [lra|lra|reflexivity|exact HS].
Qed.

(** *** Conversion and division *)

Lemma float_of_int_returns (z : Z) :
  int_in_float_range z -> exists v, round64 (inject_Z z) = Fin v.
Proof.
  unfold int_in_float_range. intros Hz.
  set (M := (2 ^ 1024 - 2 ^ 970 - 1)%Z).
  assert (Hlo : inject_Z (- M) <= inject_Z z) by (rewrite <- Zle_Qle; lia).
  assert (Hhi : inject_Z z <= inject_Z M) by (rewrite <- Zle_Qle; lia).
  assert (Ea : exists a, round64 (inject_Z (- M)) = Fin a)
    by (eexists; vm_compute; reflexivity).
  assert (Eb : exists b, round64 (inject_Z M) = Fin b)
    by (eexists; vm_compute; reflexivity).
  destruct Ea as [a Ea], Eb as [b Eb].
  destruct (round64_between _ _ _ a b Hlo Hhi Ea Eb) as (v & Hv & _).
  exists v. exact Hv.
Qed.

Lemma to_float_returns (n : num) :
  in_float_range n -> exists v, to_float n = Ok (Fin v).
Proof.
  destruct n as [z|q]; cbn [in_float_range to_float].
  - intros H. destruct (float_of_int_returns z H) as [v Hv].
    exists v. unfold float_of_int. rewrite Hv. reflexivity.
  - intros _. exists q. reflexivity.
Qed.

(** What a conversion gives has the sign of the number, and is not zero for
    an [int] that is not. *)
Lemma to_float_sign (n : num) (f : float) :
  to_float n = Ok f ->
  exists v, f = Fin v /\
            (0 <= n -> 0 <= v) /\ (n <= 0 -> v <= 0) /\ (0 < n -> 0 < v).
Proof.
  destruct n as [z|q]; cbn [to_float num_value].
  - unfold float_of_int.
    destruct (round64 (inject_Z z)) as [v| | |] eqn:E; try discriminate.
    intros H. injection H as <-. exists v. split; [reflexivity|].
    destruct (round64_Fin _ _ E) as (_ & _ & _ & Hp & Hn).
    split; [exact Hp|]. split; [exact Hn|]. intros Hz.
    assert (H1 : (1 <= z)%Z).
    { change 0 with (inject_Z 0) in Hz. rewrite <- Zlt_Qlt in Hz. lia. }
    pose proof (round64_mono 1 (inject_Z z)) as Hm.
    rewrite E in Hm. change (round64 1) with (Fin 1) in Hm. cbn in Hm.
    assert (1 <= inject_Z z) by (change 1 with (inject_Z 1); rewrite <- Zle_Qle; exact H1).
    lra.
  - intros H. injection H as <-. exists q. split; [reflexivity|]. auto.
Qed.

(** The quotient of a number that is not negative by a positive one. *)
Lemma truediv_nonneg (a b : num) (r : float) :
  0 <= a -> 0 < b -> truediv a b = Ok r -> fle (Fin 0) r.
Proof.
  intros Ha Hb. unfold truediv.
  assert (Hmixed :
            match to_float a with
            | Ok fa => match to_float b with
                       | Ok fb => fdiv fa fb
                       | Raise e => Raise e
                       end
            | Raise e => Raise e
            end = Ok r -> fle (Fin 0) r).
  { destruct (to_float a) as [fa|] eqn:Ea; [|discriminate].
    destruct (to_float b) as [fb|] eqn:Eb; [|discriminate].
    destruct (to_float_sign a fa Ea) as (x & -> & Hx & _).
    destruct (to_float_sign b fb Eb) as (y & -> & _ & _ & Hy).
    destruct (fdiv_nonneg (Fin x) y (Hx Ha) (Hy Hb)) as (r' & Hr' & Hle).
    rewrite Hr'. intros H. injection H as <-. exact Hle. }
  destruct a as [x|qa], b as [y|qb]; try exact Hmixed.
  cbn [num_value] in Ha, Hb.
  destruct (Z.eqb_spec y 0) as [->|Hy]; [discriminate|].
  destruct (round64 (inject_Z x / inject_Z y)) as [v| | |] eqn:E;
    try discriminate.
  intros H. injection H as <-.
  pose proof (round64_nonneg (inject_Z x / inject_Z y)) as Hnn.
  rewrite E in Hnn. apply Hnn.
  apply Qle_shift_div_l; [exact Hb|]. lra.
Qed.

Lemma truediv_returns (a b : num) :
  in_float_range a -> in_float_range b -> 0 <= a -> 0 < b ->
  exists r, truediv a b = Ok r.
Proof.
  intros Hra Hrb Ha Hb. unfold truediv.
  assert (Hmixed :
            exists r,
              match to_float a with
              | Ok fa => match to_float b with
                         | Ok fb => fdiv fa fb
                         | Raise e => Raise e
                         end
              | Raise e => Raise e
              end = Ok r).
  { destruct (to_float_returns a Hra) as [x Ex].
    destruct (to_float_returns b Hrb) as [y Ey]. rewrite Ex, Ey.
    destruct (to_float_sign a _ Ex) as (x' & Hx' & Hx & _).
    destruct (to_float_sign b _ Ey) as (y' & Hy' & _ & _ & Hy).
    injection Hx' as ->. injection Hy' as ->.
    destruct (fdiv_nonneg (Fin x') y' (Hx Ha) (Hy Hb)) as (r & Hr & _).
    exists r. exact Hr. }
  destruct a as [x|qa], b as [y|qb]; try exact Hmixed.
  cbn [num_value in_float_range] in *.
  destruct (Z.eqb_spec y 0) as [->|Hy].
  { exfalso. revert Hb. apply Qlt_irrefl. }
  destruct (float_of_int_returns x Hra) as [vx Evx].
  assert (H1 : 1 <= inject_Z y).
  { change 1 with (inject_Z 1). rewrite <- Zle_Qle.
    change 0 with (inject_Z 0) in Hb. rewrite <- Zlt_Qlt in Hb. lia. }
  assert (Hq0 : 0 <= inject_Z x / inject_Z y).
  { apply Qle_shift_div_l; [exact Hb|]. lra. }
  assert (Hqx : inject_Z x / inject_Z y <= inject_Z x).
  { apply Qle_shift_div_r; [exact Hb|]. nra. }
  destruct (round64_between _ 0 (inject_Z x) 0 vx Hq0 Hqx eq_refl Evx)
    as (v & Ev & _).
  rewrite Ev. eexists. reflexivity.
Qed.

End Floats.

(** ** The sub-scores *)

Section Score.

Local Open Scope Q_scope.

Lemma get_num_value (x : option num) : num_value (get_num x 0) = get_or x 0.
Proof.
  unfold get_num, get_or. destruct x as [v|]; [|reflexivity].
  destruct (Qeq_bool v 0); reflexivity.
Qed.

Lemma int_zero_in_range : int_in_float_range 0.
Proof. unfold int_in_float_range. vm_compute. reflexivity. Qed.

Lemma get_num_in_range (x : option num) :
  (forall n, x = Some n -> in_float_range n) -> in_float_range (get_num x 0).
Proof.
  intros H. unfold get_num. destruct x as [v|]; [|exact int_zero_in_range].
  destruct (Qeq_bool v 0); [exact int_zero_in_range|]. apply H. reflexivity.
Qed.

Lemma get_or_nonneg (x : option num) :
  (forall n, x = Some n -> 0 <= n) -> 0 <= get_or x 0.
Proof.
  intros H. unfold get_or. destruct x as [v|]; [|apply Qle_refl].
  destruct (Qeq_bool v 0); [apply Qle_refl|]. apply H. reflexivity.
Qed.

(** The weights as floats, and ten times each of them. *)
Lemma weight_facts :
  (exists w, float_lit 0.4 = Fin w /\ 0 <= w /\ round64 (10 * w) = Fin 4) /\
  (exists w, float_lit 0.3 = Fin w /\ 0 <= w /\ round64 (10 * w) = Fin 3) /\
  (exists w, float_lit 0.2 = Fin w /\ 0 <= w /\ round64 (10 * w) = Fin 2) /\
  (exists w, float_lit 0.1 = Fin w /\ 0 < w /\ round64 (10 * w) = Fin 1).
Proof.
  repeat split; eexists; (split; [vm_compute; reflexivity|]);
    (split; [vm_compute; congruence|vm_compute; reflexivity]).
Qed.

(** The score is the sum of the four sub-scores, and raises what the first
    of them that raises does. *)
Lemma calculate_score_sum (c : coin) :
  calculate_score c =
  (l ← liquidity_score c;
   a ← momentum_24h_score c;
   b ← momentum_7d_score c;
   d ← rank_score c;
   Ok (score_sum l a b d)).
Proof.
  unfold calculate_score, liquidity_score, momentum_24h_score,
    momentum_7d_score, momentum_score, rank_score, score_sum.
  unfold mbind, result_bind.
  destruct (Qlt_bool 0 (get_num (market_cap c) 0));
    [destruct (truediv (get_num (total_volume c) 0) (get_num (market_cap c) 0))
       as [r|e]; [|reflexivity];
     destruct (fdiv (fmul r (Fin 100)) (Fin 5)) as [cp|e]; [|reflexivity]|];
    (destruct (Qlt_bool 0 (get_num (price_change_percentage_24h c) 0));
       [destruct (truediv (get_num (price_change_percentage_24h c) 0) (Int 10))
          as [r1|e]; [|reflexivity]|]);
    (destruct (Qlt_bool 0 (get_num (price_change_percentage_7d c) 0));
       [destruct (truediv (get_num (price_change_percentage_7d c) 0) (Int 20))
          as [r2|e]; [|reflexivity]|]);
    (destruct (get_or_Z (market_cap_rank c) 999 <=? 100)%Z;
       [destruct (truediv (Int (101 - get_or_Z (market_cap_rank c) 999))
                    (Int 10)) as [r3|e]; [|reflexivity]|]);
    rewrite ?fadd_zero_r by (first [apply fadd_is_float|reflexivity]);
    reflexivity.
Qed.

(** The sub-scores, when they are computed. *)
Lemma liquidity_score_between (c : coin) (l : float) :
  0 <= get_or (total_volume c) 0 ->
  liquidity_score c = Ok l -> float_between 0 4 l.
Proof.
  intros Hv. unfold liquidity_score, mbind, result_bind.
  destruct (Qlt_bool 0 (get_num (market_cap c) 0)) eqn:Ecap.
  2:{ intros H. injection H as <-. exists 0. split; [reflexivity|].
      split; discriminate. }
  apply Qlt_bool_iff in Ecap. rewrite <- get_num_value in Hv.
  destruct (truediv _ _) as [r|e] eqn:Er; [|discriminate].
  pose proof (truediv_nonneg _ _ r Hv Ecap Er) as Hr.
  destruct (fdiv_nonneg (fmul r (Fin 100)) 5) as (cp & Ecp & Hcp);
    [apply fmul_nonneg; [exact Hr|reflexivity]|reflexivity|].
  rewrite Ecp. intros H. injection H as <-.
  destruct weight_facts as ((w & Hw & Hw0 & Hcap) & _).
  exact (capped_score_between cp 0.4 w 4 Hw Hw0 Hcap Hcp).
Qed.

Lemma liquidity_score_returns (c : coin) :
  in_float_range (get_num (market_cap c) 0) ->
  in_float_range (get_num (total_volume c) 0) ->
  0 <= get_or (total_volume c) 0 ->
  exists l, liquidity_score c = Ok l.
Proof.
  intros Hrc Hrv Hv. unfold liquidity_score, mbind, result_bind.
  destruct (Qlt_bool 0 (get_num (market_cap c) 0)) eqn:Ecap;
    [|eexists; reflexivity].
  apply Qlt_bool_iff in Ecap. rewrite <- get_num_value in Hv.
  destruct (truediv_returns _ _ Hrv Hrc Hv Ecap) as [r Er]. rewrite Er.
  pose proof (truediv_nonneg _ _ r Hv Ecap Er) as Hr.
  destruct (fdiv_nonneg (fmul r (Fin 100)) 5) as (cp & Ecp & Hcp);
    [apply fmul_nonneg; [exact Hr|reflexivity]|reflexivity|].
  rewrite Ecp. eexists. reflexivity.
Qed.

Lemma momentum_score_between (change : num) (scale : Z) (w w' cap : Q)
    (a : float) :
  (0 < scale)%Z ->
  float_lit w = Fin w' -> 0 <= w' -> round64 (10 * w') = Fin cap ->
  momentum_score change scale w = Ok a -> float_between 0 cap a.
Proof.
  intros Hs Hw Hw' Hcap. unfold momentum_score, mbind, result_bind.
  destruct (Qlt_bool 0 change) eqn:E.
  2:{ intros H. injection H as <-. exists 0. split; [reflexivity|].
      split; [apply Qle_refl|].
      pose proof (round64_mono 0 (10 * w')) as Hm.
      rewrite Hcap in Hm. apply Hm. apply Qmult_le_0_compat; [discriminate|].
      exact Hw'. }
  apply Qlt_bool_iff in E.
  destruct (truediv change (Int scale)) as [r|e] eqn:Er; [|discriminate].
  intros H. injection H as <-.
  apply (capped_score_between r w w' cap Hw Hw' Hcap).
  apply (truediv_nonneg change (Int scale) r); [lra| |exact Er].
  cbn. change 0 with (inject_Z 0). rewrite <- Zlt_Qlt. exact Hs.
Qed.

Lemma momentum_score_returns (change : num) (scale : Z) (w : Q) :
  (0 < scale)%Z -> int_in_float_range scale -> in_float_range change ->
  exists a, momentum_score change scale w = Ok a.
Proof.
  intros Hs Hrs Hr. unfold momentum_score, mbind, result_bind.
  destruct (Qlt_bool 0 change) eqn:E; [|eexists; reflexivity].
  apply Qlt_bool_iff in E.
  destruct (truediv_returns change (Int scale)) as [r Er];
    [exact Hr|exact Hrs|lra| |].
  { cbn. change 0 with (inject_Z 0). rewrite <- Zlt_Qlt. exact Hs. }
  rewrite Er. eexists. reflexivity.
Qed.

Lemma rank_score_nonneg (c : coin) (d : float) :
  rank_score c = Ok d -> fle (Fin 0) d.
Proof.
  unfold rank_score, mbind, result_bind.
  destruct (Z.leb_spec (get_or_Z (market_cap_rank c) 999) 100) as [Hle|Hgt].
  2:{ intros H. injection H as <-. apply fle_refl_Fin. }
  destruct (truediv _ _) as [r|e] eqn:Er; [|discriminate].
  intros H. injection H as <-.
  destruct weight_facts as (_ & _ & _ & (w & Hw & Hw0 & _)). rewrite Hw.
  apply fmul_nonneg; [|exact Hw0].
  apply (truediv_nonneg _ _ r) in Er; [exact Er| |reflexivity].
  cbn. change 0 with (inject_Z 0). rewrite <- Zle_Qle. lia.
Qed.

Lemma rank_score_between (c : coin) :
  (forall r, market_cap_rank c = Some r -> (1 <= r)%Z) ->
  exists d, rank_score c = Ok d /\ float_between 0 1 d.
Proof.
  intros Hr. unfold rank_score, mbind, result_bind.
  assert (H1 : (1 <= get_or_Z (market_cap_rank c) 999)%Z).
  { unfold get_or_Z. destruct (market_cap_rank c) as [r|]; [|lia].
    destruct (Z.eqb_spec r 0); [lia|]. apply Hr. reflexivity. }
  set (rank := get_or_Z (market_cap_rank c) 999) in *.
  destruct (Z.leb_spec rank 100) as [Hle|Hgt].
  2:{ exists (Fin 0). split; [reflexivity|]. exists 0.
      split; [reflexivity|]. split; discriminate. }
  unfold truediv. destruct (Z.eqb_spec 10 0) as [H|_]; [discriminate|].
  assert (Hq0 : 0 <= inject_Z (101 - rank) / inject_Z 10).
  { apply Qle_shift_div_l; [reflexivity|]. rewrite Qmult_0_l.
    change 0 with (inject_Z 0). rewrite <- Zle_Qle. lia. }
  assert (Hq10 : inject_Z (101 - rank) / inject_Z 10 <= 10).
  { apply Qle_shift_div_r; [reflexivity|].
    change (10 * inject_Z 10) with (inject_Z 100). rewrite <- Zle_Qle. lia. }
  destruct (round64_between _ 0 10 0 10 Hq0 Hq10 eq_refl eq_refl)
    as (v & Ev & Hv0 & Hv10).
  rewrite Ev. eexists. split; [reflexivity|].
  destruct weight_facts as (_ & _ & _ & (w & Hw & Hw0 & Hcap)). rewrite Hw.
  cbn [fmul].
  apply (round64_between _ 0 (10 * w)); [| |reflexivity|exact Hcap].
  - apply Qmult_le_0_compat; lra.
  - apply Qmult_le_compat_r; lra.
Qed.

(** For a record whose volume is not negative, a score that is computed is
    a number or the positive infinity: it is never NaN. *)
Lemma calculate_score_comparable (c : coin) (s : float) :
  0 <= get_or (total_volume c) 0 ->
  calculate_score c = Ok s -> fle (Fin 0) s.
Proof.
  intros Hv. rewrite calculate_score_sum. unfold mbind, result_bind.
  destruct (liquidity_score c) as [l|] eqn:El; [|discriminate].
  destruct (momentum_24h_score c) as [a|] eqn:Ea; [|discriminate].
  destruct (momentum_7d_score c) as [b|] eqn:Eb; [|discriminate].
  destruct (rank_score c) as [d|] eqn:Ed; [|discriminate].
  intros H. injection H as <-.
  destruct weight_facts as (_ & (w3 & Hw3 & Hw30 & Hc3)
                            & (w2 & Hw2 & Hw20 & Hc2) & _).
  pose proof (liquidity_score_between c l Hv El) as Hl.
  pose proof (momentum_score_between _ 10 0.3 w3 3 a ltac:(lia) Hw3 Hw30 Hc3 Ea)
    as Ha.
  pose proof (momentum_score_between _ 20 0.2 w2 2 b ltac:(lia) Hw2 Hw20 Hc2 Eb)
    as Hb.
  pose proof (rank_score_nonneg c d Ed) as Hd.
  apply float_between_fle in Hl, Ha, Hb.
  unfold score_sum. repeat apply fadd_nonneg; try tauto. apply fle_refl_Fin.
Qed.

End Score.

(** ** The eligibility filter *)

Section FilterFacts.

Variable upper : string -> string.
Variable fromisoformat : string -> option datetime.
Variable blacklist_keywords : list string.

Lemma check_ath_drawdown_reason (c : coin) (b : bool)
    (r : option filter_reason) :
  check_ath_drawdown c = Ok (b, r) ->
  r = None \/ exists p, r = Some (ReasonATHDrawdown p).
Proof.
  unfold check_ath_drawdown.
  destruct (ath_change_percentage c) as [p|]; [destruct (Qlt_bool p (-98))|];
    intros H; injection H as <- <-; eauto.
Qed.

Lemma check_ath_date_reason (c : coin) (b : bool) (r : option filter_reason) :
  check_ath_date fromisoformat c = Ok (b, r) ->
  r = None \/ (exists p, r = Some (ReasonATHDrawdown p)) \/
  exists d p, r = Some (ReasonStaleATH d p).
Proof.
  unfold check_ath_date. intros H.
  repeat match type of H with
         | match ?x with _ => _ end = _ => destruct x eqn:?
         | (if ?x then _ else _) = _ => destruct x eqn:?
         end;
    try discriminate;
    try (apply check_ath_drawdown_reason in H; tauto);
    injection H as <- <-; eauto.
Qed.

(** C8.  For a record that the blacklist rule does not reject, the filter
    returns the stablecoin rejection exactly when USD, USDT or STAKED is a
    substring of the uppercased name or of the uppercased symbol; the second
    STAKED check of the source is never the one that rejects. *)
Theorem stablecoin_rule_iff (c : coin) :
  let name := upper (default EmptyString (name c)) in
  let symbol := upper (default EmptyString (symbol c)) in
  (forall kw, is_excellent_coin upper fromisoformat blacklist_keywords c
              <> Ok (false, Some (ReasonBlacklist kw))) ->
  (is_excellent_coin upper fromisoformat blacklist_keywords c
   = Ok (false, Some ReasonStablecoin)
   <->
   (contains "USD" name \/ contains "USDT" name \/ contains "STAKED" name \/
    contains "USD" symbol \/ contains "USDT" symbol \/
    contains "STAKED" symbol)) /\
  is_excellent_coin upper fromisoformat blacklist_keywords c
  <> Ok (false, Some ReasonStaked).
Proof.
  intros name symbol Hnot.
  assert (Hbl : blacklist_hit blacklist_keywords name symbol = None).
  { destruct (blacklist_hit blacklist_keywords name symbol) as [kw|] eqn:E;
      [|reflexivity].
    exfalso. apply (Hnot kw). unfold is_excellent_coin. fold name symbol.
    rewrite E. reflexivity. }
  unfold contains. rewrite <- !str_in_spec.
  unfold is_excellent_coin. fold name symbol.
  rewrite Hbl.
  destruct (str_in "USD" name || str_in "USD" symbol || str_in "USDT" name
            || str_in "STAKED" name || str_in "STAKED" symbol) eqn:E.
  - split; [|discriminate]. split; [intros _|reflexivity].
    rewrite !orb_true_iff in E. tauto.
  - rewrite !orb_false_iff in E. destruct E as ((((E1 & E2) & E3) & E4) & E5).
    rewrite E4, E5. cbn [orb].
    assert (Hne : forall r,
               (r = ReasonStablecoin \/ r = ReasonStaked) ->
               (if Qlt_bool MARKET_CAP_MAX (get_or (market_cap c) 0)
                then Ok (false, Some (ReasonCapAboveMax (get_or (market_cap c) 0)))
                else if Qlt_bool (get_or (market_cap c) 0) MARKET_CAP_MIN
                then Ok (false, Some (ReasonCapBelowMin (get_or (market_cap c) 0)))
                else if Qle_bool (get_or (market_cap c) 0) 0
                then Ok (false, Some ReasonCapNotPositive)
                else if Qlt_bool (get_or (total_volume c) 0) 600000
                then Ok (false, Some (ReasonVolume (get_or (total_volume c) 0)))
                else if Qlt_bool (get_or (price_change_percentage_24h c) 0) (-20)
                then Ok (false, Some (ReasonDrop24h
                                        (get_or (price_change_percentage_24h c) 0)))
                else check_ath_date fromisoformat c)
               <> Ok (false, Some r)).
    { intros r Hr H.
      repeat match type of H with
             | (if ?x then _ else _) = _ => destruct x
             end;
        try (destruct Hr; subst; discriminate).
      apply check_ath_date_reason in H.
      destruct H as [H|[(p & H)|(d & p & H)]]; destruct Hr; subst;
        discriminate. }
    split; [|apply Hne; auto].
    split.
    + intros H. exfalso. revert H. apply Hne. auto.
    + intros [H|[H|[H|[H|[H|H]]]]]; try congruence.
      apply str_in_usdt_usd in H. congruence.
Qed.

End FilterFacts.

(** The stablecoin rule on a record named after a dollar-pegged token, which
    it rejects, and on the sample record, which it does not. *)
Lemma stablecoin_rule_iff_witness :
  is_excellent_coin ascii_upper fromisoformat_basic [] coin_usd
  = Ok (false, Some ReasonStablecoin) /\
  ~ contains "USD" (ascii_upper "Sample Coin").
Proof.
  split.
  - apply (proj1 (stablecoin_rule_iff ascii_upper fromisoformat_basic []
                    coin_usd ltac:(intros kw; vm_compute; discriminate))).
    left. exists "FIRST DIGITAL "%string, EmptyString. reflexivity.
  - intros H.
    assert (Hs : is_excellent_coin ascii_upper fromisoformat_basic [] sample_coin
                 = Ok (false, Some ReasonStablecoin)).
    { apply (proj1 (stablecoin_rule_iff ascii_upper fromisoformat_basic []
                      sample_coin ltac:(intros kw; vm_compute; discriminate))).
      left. exact H. }
    vm_compute in Hs. discriminate Hs.
Defined.

Section FirstFailing.

Variable upper : string -> string.
Variable fromisoformat : string -> option datetime.
Variable blacklist_keywords : list string.

Lemma stablecoin_condition (name symbol : string) :
  str_in "USD" name || str_in "USD" symbol || str_in "USDT" name
  || str_in "STAKED" name || str_in "STAKED" symbol
  = str_in "USD" name || str_in "USDT" name || str_in "STAKED" name
    || str_in "USD" symbol || str_in "USDT" symbol || str_in "STAKED" symbol.
Proof.
  pose proof (str_in_usdt_usd symbol) as Hs.
  destruct (str_in "USD" name), (str_in "USDT" name), (str_in "STAKED" name),
    (str_in "USD" symbol), (str_in "USDT" symbol), (str_in "STAKED" symbol);
    try reflexivity; discriminate (Hs eq_refl).
Qed.

(** A market cap that is not below the floor is positive: the check
    [market_cap <= 0] of the source never rejects. *)
Lemma cap_above_floor_positive (m : Q) :
  Qlt_bool m MARKET_CAP_MIN = false -> Qle_bool m 0 = false.
Proof.
  intros H. apply not_true_iff_false. rewrite Qle_bool_iff. intros Hle.
  apply not_true_iff_false in H. apply H. apply Qlt_bool_iff.
  eapply Qle_lt_trans; [exact Hle|reflexivity].
Qed.

(** The filter on every record: the first of the six rules before the
    all-time-high checks that fails gives the reason; if none does and the
    date comparison raises, so does the filter; otherwise the outcome is the
    specification's verdict, the reason of the first failing rule of all
    eight or acceptance. *)
Lemma is_excellent_coin_first_failing (c : coin) :
  is_excellent_coin upper fromisoformat blacklist_keywords c =
  match first_failing upper fromisoformat blacklist_keywords rules_before_ath c with
  | Some r =>
      Ok (false, Some (rule_reason upper blacklist_keywords r c))
  | None =>
      if date_comparison_raises fromisoformat c
      then Raise TypeError_naive_aware
      else Ok (verdict upper fromisoformat blacklist_keywords c)
  end.
Proof.
  unfold verdict, rule_order, first_failing, rules_before_ath, is_excellent_coin,
    rule_reason.
  cbn [List.find app rule_fails].
  destruct (blacklist_hit blacklist_keywords _ _) as [kw|]; [reflexivity|].
  rewrite stablecoin_condition.
  destruct (str_in "USD" _ || _ || _ || _ || _ || _) eqn:Estable; [reflexivity|].
  rewrite <- stablecoin_condition in Estable.
  rewrite !orb_false_iff in Estable.
  destruct Estable as ((((_ & _) & _) & E4) & E5). rewrite E4, E5. cbn [orb].
  destruct (Qlt_bool MARKET_CAP_MAX _); [reflexivity|].
  destruct (Qlt_bool _ MARKET_CAP_MIN) eqn:Efloor; [reflexivity|].
  rewrite (cap_above_floor_positive _ Efloor).
  destruct (Qlt_bool _ 600000); [reflexivity|].
  destruct (Qlt_bool _ (-20)); [reflexivity|].
  unfold check_ath_date, date_comparison_raises, ath_dates, check_ath_drawdown.
  destruct (ath_date c) as [[|ch d]|];
    [destruct (ath_change_percentage c) as [p|];
       [destruct (Qlt_bool p (-98))|]; reflexivity
    |
    |destruct (ath_change_percentage c) as [p|];
       [destruct (Qlt_bool p (-98))|]; reflexivity].
  destruct (fromisoformat (replace_Z (String ch d))) as [dt|];
    [destruct (fromisoformat "2023-01-01T00:00:00+00:00") as [cut|]|];
    [|destruct (ath_change_percentage c) as [p|];
       [destruct (Qlt_bool p (-98))|]; reflexivity ..].
  assert (Hlt : (exists b, datetime_lt dt cut = Ok b) \/
                datetime_lt dt cut = Raise TypeError_naive_aware)
    by (destruct dt, cut; cbn; eauto).
  destruct Hlt as [[[|] Hlt]|Hlt]; rewrite Hlt; [| |reflexivity]; cbn [andb].
  - destruct (ath_change_percentage c) as [p|]; [|reflexivity].
    destruct (Qlt_bool p (-95)); [reflexivity|].
    destruct (Qlt_bool p (-98)); reflexivity.
  - destruct (ath_change_percentage c) as [p|]; [|reflexivity].
    destruct (Qlt_bool p (-98)); reflexivity.
Qed.

(** The filter raises exactly on the records that pass the first six rules
    and whose date comparison raises: a rule that fails before it keeps the
    comparison from being evaluated. *)
Lemma is_excellent_coin_raises_iff (c : coin) :
  is_excellent_coin upper fromisoformat blacklist_keywords c
  = Raise TypeError_naive_aware
  <->
  first_failing upper fromisoformat blacklist_keywords rules_before_ath c = None
  /\ date_comparison_raises fromisoformat c = true.
Proof.
  rewrite is_excellent_coin_first_failing.
  destruct (first_failing _ _ _ rules_before_ath c) as [r|].
  - split; [discriminate|intros [H _]; discriminate].
  - destruct (date_comparison_raises fromisoformat c).
    + split; [intros _; split; reflexivity|reflexivity].
    + split; [discriminate|intros [_ H]; discriminate].
Qed.

End FirstFailing.

(** C5.  The record of the specification's first scenario passes the first
    six checks; its all-time-high date parses to a datetime without offset,
    the comparison with the cutoff raises a [TypeError] that the [try] does
    not catch, and the filter gives neither accept nor reject. *)
Theorem naive_ath_date_raises :
  fromisoformat_basic (replace_Z "2023-06-01") = Some (Naive 1685577600000000) /\
  fromisoformat_basic "2023-01-01T00:00:00+00:00" = Some (Aware 1672531200000000) /\
  is_excellent_coin ascii_upper fromisoformat_basic [] coin_naive_ath_date
  = Raise TypeError_naive_aware.
Proof. repeat split; vm_compute; reflexivity. Qed.

(** ** The score *)

(** C6, as stated, fails: on a record within the stated preconditions whose
    volume is an [int] beyond the range of [float], the division of the
    liquidity sub-score raises [OverflowError]; the filter accepts the
    record, and the selection ends with the exception. *)
Lemma calculate_score_overflow :
  (0 <= get_or (market_cap coin_huge_volume) 0)%Q /\
  (0 <= get_or (total_volume coin_huge_volume) 0)%Q /\
  market_cap_rank coin_huge_volume = Some 50 /\
  calculate_score coin_huge_volume = Raise OverflowError /\
  is_excellent_coin ascii_upper fromisoformat_basic [] coin_huge_volume
  = Ok (true, None) /\
  select_from ascii_upper fromisoformat_basic [] [coin_huge_volume]
  = Raise OverflowError.
Proof.
  split; [vm_compute; discriminate|].
  split; [vm_compute; discriminate|].
  repeat split; vm_compute; reflexivity.
Qed.

(** C6, amended.  For a record whose numbers are finite, the [int]s among
    them within the range of [float], whose volume is not negative and whose
    rank, when present, is at least 1, the four sub-scores and the score are
    computed without an exception; the sub-scores are floats between 0 and
    4, 3, 2 and 1, the score is their float sum, taken from zero in this
    order, and lies between 0 and 10. *)
Theorem calculate_score_in_range (c : coin) :
  (forall n, market_cap c = Some n -> in_float_range n) ->
  (forall n, total_volume c = Some n -> in_float_range n /\ (0 <= n)%Q) ->
  (forall n, price_change_percentage_24h c = Some n -> in_float_range n) ->
  (forall n, price_change_percentage_7d c = Some n -> in_float_range n) ->
  (forall r, market_cap_rank c = Some r -> 1 <= r) ->
  exists l a b d s : float,
    liquidity_score c = Ok l /\ float_between 0 4 l /\
    momentum_24h_score c = Ok a /\ float_between 0 3 a /\
    momentum_7d_score c = Ok b /\ float_between 0 2 b /\
    rank_score c = Ok d /\ float_between 0 1 d /\
    calculate_score c = Ok s /\ s = score_sum l a b d /\
    float_between 0 10 s.
Proof.
  intros Hcap Hvol H24 H7 Hrank.
  assert (Hv : (0 <= get_or (total_volume c) 0)%Q)
    by (apply get_or_nonneg; intros n Hn; apply (Hvol n Hn)).
  destruct (liquidity_score_returns c) as [l El];
    [apply get_num_in_range; exact Hcap
    |apply get_num_in_range; intros n Hn; apply (Hvol n Hn)
    |exact Hv|].
  destruct (momentum_score_returns
              (get_num (price_change_percentage_24h c) 0) 10 0.3)
    as [a Ea]; [lia|vm_compute; reflexivity|apply get_num_in_range; exact H24|].
  destruct (momentum_score_returns
              (get_num (price_change_percentage_7d c) 0) 20 0.2)
    as [b Eb]; [lia|vm_compute; reflexivity|apply get_num_in_range; exact H7|].
  destruct (rank_score_between c Hrank) as (d & Ed & Hd).
  destruct weight_facts as (_ & (w3 & Hw3 & Hw30 & Hc3)
                            & (w2 & Hw2 & Hw20 & Hc2) & _).
  pose proof (liquidity_score_between c l Hv El) as Hl.
  pose proof (momentum_score_between _ 10 0.3 w3 3 a ltac:(lia) Hw3 Hw30 Hc3 Ea)
    as Ha.
  pose proof (momentum_score_between _ 20 0.2 w2 2 b ltac:(lia) Hw2 Hw20 Hc2 Eb)
    as Hb.
  exists l, a, b, d, (score_sum l a b d).
  fold (momentum_24h_score c) in Ea. fold (momentum_7d_score c) in Eb.
  repeat (split; [assumption|]).
  split.
  { rewrite calculate_score_sum, El, Ea, Eb, Ed. reflexivity. }
  split; [reflexivity|].
  unfold score_sum.
  apply (fadd_between _ _ 9 1 10 eq_refl); [|exact Hd].
  apply (fadd_between _ _ 7 2 9 eq_refl); [|exact Hb].
  apply (fadd_between _ _ 4 3 7 eq_refl); [|exact Ha].
  apply (fadd_between _ _ 0 4 4 eq_refl); [|exact Hl].
  exists 0%Q. split; [reflexivity|]. split; apply Qle_refl.
Qed.

(** The amended claim on a record of [int] fields: its score is computed
    and lies between 0 and 10. *)
Lemma calculate_score_in_range_witness :
  exists s : float, calculate_score coin_lo = Ok s /\ float_between 0 10 s.
Proof.
  destruct (calculate_score_in_range coin_lo)
    as (l & a & b & d & s & _ & _ & _ & _ & _ & _ & _ & _ & Hs & _ & Hr).
  - intros n H. injection H as <-. vm_compute. reflexivity.
  - intros n H. injection H as <-.
    split; [vm_compute; reflexivity|vm_compute; discriminate].
  - intros n H. discriminate H.
  - intros n H. injection H as <-. vm_compute. reflexivity.
  - intros r H. injection H as <-. lia.
  - exists s. split; [exact Hs|exact Hr].
Defined.

(** The score is the float the code computes: for a record that has nothing
    but the rank 100 it is 0.010000000000000002, the product of the floats
    nearest to 1/10 and, again, to 1/10, and not 1/100. *)
Lemma calculate_score_rounds :
  exists s : Q,
    calculate_score coin_rank_100 = Ok (Fin s) /\
    (s == 1441151880758559 # 144115188075855872)%Q /\
    ~ (s == 1 # 100)%Q.
Proof.
  eexists. split; [vm_compute; reflexivity|].
  split; [reflexivity|]. intros H. discriminate H.
Qed.

(** The bound is reached: the record at the cap of every sub-score scores
    10.0. *)
Lemma calculate_score_reaches_cap : calculate_score coin_top = Ok (Fin 10).
Proof. vm_compute. reflexivity. Qed.

(** ** The stable sort *)

Section StableSort.

Context {A : Type} (before : A -> A -> bool).

Lemma insert_stable_perm (x : A) (l : list A) :
  Permutation (insert_stable before x l) (x :: l).
Proof.
  induction l as [|y ys IH]; cbn; [reflexivity|].
  destruct (before y x); [|reflexivity].
  rewrite IH. apply perm_swap.
Qed.

Lemma stable_sort_perm (l : list A) : Permutation (stable_sort before l) l.
Proof.
  induction l as [|x xs IH]; cbn; [reflexivity|].
  rewrite insert_stable_perm. apply perm_skip. exact IH.
Qed.

(** Inserting an element does not move it past an element of its own class:
    a class [P] that excludes whatever goes strictly before its members sees
    the element at the head of those that were there. *)
Lemma insert_stable_filter (P : A -> bool) (x : A) (l : list A) :
  (forall y, before y x = true -> P x = true -> P y = false) ->
  List.filter P (insert_stable before x l) = List.filter P (x :: l).
Proof.
  intros H. induction l as [|y ys IH]; [reflexivity|].
  cbn [insert_stable]. destruct (before y x) eqn:E; [|reflexivity].
  cbn [List.filter] in *. rewrite IH.
  destruct (P x) eqn:Ex; [|reflexivity].
  rewrite (H y E eq_refl). reflexivity.
Qed.

Lemma stable_sort_filter (P : A -> bool) (l : list A) :
  (forall x y, before y x = true -> P x = true -> P y = false) ->
  List.filter P (stable_sort before l) = List.filter P l.
Proof.
  intros H. induction l as [|x xs IH]; [reflexivity|].
  cbn [stable_sort]. rewrite insert_stable_filter by apply H.
  cbn [List.filter]. rewrite IH. reflexivity.
Qed.

Hypothesis before_asym : forall a b, before a b = true -> before b a = false.
Hypothesis before_neg_trans :
  forall a b c, before b a = false -> before c b = false -> before c a = false.

Lemma insert_stable_sorted (x : A) (l : list A) :
  StronglySorted (fun a b => before b a = false) l ->
  StronglySorted (fun a b => before b a = false) (insert_stable before x l).
Proof.
  induction 1 as [|y ys Hs IH Hall]; cbn.
  - constructor; constructor.
  - destruct (before y x) eqn:E.
    + constructor; [exact IH|].
      rewrite (insert_stable_perm x ys). constructor; [|exact Hall].
      apply before_asym. exact E.
    + constructor; [constructor; assumption|].
      constructor; [exact E|].
      eapply Forall_impl; [exact Hall|]. cbn. intros z Hz.
      eapply before_neg_trans; eassumption.
Qed.

Lemma stable_sort_sorted (l : list A) :
  StronglySorted (fun a b => before b a = false) (stable_sort before l).
Proof.
  induction l as [|x xs IH]; cbn; [constructor|].
  apply insert_stable_sorted. exact IH.
Qed.

End StableSort.

(** ** Aggregation *)

Lemma py_slice_to_nonneg {A} (limit : Z) (l : list A) :
  0 <= limit -> py_slice_to limit l = take (Z.to_nat limit) l.
Proof. intros H. unfold py_slice_to. destruct (Z.ltb_spec limit 0); [lia|reflexivity]. Qed.

Lemma py_slice_to_prefix {A} (limit : Z) (l : list A) :
  py_slice_to limit l `prefix_of` l.
Proof. unfold py_slice_to. destruct (limit <? 0); apply prefix_take. Qed.

Lemma py_slice_to_length {A} (limit : Z) (l : list A) :
  Z.of_nat (List.length (py_slice_to limit l)) =
  if limit <? 0 then Z.max 0 (Z.of_nat (List.length l) + limit)
  else Z.min limit (Z.of_nat (List.length l)).
Proof.
  unfold py_slice_to. destruct (Z.ltb_spec limit 0); rewrite length_take; lia.
Qed.

(** The pages are read in ascending page number. *)
Lemma pages_sorted (page_files : list (Z * page_payload)) :
  StronglySorted (fun a b => fst a <= fst b) (stable_sort page_before page_files)
  /\ Permutation (stable_sort page_before page_files) page_files.
Proof.
  split; [|apply stable_sort_perm].
  assert (H : StronglySorted (fun a b => page_before b a = false)
                (stable_sort page_before page_files)).
  { apply stable_sort_sorted; unfold page_before; intros; lia. }
  induction H as [|a l Hs IH Hall]; constructor; [exact IH|].
  eapply Forall_impl; [exact Hall|]. cbn. unfold page_before. intros b Hb. lia.
Qed.

Lemma load_pages_loop_take (limit : Z) (page_files : list (Z * page_payload)) :
  forall coins : list coin,
    take (Z.to_nat limit) (load_pages_loop limit page_files coins)
    = take (Z.to_nat limit) (coins ++ List.flat_map coins_of page_files).
Proof.
  induction page_files as [|[n payload] rest IH]; intros coins; cbn.
  - rewrite app_nil_r. reflexivity.
  - destruct (Z.leb_spec limit (Z.of_nat (List.length coins))) as [Hle|Hgt].
    + rewrite take_app_le by lia. reflexivity.
    + unfold coins_of at 1. cbn [snd].
      destruct payload; rewrite IH; rewrite <- ?app_assoc; reflexivity.
Qed.

Lemma load_pages_loop_neg (limit : Z) (page_files : list (Z * page_payload)) :
  limit < 0 -> load_pages_loop limit page_files [] = [].
Proof.
  intros H. destruct page_files as [|[n payload] rest]; cbn; [reflexivity|].
  destruct (limit <=? Z.of_nat 0) eqn:E; [reflexivity|].
  apply Z.leb_gt in E. cbn in E. lia.
Qed.

(** What is read from the page files: the first [limit] records of the
    concatenation in page order. *)
Lemma load_coins_from_local_pages_take (limit : Z) (st : store) :
  _load_coins_from_local_pages limit st
  = take (Z.to_nat limit) (page_concat st).
Proof.
  unfold _load_coins_from_local_pages, page_concat.
  destruct (pages_dir st) as [[|f fs]|];
    [cbn; rewrite take_nil; reflexivity| |rewrite take_nil; reflexivity].
  set (sorted := stable_sort page_before (f :: fs)).
  destruct (Z.ltb_spec limit 0) as [Hneg|Hpos].
  - rewrite load_pages_loop_neg by lia.
    replace (Z.to_nat limit) with 0%nat by lia.
    unfold py_slice_to. rewrite !take_nil, take_0.
    destruct (limit <? 0); reflexivity.
  - rewrite py_slice_to_nonneg by lia. apply load_pages_loop_take.
Qed.

Lemma rebuild_from_pages_eq (o : write_outcome) (limit : Z) (st : store) :
  let cached := take (Z.to_nat limit) (page_concat st) in
  rebuild_from_pages o limit st
  = (cached, match cached with
             | [] => st
             | _ :: _ => write_cache o cached st
             end).
Proof.
  cbn zeta. unfold rebuild_from_pages.
  rewrite load_coins_from_local_pages_take.
  destruct (take (Z.to_nat limit) (page_concat st)) as [|c cs] eqn:E;
    [reflexivity|].
  f_equal. destruct (Z.ltb_spec limit 0) as [Hneg|Hpos].
  - replace (Z.to_nat limit) with 0%nat in E by lia. rewrite take_0 in E.
    discriminate.
  - rewrite py_slice_to_nonneg by lia. rewrite <- E, take_take.
    f_equal. lia.
Qed.



(** ** Selection and ranking *)

(** The order of the sort keys. *)
Lemma fle_not_nan (a b : float) : fle a b -> a <> NaN /\ b <> NaN.
Proof. destruct a, b; cbn; intros H; try tauto; split; discriminate. Qed.

Lemma flt_true_fle (a b : float) : flt a b = true -> fle a b.
Proof.
  destruct a as [x| | |], b as [y| | |]; cbn; try discriminate; try tauto.
  rewrite Qlt_bool_iff. apply Qlt_le_weak.
Qed.

Lemma flt_false_fle (a b : float) :
  a <> NaN -> b <> NaN -> flt a b = false -> fle b a.
Proof.
  destruct a as [x| | |], b as [y| | |]; cbn; try discriminate; try tauto.
  intros _ _. apply Qlt_bool_false.
Qed.

Lemma fle_antisym (a b : float) : fle a b -> fle b a -> feqb a b = true.
Proof.
  destruct a as [x| | |], b as [y| | |]; cbn; try tauto.
  intros H1 H2. apply Qeq_bool_iff. apply Qle_antisym; assumption.
Qed.

Lemma feqb_refl (a : float) : a <> NaN -> feqb a a = true.
Proof.
  destruct a as [x| | |]; cbn; try tauto. intros _. apply Qeq_bool_iff.
  reflexivity.
Qed.

Lemma feqb_sym (a b : float) : feqb a b = feqb b a.
Proof.
  destruct a as [x| | |], b as [y| | |]; cbn; try reflexivity.
  destruct (Qeq_bool x y) eqn:E.
  - symmetry. apply Qeq_bool_iff. apply Qeq_bool_iff in E. symmetry. exact E.
  - symmetry. apply not_true_iff_false. rewrite Qeq_bool_iff. intros H.
    apply not_true_iff_false in E. apply E. apply Qeq_bool_iff. symmetry.
    exact H.
Qed.

(** A record that goes strictly before one of score [v] is not of score
    [v]. *)
Lemma score_class_excludes (v : float) (x y : coin) :
  score_before y x = true ->
  feqb (sort_key x) v = true -> feqb (sort_key y) v = false.
Proof.
  unfold score_before.
  destruct (sort_key x) as [a| | |], (sort_key y) as [b| | |], v as [w| | |];
    cbn; try discriminate; try reflexivity.
  rewrite Qlt_bool_iff, <- not_true_iff_false, !Qeq_bool_iff.
  intros Hlt Hx Hy. rewrite Hx, Hy in Hlt. exact (Qlt_irrefl _ Hlt).
Qed.

(** On records whose keys are not NaN the sort gives a list that runs down
    in score. *)
Lemma insert_stable_score_sorted (x : coin) (l : list coin) :
  sort_key x <> NaN -> Forall (fun c => sort_key c <> NaN) l ->
  StronglySorted (fun a b => fle (sort_key b) (sort_key a)) l ->
  StronglySorted (fun a b => fle (sort_key b) (sort_key a))
    (insert_stable score_before x l).
Proof.
  intros Hx Hl Hs. induction Hs as [|y ys Hs IH Hall]; cbn.
  - constructor; constructor.
  - apply Forall_cons in Hl. destruct Hl as [Hy Hys].
    destruct (score_before y x) eqn:E.
    + constructor; [exact (IH Hys)|].
      rewrite (insert_stable_perm score_before x ys). constructor; [|exact Hall].
      apply flt_true_fle. exact E.
    + assert (Hyx : fle (sort_key y) (sort_key x))
        by (apply flt_false_fle; assumption).
      constructor; [constructor; assumption|].
      constructor; [exact Hyx|].
      eapply Forall_impl; [exact Hall|]. cbn. intros z Hz.
      eapply fle_trans; eassumption.
Qed.

Lemma stable_sort_score_sorted (l : list coin) :
  Forall (fun c => sort_key c <> NaN) l ->
  StronglySorted (fun a b => fle (sort_key b) (sort_key a))
    (stable_sort score_before l).
Proof.
  induction l as [|x xs IH]; cbn; [constructor|].
  intros H. apply Forall_cons in H. destruct H as [Hx Hxs].
  apply insert_stable_score_sorted; [exact Hx| |exact (IH Hxs)].
  rewrite (stable_sort_perm score_before xs). exact Hxs.
Qed.

(** Two lists of the same records that both run down in score and hold the
    records of every score in the same order are the same list. *)
Lemma sorted_classes_unique (l1 : list coin) :
  forall l2 : list coin,
    Permutation l1 l2 ->
    StronglySorted (fun a b => fle (sort_key b) (sort_key a)) l1 ->
    StronglySorted (fun a b => fle (sort_key b) (sort_key a)) l2 ->
    (forall v, of_score v l1 = of_score v l2) ->
    l1 = l2.
Proof.
  induction l1 as [|a l1 IH]; intros l2 Hperm Hs1 Hs2 Hcls.
  - apply Permutation_nil in Hperm. congruence.
  - destruct l2 as [|b l2].
    { apply Permutation_sym, Permutation_nil in Hperm. discriminate. }
    apply StronglySorted_inv in Hs1. destruct Hs1 as [Hs1 Ha].
    apply StronglySorted_inv in Hs2. destruct Hs2 as [Hs2 Hb].
    assert (Hab : a = b).
    { assert (Hin_a : In a (b :: l2))
        by (apply (Permutation_in _ Hperm); left; reflexivity).
      assert (Hin_b : In b (a :: l1))
        by (apply (Permutation_in _ (Permutation_sym Hperm)); left;
            reflexivity).
      destruct Hin_a as [Hba|Hin_a]; [congruence|].
      destruct Hin_b as [Hab|Hin_b]; [congruence|].
      rewrite List.Forall_forall in Ha, Hb.
      pose proof (Hb a Hin_a) as Hle1. pose proof (Ha b Hin_b) as Hle2.
      pose proof (Hcls (sort_key a)) as Hc. unfold of_score in Hc.
      cbn [List.filter] in Hc.
      rewrite (feqb_refl (sort_key a)) in Hc
        by (apply (fle_not_nan _ _ Hle1)).
      rewrite (feqb_sym (sort_key b)), (fle_antisym _ _ Hle1 Hle2) in Hc.
      congruence. }
    subst b. f_equal.
    apply IH; [exact (Permutation_cons_inv Hperm)|exact Hs1|exact Hs2|].
    intros v. pose proof (Hcls v) as Hc. unfold of_score in *.
    cbn [List.filter] in Hc. destruct (feqb (sort_key a) v); congruence.
Qed.

Lemma ranked_unique (in_order l1 l2 : list coin) :
  ranked in_order l1 -> ranked in_order l2 -> l1 = l2.
Proof.
  intros (Hp1 & Hs1 & Hc1) (Hp2 & Hs2 & Hc2).
  apply sorted_classes_unique; [|exact Hs1|exact Hs2|].
  - rewrite Hp1, Hp2. reflexivity.
  - intros v. rewrite Hc1, Hc2. reflexivity.
Qed.

Section SelectionFacts.

Variable upper : string -> string.
Variable fromisoformat : string -> option datetime.
Variable blacklist_keywords : list string.

Local Abbreviation accepts := (accepts upper fromisoformat blacklist_keywords).
Local Abbreviation raises := (raises upper fromisoformat blacklist_keywords).
Local Abbreviation first_raise :=
  (first_raise upper fromisoformat blacklist_keywords).
Local Abbreviation accepted_in_order :=
  (accepted_in_order upper fromisoformat blacklist_keywords).
Local Abbreviation rejected_in_order :=
  (rejected_in_order upper fromisoformat blacklist_keywords).
Local Abbreviation filter_loop :=
  (filter_loop upper fromisoformat blacklist_keywords).
Local Abbreviation select_from :=
  (select_from upper fromisoformat blacklist_keywords).
Local Abbreviation filter_coins :=
  (filter_coins upper fromisoformat blacklist_keywords).

(** The loop ends with the exception of the first record on which the
    filter, or the score of an accepted record, raises; when there is none
    it splits the records, in their order, into the accepted ones, each with
    its score, and the rejected ones. *)
Lemma filter_loop_spec (all_coins : list coin) :
  forall (filtered_coins : list coin) (filtered_out_coins : list rejected),
    filter_loop all_coins filtered_coins filtered_out_coins =
    match first_raise all_coins with
    | Some e => Raise e
    | None => Ok (filtered_coins ++ accepted_in_order all_coins,
                  filtered_out_coins ++ rejected_in_order all_coins)
    end.
Proof.
  induction all_coins as [|c rest IH]; intros acc out.
  - cbn. rewrite !app_nil_r. reflexivity.
  - cbn [filter_loop]. unfold first_raise, accepted_in_order, rejected_in_order.
    cbn [List.filter omap list_omap].
    unfold raises at 1, accepts at 1, rejection at 1.
    destruct (is_excellent_coin upper fromisoformat blacklist_keywords c)
      as [[[|] r]|e]; [| |reflexivity].
    + cbn [omap list_omap]. unfold scored at 1.
      destruct (calculate_score c) as [s|e]; [|reflexivity].
      rewrite IH. unfold first_raise.
      destruct (head (omap raises rest)); [reflexivity|].
      unfold accepted_in_order, rejected_in_order.
      rewrite <- app_assoc. reflexivity.
    + rewrite IH. unfold first_raise.
      destruct (head (omap raises rest)); [reflexivity|].
      unfold accepted_in_order, rejected_in_order.
      rewrite <- app_assoc. reflexivity.
Qed.

Lemma select_from_spec (all_coins : list coin) :
  select_from all_coins =
  match first_raise all_coins with
  | Some e => Raise e
  | None => Ok (stable_sort score_before (accepted_in_order all_coins),
                rejected_in_order all_coins)
  end.
Proof.
  unfold select_from. destruct all_coins as [|c rest]; [reflexivity|].
  rewrite filter_loop_spec. destruct (first_raise (c :: rest)); reflexivity.
Qed.

(** A record the filter accepts has a volume of 600000 at least. *)
Lemma accepts_volume (c : coin) :
  accepts c = true -> (600000 <= get_or (total_volume c) 0)%Q.
Proof.
  unfold accepts, is_excellent_coin.
  destruct (blacklist_hit _ _ _); [discriminate|].
  repeat match goal with
         | |- context [if ?x then Ok (false, _) else _] =>
             destruct x eqn:?; [discriminate|]
         end.
  intros _. apply Qlt_bool_false. assumption.
Qed.

(** The accepted records with their scores: each is a record of the input
    that the filter accepts, and its key is its score, a float that is not
    NaN. *)
Lemma accepted_in_order_scores (all_coins : list coin) :
  Forall (fun a => exists c0 s,
              In c0 all_coins /\ accepts c0 = true /\
              calculate_score c0 = Ok s /\
              a = set_excellent_score c0 s /\
              sort_key a = s /\ fle (Fin 0) s)
    (accepted_in_order all_coins).
Proof.
  apply List.Forall_forall. intros a Ha. unfold accepted_in_order in Ha.
  apply list_elem_of_In, list_elem_of_omap in Ha.
  destruct Ha as (c0 & Hin & Hsc).
  apply list_elem_of_In, filter_In in Hin. destruct Hin as [Hin Hacc].
  unfold scored in Hsc. destruct (calculate_score c0) as [s|e] eqn:Es;
    [|discriminate].
  injection Hsc as <-. exists c0, s.
  repeat (split; [first [assumption|reflexivity]|]).
  apply (calculate_score_comparable c0 s); [|exact Es].
  pose proof (accepts_volume c0 Hacc) as Hv.
  eapply Qle_trans; [|exact Hv]. discriminate.
Qed.

Lemma accepted_in_order_ranked (all_coins : list coin) :
  ranked (accepted_in_order all_coins)
    (stable_sort score_before (accepted_in_order all_coins)).
Proof.
  split; [apply stable_sort_perm|]. split.
  - apply stable_sort_score_sorted.
    eapply Forall_impl; [apply accepted_in_order_scores|].
    cbn beta. intros a (c0 & s & _ & _ & _ & _ & Hk & Hs). rewrite Hk.
    apply (fle_not_nan (Fin 0) s Hs).
  - intros v. unfold of_score. apply stable_sort_filter.
    intros x y. apply score_class_excludes.
Qed.


End SelectionFacts.


(** Scores are compared as the floats they are: of two records whose scores
    are both 3/5 in exact arithmetic, the second, whose float score is
    0.6000000000000001, is ranked before the first, whose float score is
    0.6. *)
Lemma rounded_scores_decide_order :
  exists lo hi : Q,
    calculate_score coin_lo = Ok (Fin lo) /\
    calculate_score coin_hi = Ok (Fin hi) /\
    (lo == 5404319552844595 # 9007199254740992)%Q /\
    (hi == 5404319552844596 # 9007199254740992)%Q /\
    select_from ascii_upper fromisoformat_basic [] [coin_lo; coin_hi]
    = Ok ([set_excellent_score coin_hi (Fin hi);
           set_excellent_score coin_lo (Fin lo)], []).
Proof.
  eexists. eexists.
  split; [vm_compute; reflexivity|].
  split; [vm_compute; reflexivity|].
  split; [reflexivity|]. split; [reflexivity|].
  vm_compute. reflexivity.
Qed.

(** * Further properties of fetch_coin_infos.py *)

(** ** [fetch_page] *)

(** X1.  When the first [n < 3] answers are failures that are retried and the
    next one is a list, [fetch_page] returns that list after [n + 1]
    requests; and whatever it returns that is not empty is the list of one of
    the first three answers, all answers before it having been retried. *)
Theorem fetch_page_returns_first_list (e : env) (page : Z) :
  let tr := transport e page in
  (forall (n : nat) (data : list coin),
      (n < 3)%nat ->
      (forall j : nat, (j < n)%nat -> is_Some (backoff (tr j))) ->
      tr n = JsonList data ->
      page_result e page = data /\
      List.length (attempts (page_events e page)) = S n) /\
  (page_result e page <> [] ->
   exists n : nat,
     (n < 3)%nat /\ tr n = JsonList (page_result e page) /\
     forall j : nat, (j < n)%nat -> is_Some (backoff (tr j))).
Proof.
  intros tr. unfold page_result, page_events. rewrite fetch_page_returns.
  fold tr. cbn [retry_policy]. split.
  - intros n data Hn Hprev Hlist.
    destruct n as [|[|[|n]]]; [| | |lia].
    + rewrite Hlist. split; reflexivity.
    + assert (H0 : is_Some (backoff (tr 0%nat))) by (apply Hprev; lia).
      rewrite Hlist.
      destruct (tr 0%nat); cbn in H0; try (destruct H0; discriminate);
        split; reflexivity.
    + assert (H0 : is_Some (backoff (tr 0%nat))) by (apply Hprev; lia).
      assert (H1 : is_Some (backoff (tr 1%nat))) by (apply Hprev; lia).
      rewrite Hlist.
      destruct (tr 0%nat); cbn in H0; try (destruct H0; discriminate);
        destruct (tr 1%nat); cbn in H1; try (destruct H1; discriminate);
        split; reflexivity.
  - intros Hne.
    assert (Hretry : forall r, is_Some (backoff r) \/ r = JsonNonList
                               \/ exists d, r = JsonList d).
    { intros []; cbn; eauto. }
    destruct (Hretry (tr 0%nat)) as [H0|[H0|[d0 H0]]].
    2:{ rewrite H0 in Hne. cbn in Hne. congruence. }
    2:{ exists 0%nat. rewrite H0. cbn. repeat split; [lia|]. intros j Hj. lia. }
    destruct (Hretry (tr 1%nat)) as [H1|[H1|[d1 H1]]].
    2:{ exfalso. apply Hne. rewrite H1.
        destruct (tr 0%nat); cbn in H0; try (destruct H0; discriminate);
          reflexivity. }
    2:{ exists 1%nat. rewrite H1.
        split; [lia|]. split.
        - destruct (tr 0%nat); cbn in H0; try (destruct H0; discriminate);
            reflexivity.
        - intros j Hj. replace j with 0%nat by lia. exact H0. }
    destruct (Hretry (tr 2%nat)) as [H2|[H2|[d2 H2]]].
    + exfalso. apply Hne.
      destruct (tr 0%nat); cbn in H0; try (destruct H0; discriminate);
        destruct (tr 1%nat); cbn in H1; try (destruct H1; discriminate);
        destruct (tr 2%nat); cbn in H2; try (destruct H2; discriminate);
        reflexivity.
    + exfalso. apply Hne. rewrite H2.
      destruct (tr 0%nat); cbn in H0; try (destruct H0; discriminate);
        destruct (tr 1%nat); cbn in H1; try (destruct H1; discriminate);
        reflexivity.
    + exists 2%nat. rewrite H2. split; [lia|]. split.
      * destruct (tr 0%nat); cbn in H0; try (destruct H0; discriminate);
          destruct (tr 1%nat); cbn in H1; try (destruct H1; discriminate);
          reflexivity.
      * intros j Hj. destruct j as [|[|j]]; [exact H0|exact H1|lia].
Qed.

(** One connection error, then the page: the page is returned after two
    requests. *)
Lemma fetch_page_returns_first_list_witness :
  page_result env_error_then_page 7 = [sample_coin] /\
  List.length (attempts (page_events env_error_then_page 7)) = 2%nat.
Proof.
  apply (proj1 (fetch_page_returns_first_list env_error_then_page 7) 1%nat);
    [lia| |reflexivity].
  intros j Hj. replace j with 0%nat by lia. cbn. eauto.
Defined.

(** X2.  A call of [fetch_page] issues at least one request and at most
    three, and sleeps at most 180 seconds; it sleeps 180 seconds exactly when
    the three answers are 429, the last 60 of them after the last request. *)
Theorem fetch_page_sleep_bound (e : env) (page : Z) :
  let log := page_events e page in
  (1 <= List.length (attempts log) <= 3)%nat /\
  0 <= total_sleep log <= 180 /\
  (total_sleep log = 180 <->
   transport e page 0%nat = Http429 /\ transport e page 1%nat = Http429 /\
   transport e page 2%nat = Http429) /\
  (total_sleep log = 180 -> last log = Some (EvSleep 60)).
Proof.
  cbn zeta. unfold page_events. rewrite fetch_page_returns. cbn [retry_policy].
  destruct (transport e page 0%nat), (transport e page 1%nat),
    (transport e page 2%nat); cbn;
    (split; [lia|]); (split; [lia|]);
    (split; [split; [intros H; try lia; repeat split; reflexivity
                    |intros (H0 & H1 & H2); try discriminate; reflexivity]
            |intros H; try lia; reflexivity]).
Qed.

(** ** [fetch_coin_infos] *)

Lemma resolve_start_page_pos (start_page : option Z) (w : world) :
  1 <= resolve_start_page start_page w.
Proof.
  unfold resolve_start_page, resume_page.
  destruct start_page as [p|]; [destruct (Z.ltb_spec 0 p); [lia|]|];
    destruct (Z.leb_spec 0 (stored_last_page w)); lia.
Qed.

(** X3.  Whatever the override and whatever the progress file holds, also a
    negative number, the run starts at a page that is at least 1, and no
    request, page file or progress update of the run is about a page
    below 1. *)
Theorem pages_at_least_one (fuel : nat) (max_pages start_page : option Z)
    (e : env) (w : world) :
  1 <= resolve_start_page start_page w /\
  Forall (fun ev => forall q, event_page ev = Some q -> 1 <= q)
    (trace (snd (fetch_coin_infos fuel max_pages start_page e w))).
Proof.
  pose proof (resolve_start_page_pos start_page w) as Hpos.
  split; [exact Hpos|].
  destruct (fetch_coin_infos fuel max_pages start_page e w) as [st s'] eqn:E.
  unfold fetch_coin_infos in E. apply run_loop_trace in E.
  destruct E as (new & Htr & Hall & _). cbn in Htr, Hall. cbn [snd].
  rewrite Htr. eapply Forall_impl; [exact Hall|].
  cbn. intros ev H q Hq. specialize (H q Hq). lia.
Qed.

(** X4.  With a page budget [m] the run handles at most [m] pages (none for
    a budget of 0 or below), and [m + 1] iterations are enough for it to
    stop. *)
Theorem budget_bounds_run (fuel : nat) (m : Z) (start_page : option Z)
    (e : env) (w : world) :
  let r := fetch_coin_infos fuel (Some m) start_page e w in
  0 <= fetched_pages (snd r) <= Z.max 0 m /\
  List.length (saved_pages (trace (snd r))) = Z.to_nat (fetched_pages (snd r)) /\
  ((Z.to_nat m < fuel)%nat -> fst r <> Running).
Proof.
  cbn zeta.
  destruct (fetch_coin_infos fuel (Some m) start_page e w) as [st s'] eqn:E.
  apply fetch_coin_infos_report in E. cbn [fst snd].
  destruct E as (k & Hf & Hc & Hl & Hsp & Hss & Hstored & Hother & Hprog
                 & Hnone & Hbud & Hfullp & Hcase).
  assert (Hk : Z.of_nat k <= Z.max 0 m).
  { destruct k as [|k]; [lia|].
    specialize (Hbud k ltac:(lia)). cbn in Hbud.
    apply Z.leb_gt in Hbud. lia. }
  split; [lia|]. split.
  { rewrite Hsp, length_seqZ, Hf. reflexivity. }
  intros Hfuel ->. destruct Hcase as (-> & _).
  specialize (Hbud (Z.to_nat m) Hfuel). cbn in Hbud.
  apply Z.leb_gt in Hbud. lia.
Qed.

(** A budget of two pages on a source of full pages: the run stops after
    two pages. *)
Lemma budget_bounds_run_witness :
  let r := fetch_coin_infos 3 (Some 2) None (env_pages_of 250) empty_world in
  fst r <> Running /\ fetched_pages (snd r) <= 2.
Proof.
  cbn zeta.
  destruct (budget_bounds_run 3 2 None (env_pages_of 250) empty_world)
    as (Hb & _ & Hstop).
  split; [apply Hstop; lia|]. lia.
Defined.

(** X5.  The value [fetch_coin_infos] returns is 0 exactly when the run
    handled no page, and then the files are as they were; otherwise it is the
    last page handled, at least 1, one below the page the run would fetch
    next. *)
Theorem return_value_zero_iff (fuel : nat) (max_pages start_page : option Z)
    (e : env) (w : world) :
  let s' := snd (fetch_coin_infos fuel max_pages start_page e w) in
  (last_fetched_page s' = 0 <-> fetched_pages s' = 0) /\
  (last_fetched_page s' = 0 -> files s' = w /\ saved_pages (trace s') = []) /\
  (last_fetched_page s' <> 0 ->
     1 <= last_fetched_page s' /\
     last_fetched_page s' = current_page s' - 1 /\
     (last_fetched_page s' ∈ saved_pages (trace s'))).
Proof.
  cbn zeta.
  destruct (fetch_coin_infos fuel max_pages start_page e w) as [st s'] eqn:E.
  apply fetch_coin_infos_report in E. cbn [snd].
  pose proof (resolve_start_page_pos start_page w) as Hpos.
  destruct E as (k & Hf & Hc & Hl & Hsp & Hss & Hstored & Hother & Hprog
                 & Hnone & Hbud & Hfullp & Hcase).
  destruct (decide (k = 0%nat)) as [->|Hk].
  - split; [split; intros _; lia|]. split.
    + intros _. split; [apply Hnone; reflexivity|]. rewrite Hsp. reflexivity.
    + intros H. lia.
  - split; [split; intros H; lia|]. split; [intros H; lia|].
    intros _. split; [lia|]. split; [lia|].
    rewrite Hsp, elem_of_seqZ. lia.
Qed.

Lemma attempts_app (l1 l2 : list event) :
  attempts (l1 ++ l2) = attempts l1 ++ attempts l2.
Proof. unfold attempts. apply List.filter_app. Qed.

Lemma page_events_attempts (e : env) (p : Z) :
  (List.length (attempts (page_events e p)) <= 3)%nat.
Proof.
  unfold page_events. rewrite fetch_page_returns.
  apply retry_policy_attempts.
Qed.

Lemma run_loop_requests (max_pages : option Z) (e : env) (fuel : nat) :
  forall (s : loop_state) (st : run_status) (s' : loop_state),
    run_loop fuel max_pages e s = (st, s') ->
    Z.of_nat (List.length (attempts (trace s')))
    <= Z.of_nat (List.length (attempts (trace s)))
       + 3 * (fetched_pages s' - fetched_pages s + 1).
Proof.
  induction fuel as [|fuel IH]; intros s st s' Hrun.
  - cbn in Hrun. injection Hrun as <- <-. lia.
  - cbn [run_loop] in Hrun. rewrite loop_body_cases in Hrun. cbn zeta in Hrun.
    pose proof (page_events_attempts e (current_page s)) as H3.
    destruct (budget_reached max_pages (fetched_pages s)).
    { injection Hrun as <- <-. lia. }
    destruct (decide (page_result e (current_page s) = [])).
    { injection Hrun as <- <-. cbn [trace fetched_pages].
      rewrite attempts_app, length_app. lia. }
    destruct (makedirs e (current_page s)).
    2:{ injection Hrun as <- <-. cbn [trace fetched_pages].
        rewrite attempts_app, length_app. lia. }
    destruct (Z.of_nat _ <? PER_PAGE).
    { injection Hrun as <- <-. cbn [trace fetched_pages].
      rewrite !attempts_app, !length_app. cbn. lia. }
    apply IH in Hrun. cbn [trace fetched_pages] in Hrun.
    rewrite !attempts_app, !length_app in Hrun. cbn in Hrun. lia.
Qed.

(** X6.  A run issues at most three requests for each page it handles and
    three for the page it stops at: with [n] pages handled, at most
    [3 * (n + 1)] requests in all. *)
Theorem run_request_bound (fuel : nat) (max_pages start_page : option Z)
    (e : env) (w : world) :
  let s' := snd (fetch_coin_infos fuel max_pages start_page e w) in
  Z.of_nat (List.length (attempts (trace s'))) <= 3 * (fetched_pages s' + 1).
Proof.
  cbn zeta.
  destruct (fetch_coin_infos fuel max_pages start_page e w) as [st s'] eqn:E.
  unfold fetch_coin_infos in E. apply run_loop_requests in E.
  cbn in E. cbn [snd]. lia.
Qed.

Lemma save_page_data_keeps_state (e : env) (p : Z) (coins : list coin)
    (w : world) :
  w_state (write_page_file e p coins w) = w_state w.
Proof. unfold write_page_file. destruct (page_write e p); reflexivity. Qed.

(** The progress file after a series of pages, when no progress write
    truncates it: as it was, or holding one of the pages. *)
Lemma process_pages_state (e : env) (k : nat) :
  (forall q, state_write e q <> WriteErrTruncated) ->
  forall (p : Z) (w : world),
    w_state (process_pages e p k w) = w_state w \/
    exists q, p <= q < p + Z.of_nat k /\
              w_state (process_pages e p k w) = StateDict (Some (JInt q)).
Proof.
  intros Hno. induction k as [|k IH]; intros p w; [left; reflexivity|].
  cbn [process_pages].
  destruct (IH (p + 1)
              (save_state e p (write_page_file e p (page_result e p) w)))
    as [H|(q & Hq & H)].
  - rewrite H. unfold save_state.
    destruct (state_write e p) eqn:Ew.
    + right. exists p. split; [lia|reflexivity].
    + left. apply save_page_data_keeps_state.
    + destruct (Hno p Ew).
  - right. exists q. split; [lia|exact H].
Qed.

(** X7.  Over a run without override in which no progress write fails after
    truncating the file, the stored last page does not decrease; it is the
    stored value of before or a page of this run. *)
Theorem progress_never_decreases (fuel : nat) (max_pages : option Z)
    (e : env) (w : world) :
  (forall q, state_write e q <> WriteErrTruncated) ->
  let s' := snd (fetch_coin_infos fuel max_pages None e w) in
  stored_last_page w <= stored_last_page (files s') /\
  (stored_last_page (files s') = stored_last_page w \/
   resolve_start_page None w <= stored_last_page (files s') < current_page s').
Proof.
  intros Hno. cbn zeta.
  destruct (fetch_coin_infos fuel max_pages None e w) as [st s'] eqn:E.
  unfold fetch_coin_infos in E. apply run_loop_spec in E.
  destruct E as (k & _ & _ & _ & Hc & _ & Hw & _).
  cbn [initial_state current_page files] in Hc, Hw. cbn [snd].
  assert (Hstart : stored_last_page w < resolve_start_page None w).
  { unfold resolve_start_page, resume_page.
    destruct (Z.leb_spec 0 (stored_last_page w)); lia. }
  rewrite Hw, Hc.
  destruct (process_pages_state e k Hno (resolve_start_page None w) w)
    as [H|(q & Hq & H)].
  - assert (Hsame : stored_last_page
                      (process_pages e (resolve_start_page None w) k w)
                    = stored_last_page w).
    { unfold stored_last_page, load_state. rewrite H. reflexivity. }
    rewrite Hsame. split; [lia|left; reflexivity].
  - assert (Hq' : stored_last_page
                    (process_pages e (resolve_start_page None w) k w) = q).
    { unfold stored_last_page, load_state. rewrite H. reflexivity. }
    rewrite Hq'. split; [lia|right; lia].
Qed.

(** Progress at page 5 and a run that cannot write the progress file: the
    stored last page stays where it was. *)
Lemma progress_never_decreases_witness :
  5 <= stored_last_page
         (files (snd (fetch_coin_infos 2 None None env_progress_fails world_at_5))).
Proof.
  refine (proj1 (progress_never_decreases 2 None env_progress_fails world_at_5 _)).
  intros q. cbn. discriminate.
Defined.

(** X8.  A run never writes a page file without records: every page file of
    the run whose write succeeded holds the records fetched for that page, at
    least one, and at least [PER_PAGE] of them unless it is the last page the
    run handled. *)
Theorem stored_pages_not_empty (fuel : nat) (max_pages start_page : option Z)
    (e : env) (w : world) :
  let s' := snd (fetch_coin_infos fuel max_pages start_page e w) in
  forall q,
    resolve_start_page start_page w <= q < current_page s' ->
    page_write e q = WriteOk ->
    exists coins,
      w_pages (files s') !! q = Some (PageCoins coins) /\
      coins = page_result e q /\ coins <> [] /\
      (q + 1 < current_page s' -> PER_PAGE <= Z.of_nat (List.length coins)).
Proof.
  cbn zeta.
  destruct (fetch_coin_infos fuel max_pages start_page e w) as [st s'] eqn:E.
  apply fetch_coin_infos_report in E. cbn [snd].
  set (p0 := resolve_start_page start_page w) in *.
  destruct E as (k & Hf & Hc & Hl & Hsp & Hss & Hstored & Hother & Hprog
                 & Hnone & Hbud & Hfullp & Hcase).
  intros q Hq Hok. exists (page_result e q).
  split; [apply Hstored; [lia|exact Hok]|]. split; [reflexivity|].
  assert (Hfull_ne : forall p, full_page e p -> page_result e p <> []).
  { intros p Hp Hnil. unfold full_page, PER_PAGE in Hp. rewrite Hnil in Hp.
    cbn in Hp. lia. }
  assert (Hj : exists j : nat, q = p0 + Z.of_nat j /\ (j < k)%nat).
  { exists (Z.to_nat (q - p0)). lia. }
  destruct Hj as (j & -> & Hjk). split.
  - destruct (decide (S j < k)%nat) as [Hlt|Hlast].
    + apply Hfull_ne, Hfullp, Hlt.
    + destruct st as [|[| |]|x].
      * apply Hfull_ne, Hcase, Hjk.
      * apply Hfull_ne, Hcase, Hjk.
      * apply Hfull_ne, Hcase, Hjk.
      * destruct Hcase as (k' & -> & Hshort).
        replace j with k' by lia. apply Hshort.
      * apply Hfull_ne, Hcase, Hjk.
  - intros Hnext. apply Hfullp. lia.
Qed.

(** On a source of pages of one record, page 1 is written with its record. *)
Lemma stored_pages_not_empty_witness :
  exists coins,
    w_pages (files (snd (fetch_coin_infos 2 None None env_one_record empty_world)))
      !! 1 = Some (PageCoins coins) /\ coins <> [].
Proof.
  destruct (stored_pages_not_empty 2 None None env_one_record empty_world 1)
    as (coins & H1 & _ & H2 & _); [vm_compute; split; congruence|reflexivity|].
  exists coins. split; assumption.
Defined.

(** * Further properties of select_coin.py *)

(** ** Aggregation *)

(** X9.  With a limit that is not negative, [get_all_coins] returns at most
    that many records whatever the cache and the page files hold; with a limit
    of 0 it returns none and writes nothing. *)
Theorem aggregation_limit_bound (o : write_outcome) (limit : Z) (st : store) :
  0 <= limit ->
  Z.of_nat (List.length (fst (get_all_coins o limit st))) <= limit /\
  (limit = 0 -> get_all_coins o limit st = ([], st)).
Proof.
  intros Hl. unfold get_all_coins.
  assert (Hre : Z.of_nat (List.length (fst (rebuild_from_pages o limit st)))
                <= limit /\
                (limit = 0 -> rebuild_from_pages o limit st = ([], st))).
  { rewrite rebuild_from_pages_eq. cbn zeta. cbn [fst]. split.
    - rewrite length_take. lia.
    - intros ->. cbn. reflexivity. }
  destruct (cache st) as [| |[|c cs]]; try exact Hre.
  cbn [fst]. split.
  - rewrite py_slice_to_length. destruct (Z.ltb_spec limit 0); lia.
  - intros ->. reflexivity.
Qed.

(** A limit of 2 on the store of three records. *)
Lemma aggregation_limit_bound_witness :
  Z.of_nat (List.length (fst (get_all_coins WriteOk 2 store_three))) <= 2.
Proof.
  exact (proj1 (aggregation_limit_bound WriteOk 2 store_three ltac:(lia))).
Defined.

(** X10.  Aggregation can be repeated: a second call with the same limit, on
    the files the first call left, returns the records the first call
    returned, whether the first call wrote the cache, failed to, or found
    one. *)
Theorem aggregation_repeatable (o o' : write_outcome) (limit : Z) (st : store) :
  fst (get_all_coins o' limit (snd (get_all_coins o limit st)))
  = fst (get_all_coins o limit st).
Proof.
  assert (Hre : forall o1 st0,
             pages_dir st0 = pages_dir st ->
             cache st0 = CacheMissing \/ cache st0 = CacheUnreadable
             \/ cache st0 = CacheCoins [] ->
             fst (get_all_coins o1 limit st0)
             = take (Z.to_nat limit) (page_concat st)).
  { intros o1 st0 Hp Hc. unfold get_all_coins.
    assert (Hpc : page_concat st0 = page_concat st)
      by (unfold page_concat; rewrite Hp; reflexivity).
    destruct Hc as [Hc|[Hc|Hc]]; rewrite Hc, rebuild_from_pages_eq; cbn zeta;
      cbn [fst]; rewrite Hpc; reflexivity. }
  destruct (cache st) as [| |[|c cs]] eqn:Ec.
  4:{ unfold get_all_coins. rewrite Ec. cbn [fst snd]. rewrite Ec. reflexivity. }
  all: rewrite (Hre o st eq_refl) by auto.
  all: assert (Hsnd : snd (get_all_coins o limit st)
                      = snd (rebuild_from_pages o limit st))
         by (unfold get_all_coins; rewrite Ec; reflexivity).
  all: rewrite Hsnd, rebuild_from_pages_eq; cbn zeta; cbn [snd].
  all: destruct (take (Z.to_nat limit) (page_concat st)) as [|c cs] eqn:E;
         [rewrite (Hre o' st eq_refl) by auto; reflexivity|].
  all: assert (Hpos : 0 < limit)
         by (destruct (Z.ltb_spec 0 limit); [assumption|];
             replace (Z.to_nat limit) with 0%nat in E by lia;
             rewrite take_0 in E; discriminate).
  all: destruct o; cbn [write_cache].
  all: try (rewrite (Hre o' st eq_refl) by auto; reflexivity).
  all: try (rewrite (Hre o') by (cbn; auto); reflexivity).
  all: unfold get_all_coins; cbn [cache fst];
         rewrite py_slice_to_nonneg by lia; rewrite <- E, take_take;
         f_equal; lia.
Qed.

Section StableSortFilter.

Context {A : Type} (before : A -> A -> bool).

Hypothesis before_neg_trans :
  forall a b c, before b a = false -> before c b = false -> before c a = false.

(** Inserting into a sorted list and then dropping elements is dropping them
    and then inserting. *)
Lemma insert_stable_filter_comm (P : A -> bool) (x : A) (l : list A) :
  StronglySorted (fun a b => before b a = false) l ->
  List.filter P (insert_stable before x l)
  = if P x then insert_stable before x (List.filter P l) else List.filter P l.
Proof.
  induction 1 as [|y ys Hs IH Hall]; cbn.
  - destruct (P x); reflexivity.
  - destruct (before y x) eqn:E; cbn.
    + rewrite IH. destruct (P y), (P x); cbn; rewrite ?E; reflexivity.
    + destruct (P x), (P y); cbn; rewrite ?E; try reflexivity.
      assert (Hhead : Forall (fun z => before z x = false) (List.filter P ys)).
      { apply Forall_forall. intros z Hz.
        apply list_elem_of_In, filter_In in Hz. destruct Hz as [Hz _].
        rewrite Forall_forall in Hall.
        apply (before_neg_trans x y z E). apply Hall, list_elem_of_In, Hz. }
      destruct (List.filter P ys) as [|z zs]; [reflexivity|].
      cbn. inversion Hhead as [|? ? Hz _]; subst. rewrite Hz. reflexivity.
Qed.

Hypothesis before_asym : forall a b, before a b = true -> before b a = false.

Lemma stable_sort_filter_comm (P : A -> bool) (l : list A) :
  List.filter P (stable_sort before l) = stable_sort before (List.filter P l).
Proof.
  induction l as [|x xs IH]; [reflexivity|].
  cbn [stable_sort List.filter].
  rewrite insert_stable_filter_comm
    by (apply stable_sort_sorted; assumption).
  rewrite IH. destruct (P x); reflexivity.
Qed.

End StableSortFilter.

Lemma page_before_asym (a b : Z * page_payload) :
  page_before a b = true -> page_before b a = false.
Proof. unfold page_before. lia. Qed.

Lemma page_before_neg_trans (a b c : Z * page_payload) :
  page_before b a = false -> page_before c b = false -> page_before c a = false.
Proof. unfold page_before. lia. Qed.

Lemma flat_map_coins_of_readable (l : list (Z * page_payload)) :
  List.flat_map coins_of (List.filter readable_page l)
  = List.flat_map coins_of l.
Proof.
  induction l as [|[n payload] rest IH]; [reflexivity|].
  cbn [List.filter]. unfold readable_page at 1. cbn [snd].
  destruct payload; cbn [List.flat_map]; rewrite IH; reflexivity.
Qed.

(** X11.  A page file that cannot be read, or whose "coins" is not a list,
    changes nothing in what is read from the other page files: the records
    read are those read with such files taken out of the directory. *)
Theorem corrupt_pages_skipped (limit : Z) (page_files : list (Z * page_payload))
    (c : cache_file) :
  _load_coins_from_local_pages limit (mkStore (Some page_files) c)
  = _load_coins_from_local_pages limit
      (mkStore (Some (List.filter readable_page page_files)) c).
Proof.
  rewrite !load_coins_from_local_pages_take. unfold page_concat. cbn [pages_dir].
  rewrite <- (stable_sort_filter_comm page_before page_before_neg_trans
                page_before_asym).
  rewrite flat_map_coins_of_readable. reflexivity.
Qed.

Lemma sorted_pages_strict (l : list (Z * page_payload)) :
  NoDup (List.map fst l) ->
  StronglySorted (fun a b => fst a <= fst b) l ->
  StronglySorted (fun a b => fst a < fst b) l.
Proof.
  intros Hnd Hs. induction Hs as [|a l Hs IH Hall]; constructor.
  - apply IH. apply NoDup_cons in Hnd. apply Hnd.
  - apply NoDup_cons in Hnd. destruct Hnd as [Hnotin _].
    rewrite Forall_forall in *. intros b Hb. specialize (Hall b Hb).
    destruct (Z.eq_dec (fst a) (fst b)) as [Heq|Hne]; [|lia].
    exfalso. apply Hnotin. rewrite Heq.
    apply list_elem_of_In, in_map, list_elem_of_In, Hb.
Qed.

(** Two listings of the same page files, no page number twice, sort to the
    same list. *)
Lemma stable_sort_pages_perm (l1 l2 : list (Z * page_payload)) :
  Permutation l1 l2 ->
  NoDup (List.map fst l1) ->
  stable_sort page_before l1 = stable_sort page_before l2.
Proof.
  intros Hperm Hnd.
  destruct (pages_sorted l1) as [Hs1 Hp1]. destruct (pages_sorted l2) as [Hs2 Hp2].
  assert (Hnd1 : NoDup (List.map fst (stable_sort page_before l1))).
  { rewrite (Permutation_map fst Hp1). exact Hnd. }
  assert (Hnd2 : NoDup (List.map fst (stable_sort page_before l2))).
  { rewrite (Permutation_map fst Hp2), <- (Permutation_map fst Hperm).
    exact Hnd. }
  apply (StronglySorted_unique_strong (fun a b => fst a < fst b)).
  - intros x1 x2 _ _ H12 H21. lia.
  - apply sorted_pages_strict; assumption.
  - apply sorted_pages_strict; assumption.
  - rewrite Hp1, Hp2. exact Hperm.
Qed.

(** X12.  When no page number occurs twice, the order in which the directory
    lists the page files does not matter: two listings of the same files give
    the same records, in page-number order. *)
Theorem listing_order_irrelevant (o : write_outcome) (limit : Z)
    (files1 files2 : list (Z * page_payload)) (c : cache_file) :
  Permutation files1 files2 ->
  NoDup (List.map fst files1) ->
  _load_coins_from_local_pages limit (mkStore (Some files1) c)
  = _load_coins_from_local_pages limit (mkStore (Some files2) c) /\
  fst (get_all_coins o limit (mkStore (Some files1) c))
  = fst (get_all_coins o limit (mkStore (Some files2) c)).
Proof.
  intros Hperm Hnd.
  assert (Hpc : page_concat (mkStore (Some files1) c)
                = page_concat (mkStore (Some files2) c)).
  { unfold page_concat. cbn [pages_dir].
    rewrite (stable_sort_pages_perm files1 files2 Hperm Hnd). reflexivity. }
  split.
  - rewrite !load_coins_from_local_pages_take, Hpc. reflexivity.
  - unfold get_all_coins. cbn [cache].
    destruct c as [| |[|c0 cs]]; try reflexivity;
      rewrite !rebuild_from_pages_eq; cbn zeta; cbn [fst]; rewrite Hpc;
      reflexivity.
Qed.

(** Two listings of pages 1, 2 and 3 give the records of page 1, then those
    of page 2. *)
Lemma listing_order_irrelevant_witness :
  _load_coins_from_local_pages 10 store_unordered
  = _load_coins_from_local_pages 10 store_reordered /\
  _load_coins_from_local_pages 10 store_unordered = [sample_coin; coin_usd].
Proof.
  split; [|reflexivity].
  refine (proj1 (listing_order_irrelevant WriteOk 10 _ _ CacheMissing _ _)).
  - apply Permutation_rev.
  - cbn. repeat constructor; rewrite ?elem_of_cons, ?elem_of_nil; lia.
Defined.

(** ** From the fetcher's page files to the aggregate *)

Lemma process_pages_lookup (e : env) (k : nat) (p q : Z) (w : world) :
  w_pages w = ∅ ->
  (forall q, page_write e q = WriteOk) ->
  w_pages (process_pages e p k w) !! q
  = if decide (p <= q < p + Z.of_nat k)
    then Some (PageCoins (page_result e q)) else None.
Proof.
  intros Hempty Hok. destruct (decide (p <= q < p + Z.of_nat k)) as [Hin|Hout].
  - apply process_pages_stored; [exact Hin|apply Hok].
  - rewrite process_pages_other by exact Hout. rewrite Hempty.
    apply lookup_empty.
Qed.

Lemma pages_in_order_sorted (f : Z -> page_payload) (k : nat) :
  forall p : Z,
    StronglySorted (fun a b : Z * page_payload => fst a < fst b)
      (List.map (fun q => (q, f q)) (seqZ p (Z.of_nat k))).
Proof.
  induction k as [|k IH]; intros p.
  - rewrite seqZ_nil by lia. constructor.
  - rewrite seqZ_cons by lia.
    replace (Z.pred (Z.of_nat (S k))) with (Z.of_nat k) by lia.
    cbn [List.map]. constructor; [apply IH|].
    apply Forall_forall. intros [q v] Hin.
    apply list_elem_of_In, in_map_iff in Hin. destruct Hin as (q' & Heq & Hq').
    injection Heq as <- <-. apply list_elem_of_In, elem_of_seqZ in Hq'.
    cbn. lia.
Qed.

Lemma flat_map_pages_in_order (g : Z -> list coin) (l : list Z) :
  List.flat_map coins_of (List.map (fun q => (q, PageCoins (g q))) l)
  = List.flat_map g l.
Proof.
  induction l as [|q l IH]; [reflexivity|].
  cbn [List.map List.flat_map]. rewrite IH. reflexivity.
Qed.

(** X13.  What the fetcher stores, the selection reads back: after a run
    that started with no page files and whose page writes all succeeded,
    aggregation without a cache, whatever the order in which the directory
    lists the files, returns the records fetched for the pages of the run,
    page after page in page order, cut at the limit. *)
Theorem fetched_pages_aggregate (fuel : nat) (max_pages start_page : option Z)
    (e : env) (w : world) (listing : list (Z * page_payload))
    (o : write_outcome) (limit : Z) :
  w_pages w = ∅ ->
  (forall q, page_write e q = WriteOk) ->
  let s' := snd (fetch_coin_infos fuel max_pages start_page e w) in
  Permutation listing (map_to_list (w_pages (files s'))) ->
  fst (get_all_coins o limit (mkStore (Some listing) CacheMissing))
  = take (Z.to_nat limit)
      (List.flat_map (page_result e)
         (seqZ (resolve_start_page start_page w) (fetched_pages s'))).
Proof.
  intros Hempty Hok. cbn zeta.
  destruct (fetch_coin_infos fuel max_pages start_page e w) as [st s'] eqn:E.
  unfold fetch_coin_infos in E. apply run_loop_spec in E.
  destruct E as (k & _ & _ & Hf & _ & _ & Hw & _).
  cbn [initial_state current_page fetched_pages files] in Hf, Hw. cbn [snd].
  set (p0 := resolve_start_page start_page w) in *.
  replace (fetched_pages s') with (Z.of_nat k) by lia.
  intros Hperm.
  set (canon := List.map (fun q => (q, PageCoins (page_result e q)))
                  (seqZ p0 (Z.of_nat k))).
  assert (Hcanon : Permutation (map_to_list (w_pages (files s'))) canon).
  { apply NoDup_Permutation.
    - apply NoDup_map_to_list.
    - apply (NoDup_fmap_1 fst). change (NoDup (List.map fst canon)).
      unfold canon. rewrite List.map_map. cbn [fst]. rewrite List.map_id.
      apply NoDup_seqZ.
    - intros [q v]. rewrite elem_of_map_to_list, Hw.
      rewrite (process_pages_lookup e k p0 q w Hempty Hok).
      unfold canon. rewrite list_elem_of_In, in_map_iff.
      destruct (decide (p0 <= q < p0 + Z.of_nat k)) as [Hin|Hout]; split.
      + intros H. injection H as <-. exists q. split; [reflexivity|].
        apply list_elem_of_In, elem_of_seqZ. exact Hin.
      + intros (q' & Heq & _). injection Heq as -> <-. reflexivity.
      + discriminate.
      + intros (q' & Heq & Hq'). injection Heq as -> <-.
        apply list_elem_of_In, elem_of_seqZ in Hq'. contradiction. }
  assert (Hnd : NoDup (List.map fst listing)).
  { rewrite (Permutation_map fst Hperm). apply NoDup_fst_map_to_list. }
  assert (Hsort : stable_sort page_before listing = canon).
  { rewrite (stable_sort_pages_perm listing canon) by
      (try exact Hnd; rewrite Hperm; exact Hcanon).
    destruct (pages_sorted canon) as [Hs Hp].
    apply (StronglySorted_unique_strong (fun a b => fst a < fst b)).
    - intros x1 x2 _ _ H12 H21. lia.
    - apply sorted_pages_strict; [|exact Hs].
      rewrite (Permutation_map fst Hp).
      rewrite <- (Permutation_map fst Hcanon). apply NoDup_fst_map_to_list.
    - apply pages_in_order_sorted.
    - exact Hp. }
  unfold get_all_coins. cbn [cache]. rewrite rebuild_from_pages_eq.
  cbn zeta. cbn [fst]. unfold page_concat. cbn [pages_dir].
  rewrite Hsort. unfold canon. rewrite flat_map_pages_in_order. reflexivity.
Qed.

(** A run that stores page 1, then aggregation of the directory it left. *)
Lemma fetched_pages_aggregate_witness :
  fst (get_all_coins WriteOk 10
         (mkStore (Some [(1, PageCoins [sample_coin])]) CacheMissing))
  = take 10
      (List.flat_map (page_result env_one_record)
         (seqZ 1 (fetched_pages
                    (snd (fetch_coin_infos 2 None None env_one_record
                            empty_world))))).
Proof.
  apply (fetched_pages_aggregate 2 None None env_one_record empty_world
           [(1, PageCoins [sample_coin])] WriteOk 10).
  - reflexivity.
  - intros q. reflexivity.
  - vm_compute. reflexivity.
Defined.

(** ** The filter *)

Section FilterMore.

Variable upper : string -> string.
Variable fromisoformat : string -> option datetime.
Variable blacklist_keywords : list string.

(** X14.  The filter accepts with no reason and rejects with one; and a
    record it accepts is not on the blacklist, has neither USD nor STAKED in
    its uppercased name or symbol, a market cap between the floor and the
    ceiling, a volume of at least 600000, a 24h change of at least -20 and,
    when present, an all-time-high change of at least -98. *)
Theorem accepted_within_bounds (c : coin) (b : bool)
    (r : option filter_reason) :
  is_excellent_coin upper fromisoformat blacklist_keywords c = Ok (b, r) ->
  (b = true <-> r = None) /\
  (b = true ->
   let name := upper (default EmptyString (name c)) in
   let symbol := upper (default EmptyString (symbol c)) in
   blacklist_hit blacklist_keywords name symbol = None /\
   str_in "USD" name = false /\ str_in "STAKED" name = false /\
   str_in "USD" symbol = false /\ str_in "STAKED" symbol = false /\
   (MARKET_CAP_MIN <= get_or (market_cap c) 0)%Q /\
   (get_or (market_cap c) 0 <= MARKET_CAP_MAX)%Q /\
   (600000 <= get_or (total_volume c) 0)%Q /\
   (-20 <= get_or (price_change_percentage_24h c) 0)%Q /\
   (forall p, ath_change_percentage c = Some p -> (-98 <= p)%Q)).
Proof.
  rewrite is_excellent_coin_first_failing.
  unfold first_failing, rules_before_ath, verdict, rule_order.
  cbn [List.find app rule_fails].
  destruct (blacklist_hit blacklist_keywords _ _) as [kw|] eqn:Ebl.
  { intros H. injection H as <- <-. split; [split; discriminate|discriminate]. }
  destruct (str_in "USD" _ || _ || _ || _ || _ || _) eqn:Estable.
  { intros H. injection H as <- <-. split; [split; discriminate|discriminate]. }
  destruct (Qlt_bool MARKET_CAP_MAX _) eqn:Emax.
  { intros H. injection H as <- <-. split; [split; discriminate|discriminate]. }
  destruct (Qlt_bool _ MARKET_CAP_MIN) eqn:Emin.
  { intros H. injection H as <- <-. split; [split; discriminate|discriminate]. }
  destruct (Qlt_bool _ 600000) eqn:Evol.
  { intros H. injection H as <- <-. split; [split; discriminate|discriminate]. }
  destruct (Qlt_bool _ (-20)) eqn:Edrop.
  { intros H. injection H as <- <-. split; [split; discriminate|discriminate]. }
  destruct (date_comparison_raises fromisoformat c); [discriminate|].
  unfold first_failing, rules_before_ath. cbn [List.find app].
  assert (H1 : rule_fails upper fromisoformat blacklist_keywords
                 RuleBlacklist c = false)
    by (cbn [rule_fails]; rewrite Ebl; reflexivity).
  assert (H2 : rule_fails upper fromisoformat blacklist_keywords
                 RuleStablecoin c = false) by exact Estable.
  assert (H3 : rule_fails upper fromisoformat blacklist_keywords
                 RuleCapCeiling c = false) by exact Emax.
  assert (H4 : rule_fails upper fromisoformat blacklist_keywords
                 RuleCapFloor c = false) by exact Emin.
  assert (H5 : rule_fails upper fromisoformat blacklist_keywords
                 RuleVolume c = false) by exact Evol.
  assert (H6 : rule_fails upper fromisoformat blacklist_keywords
                 RuleDrop24h c = false) by exact Edrop.
  rewrite H1, H2, H3, H4, H5, H6.
  destruct (rule_fails upper fromisoformat blacklist_keywords RuleStaleATH c).
  { intros H. injection H as <- <-. split; [split; discriminate|discriminate]. }
  destruct (rule_fails upper fromisoformat blacklist_keywords
              RuleATHDrawdown c) eqn:Eath.
  { intros H. injection H as <- <-. split; [split; discriminate|discriminate]. }
  cbn [rule_fails] in Eath.
  intros H. injection H as <- <-. split; [split; reflexivity|]. intros _.
  cbn zeta. rewrite !orb_false_iff in Estable.
  destruct Estable as (((((E1 & _) & E3) & E4) & _) & E6).
  repeat (split; [first [assumption|reflexivity]|]).
  split; [apply Qlt_bool_false; exact Emin|].
  split; [apply Qlt_bool_false; exact Emax|].
  split; [apply Qlt_bool_false; exact Evol|].
  split; [apply Qlt_bool_false; exact Edrop|].
  intros p Hp. rewrite Hp in Eath. apply Qlt_bool_false. exact Eath.
Qed.

(** X16.  A record whose date is empty or does not parse is judged as the
    same record without date: the [ValueError] is caught and the staleness
    rule passed over. *)
Theorem unparseable_date_ignored (c : coin) (s : string) :
  ath_date c = Some s ->
  s = EmptyString \/ fromisoformat (replace_Z s) = None ->
  is_excellent_coin upper fromisoformat blacklist_keywords c
  = is_excellent_coin upper fromisoformat blacklist_keywords (clear_ath_date c).
Proof.
  intros Hs Hbad. unfold is_excellent_coin, check_ath_date.
  cbn [clear_ath_date name symbol market_cap total_volume
         price_change_percentage_24h ath_date].
  rewrite Hs.
  assert (Hdd : check_ath_drawdown (clear_ath_date c) = check_ath_drawdown c)
    by reflexivity.
  rewrite Hdd.
  assert (Hrule : match s with
                  | EmptyString => check_ath_drawdown c
                  | String _ _ =>
                      match fromisoformat (replace_Z s) with
                      | Some d =>
                          match fromisoformat "2023-01-01T00:00:00+00:00" with
                          | Some cutoff =>
                              match datetime_lt d cutoff with
                              | Ok lt =>
                                  if lt && match ath_change_percentage c with
                                           | Some p => Qlt_bool p (-95)
                                           | None => true
                                           end
                                  then Ok (false,
                                           Some (ReasonStaleATH s
                                                   (ath_change_percentage c)))
                                  else check_ath_drawdown c
                              | Raise e => Raise e
                              end
                          | None => check_ath_drawdown c
                          end
                      | None => check_ath_drawdown c
                      end
                  end = check_ath_drawdown c).
  { destruct Hbad as [->|Hnone]; [reflexivity|]. rewrite Hnone.
    destruct s; reflexivity. }
  destruct s as [|ch s']; [reflexivity|]. rewrite Hrule. reflexivity.
Qed.

End FilterMore.

(** The two properties on sample records. *)
Lemma accepted_within_bounds_witness :
  (MARKET_CAP_MIN <= get_or (market_cap sample_coin) 0)%Q /\
  (get_or (market_cap sample_coin) 0 <= MARKET_CAP_MAX)%Q.
Proof.
  destruct (accepted_within_bounds ascii_upper fromisoformat_basic []
              sample_coin true None eq_refl) as (_ & H).
  destruct (H eq_refl) as (_ & _ & _ & _ & _ & Hmin & Hmax & _).
  split; assumption.
Defined.

Lemma unparseable_date_ignored_witness :
  is_excellent_coin ascii_upper fromisoformat_basic [] coin_bad_date
  = is_excellent_coin ascii_upper fromisoformat_basic []
      (clear_ath_date coin_bad_date).
Proof.
  apply (unparseable_date_ignored ascii_upper fromisoformat_basic []
           coin_bad_date "yesterday" eq_refl).
  right. reflexivity.
Defined.

(** ** The blacklist file *)

Section BlacklistFile.

Variable upper : string -> string.
Variable strip : string -> string.
Variable fromisoformat : string -> option datetime.

(** The keywords are the stripped, uppercased lines that are neither blank
    nor comments. *)
Lemma blacklist_lines_In (lines : list string) (kw : string) :
  In kw (blacklist_lines upper strip lines) <->
  exists line, In line lines /\ strip line <> EmptyString /\
               String.prefix "#" (strip line) = false /\
               kw = upper (strip line).
Proof.
  induction lines as [|l rest IH]; cbn [blacklist_lines In].
  - split; [intros []|intros (line & [] & _)].
  - destruct (String.eqb_spec (strip l) EmptyString) as [He|Hne]; cbn [orb].
    + rewrite IH. split.
      * intros (line & Hin & H). exists line. split; [right; exact Hin|exact H].
      * intros (line & [<-|Hin] & Hn & H); [contradiction|].
        exists line. split; [exact Hin|]. split; assumption.
    + destruct (String.prefix "#" (strip l)) eqn:Ep.
      * rewrite IH. split.
        -- intros (line & Hin & H). exists line.
           split; [right; exact Hin|exact H].
        -- intros (line & [<-|Hin] & Hn & Hp & H); [congruence|].
           exists line. repeat split; assumption.
      * cbn [In]. rewrite IH. split.
        -- intros [<-|(line & Hin & H)].
           ++ exists l. repeat split; auto.
           ++ exists line. split; [right; exact Hin|exact H].
        -- intros (line & [<-|Hin] & Hn & Hp & H).
           ++ left. symmetry. exact H.
           ++ right. exists line. repeat split; assumption.
Qed.

(** The blacklist check reports a keyword exactly when one of the keywords
    is the name or the symbol. *)
Lemma blacklist_hit_Some (keywords : list string) (name symbol : string) :
  (exists kw, blacklist_hit keywords name symbol = Some kw) <->
  exists kw, In kw keywords /\ (kw = name \/ kw = symbol).
Proof.
  induction keywords as [|k rest IH]; cbn [blacklist_hit In].
  - split; [intros (kw & H); discriminate|intros (kw & [] & _)].
  - destruct (String.eqb_spec k name) as [->|Hn]; cbn [orb].
    { split; [|eauto]. intros _. exists name. auto. }
    destruct (String.eqb_spec symbol k) as [->|Hs].
    { split; [|eauto]. intros _. exists k. auto. }
    rewrite IH. split.
    + intros (kw & Hin & H). exists kw. auto.
    + intros (kw & [<-|Hin] & H).
      * destruct H; congruence.
      * exists kw. auto.
Qed.

(** X17.  With the keywords read from blacklist.txt, a record is rejected
    for the blacklist exactly when the file exists and one of its lines that
    is neither blank nor a comment is, once stripped and uppercased, equal to
    the uppercased name or symbol of the record; the keyword reported is one
    of the file's.  Without the file no record is rejected for the
    blacklist. *)
Theorem blacklist_file_rejects (file : option (list string)) (c : coin) :
  let keywords := _load_blacklist_keywords upper strip file in
  let name := upper (default EmptyString (name c)) in
  let symbol := upper (default EmptyString (symbol c)) in
  ((exists kw, is_excellent_coin upper fromisoformat keywords c
               = Ok (false, Some (ReasonBlacklist kw))) <->
   exists lines line,
     file = Some lines /\ In line lines /\
     strip line <> EmptyString /\ String.prefix "#" (strip line) = false /\
     (upper (strip line) = name \/ upper (strip line) = symbol)) /\
  (forall kw, is_excellent_coin upper fromisoformat keywords c
              = Ok (false, Some (ReasonBlacklist kw)) ->
              In kw keywords /\ (kw = name \/ kw = symbol)).
Proof.
  intros keywords name symbol.
  assert (Hhit : forall kw,
             is_excellent_coin upper fromisoformat keywords c
             = Ok (false, Some (ReasonBlacklist kw)) <->
             blacklist_hit keywords name symbol = Some kw).
  { intros kw. rewrite is_excellent_coin_first_failing.
    unfold first_failing, rules_before_ath. cbn [List.find rule_fails].
    fold name symbol.
    destruct (blacklist_hit keywords name symbol) as [k|] eqn:Ebl.
    - cbn [rule_reason]. fold name symbol. rewrite Ebl.
      change (default EmptyString (Some k)) with k.
      split; intros H; congruence.
    - split; [|discriminate]. intros H. exfalso.
      destruct (str_in "USD" _ || _ || _ || _ || _ || _); [discriminate|].
      destruct (Qlt_bool MARKET_CAP_MAX _); [discriminate|].
      destruct (Qlt_bool _ MARKET_CAP_MIN); [discriminate|].
      destruct (Qlt_bool _ 600000); [discriminate|].
      destruct (Qlt_bool _ (-20)); [discriminate|].
      destruct (date_comparison_raises fromisoformat c); [discriminate|].
      unfold verdict, first_failing, rule_order, rules_before_ath in H.
      cbn [List.find app] in H.
      assert (H1 : rule_fails upper fromisoformat keywords RuleBlacklist c
                   = false).
      { cbn [rule_fails]. fold name symbol. rewrite Ebl. reflexivity. }
      rewrite H1 in H.
      repeat match type of H with
             | context [rule_fails ?u ?f ?k ?r c] =>
                 destruct (rule_fails u f k r c); [discriminate|]
             end.
      discriminate. }
  assert (Hsound : forall kw,
             blacklist_hit keywords name symbol = Some kw ->
             In kw keywords /\ (kw = name \/ kw = symbol)).
  { intros kw. clear Hhit. generalize keywords.
    induction keywords0 as [|k rest IH]; cbn [blacklist_hit In]; [discriminate|].
    destruct (String.eqb_spec k name) as [->|Hn]; cbn [orb].
    { intros [= <-]. auto. }
    destruct (String.eqb_spec symbol k) as [->|Hs].
    { intros [= <-]. auto. }
    intros H. destruct (IH H). auto. }
  split.
  - split.
    + intros (kw & H). apply Hhit in H.
      destruct (Hsound kw H) as (Hin & Heq).
      unfold keywords, _load_blacklist_keywords in Hin.
      destruct file as [lines|]; [|destruct Hin].
      apply blacklist_lines_In in Hin.
      destruct Hin as (line & Hin & Hn & Hp & ->).
      exists lines, line. repeat split; assumption.
    + intros (lines & line & -> & Hin & Hn & Hp & Heq).
      destruct (proj2 (blacklist_hit_Some keywords name symbol)) as (kw & Hkw).
      { exists (upper (strip line)). split; [|exact Heq].
        apply blacklist_lines_In. exists line. repeat split; assumption. }
      exists kw. apply Hhit. exact Hkw.
  - intros kw H. apply Hsound, Hhit, H.
Qed.

End BlacklistFile.

(** The sample blacklist file rejects the record named Alpha, by the keyword
    of its third line. *)
Lemma blacklist_file_rejects_witness :
  is_excellent_coin ascii_upper fromisoformat_basic
    (_load_blacklist_keywords ascii_upper ascii_strip (Some blacklist_file))
    coin_alpha
  = Ok (false, Some (ReasonBlacklist "ALPHA")) /\
  In "ALPHA"%string
    (_load_blacklist_keywords ascii_upper ascii_strip (Some blacklist_file)).
Proof.
  split; [reflexivity|].
  apply (proj2 (blacklist_file_rejects ascii_upper ascii_strip
                  fromisoformat_basic (Some blacklist_file) coin_alpha)
           "ALPHA"%string).
  reflexivity.
Defined.

(** ** The score *)

Section Monotone.

Local Open Scope Q_scope.

Lemma weight_positive (w : Q) :
  float_lit 0.4 = Fin w \/ float_lit 0.3 = Fin w \/ float_lit 0.2 = Fin w ->
  0 < w.
Proof.
  intros [H|[H|H]]; vm_compute in H; injection H as <-; reflexivity.
Qed.

Lemma fle_nonneg_PInf (a : float) : fle (Fin 0) a -> fle a PInf.
Proof. destruct a; cbn; tauto. Qed.

Lemma fmul_mono (a b : float) (w : Q) :
  fle (Fin 0) a -> fle a b -> 0 < w ->
  fle (fmul a (Fin w)) (fmul b (Fin w)).
Proof.
  intros Ha Hab Hw.
  assert (E : Qeq_bool w 0 = false).
  { apply not_true_iff_false. rewrite Qeq_bool_iff. lra. }
  assert (E' : Qlt_bool w 0 = false) by (apply Qlt_bool_false; lra).
  destruct a as [x| | |], b as [y| | |]; cbn [fle] in Ha, Hab; try tauto;
    cbn [fmul]; rewrite ?E, ?E'; cbn [inf_of_sign fle]; try exact I.
  - apply round64_mono. apply Qmult_le_compat_r; lra.
  - apply fle_nonneg_PInf, round64_nonneg. apply Qmult_le_0_compat; lra.
Qed.

Lemma fdiv_mono (a b : float) (d : Q) (ra rb : float) :
  fle (Fin 0) a -> fle a b -> 0 < d ->
  fdiv a (Fin d) = Ok ra -> fdiv b (Fin d) = Ok rb -> fle ra rb.
Proof.
  intros Ha Hab Hd. unfold fdiv.
  assert (E : Qeq_bool d 0 = false).
  { apply not_true_iff_false. rewrite Qeq_bool_iff. lra. }
  assert (E' : Qlt_bool d 0 = false) by (apply Qlt_bool_false; lra).
  assert (Hinv : 0 < / d) by (apply Qinv_lt_0_compat; exact Hd).
  rewrite E.
  destruct a as [x| | |], b as [y| | |]; cbn [fle] in Ha, Hab; try tauto;
    rewrite ?E'; cbn [inf_of_sign]; intros H1 H2;
    injection H1 as <-; injection H2 as <-; cbn [fle]; try exact I.
  - apply round64_mono. unfold Qdiv. apply Qmult_le_compat_r; lra.
  - apply fle_nonneg_PInf, round64_nonneg. unfold Qdiv.
    apply Qmult_le_0_compat; lra.
Qed.

Lemma py_min_mono (a b : float) :
  fle a b -> fle (py_min a 10) (py_min b 10).
Proof.
  unfold py_min.
  destruct a as [x| | |], b as [y| | |]; cbn [fle flt]; try tauto; intros H;
    repeat match goal with
           | |- context [Qlt_bool ?u ?v] => destruct (Qlt_bool u v) eqn:?
           end;
    cbn [fle];
    repeat match goal with
           | E : Qlt_bool _ _ = true |- _ => apply Qlt_bool_iff in E
           | E : Qlt_bool _ _ = false |- _ => apply Qlt_bool_false in E
           end;
    first [exact I|lra].
Qed.

Lemma capped_score_mono (a b : float) (w w' : Q) :
  float_lit w = Fin w' -> 0 < w' ->
  fle (Fin 0) a -> fle a b ->
  fle (capped_score a w) (capped_score b w).
Proof.
  intros Hw Hw' Ha Hab. unfold capped_score. rewrite Hw.
  apply fmul_mono; [|apply py_min_mono; exact Hab|exact Hw'].
  exact (proj1 (proj1 (float_between_fle 0 10 _) (py_min_between a Ha))).
Qed.

Lemma fadd_mono (a a' b b' : float) :
  fle (Fin 0) a -> fle a a' -> fle (Fin 0) b -> fle b b' ->
  fle (fadd a b) (fadd a' b').
Proof.
  intros Ha Haa Hb Hbb.
  destruct a as [x| | |], a' as [x'| | |]; cbn [fle] in Ha, Haa; try tauto;
    destruct b as [y| | |], b' as [y'| | |]; cbn [fle] in Hb, Hbb; try tauto;
    cbn [fadd fle]; try exact I;
    try (apply fle_nonneg_PInf, round64_nonneg; lra).
  apply round64_mono. lra.
Qed.

(** The quotient by a small positive [int] is the float nearest to the
    exact quotient, whether the number divided is an [int] or a float. *)
Lemma truediv_scale (a : num) (k : Z) (r : float) :
  (0 < k < 2 ^ 53)%Z ->
  truediv a (Int k) = Ok r -> r = round64 (a / inject_Z k).
Proof.
  intros Hk. unfold truediv. destruct a as [x|x]; cbn [num_value].
  - destruct (Z.eqb_spec k 0) as [->|_]; [lia|].
    destruct (round64 (inject_Z x / inject_Z k)); congruence.
  - cbn [to_float]. unfold float_of_int.
    rewrite round64_small_int by lia. unfold fdiv.
    assert (E : Qeq_bool (inject_Z k) 0 = false).
    { apply not_true_iff_false. rewrite Qeq_bool_iff.
      change 0 with (inject_Z 0). rewrite inject_Z_injective. lia. }
    rewrite E. congruence.
Qed.

Lemma truediv_mono (a1 a2 b : num) (r1 r2 : float) :
  same_kind a1 a2 -> a1 <= a2 -> 0 < b ->
  truediv a1 b = Ok r1 -> truediv a2 b = Ok r2 -> fle r1 r2.
Proof.
  intros Hkind H12 Hb.
  assert (Hmixed : forall x1 x2 : Q,
             x1 <= x2 ->
             forall fb, to_float b = Ok fb ->
             fdiv (Fin x1) fb = Ok r1 -> fdiv (Fin x2) fb = Ok r2 ->
             fle r1 r2).
  { intros x1 x2 Hx fb Hfb.
    destruct (to_float_sign b fb Hfb) as (y & -> & _ & _ & Hy).
    specialize (Hy Hb). unfold fdiv.
    assert (E : Qeq_bool y 0 = false).
    { apply not_true_iff_false. rewrite Qeq_bool_iff. lra. }
    rewrite E. intros H1 H2. injection H1 as <-. injection H2 as <-.
    apply round64_mono. unfold Qdiv. apply Qmult_le_compat_r; [exact Hx|].
    apply Qlt_le_weak, Qinv_lt_0_compat, Hy. }
  unfold truediv.
  destruct a1 as [x1|x1], a2 as [x2|x2]; cbn [same_kind] in Hkind;
    try contradiction; cbn [num_value] in H12.
  - destruct b as [y|y]; cbn [num_value] in Hb.
    + destruct (Z.eqb_spec y 0) as [->|_]; [discriminate|].
      pose proof (round64_mono (inject_Z x1 / inject_Z y)
                    (inject_Z x2 / inject_Z y)) as Hm.
      destruct (round64 (inject_Z x1 / inject_Z y)) as [q1| | |];
        try discriminate;
        destruct (round64 (inject_Z x2 / inject_Z y)) as [q2| | |];
        try discriminate.
      intros H1 H2. injection H1 as <-. injection H2 as <-. apply Hm.
      unfold Qdiv. apply Qmult_le_compat_r; [exact H12|].
      apply Qlt_le_weak, Qinv_lt_0_compat, Hb.
    + cbn [to_float]. unfold float_of_int.
      pose proof (round64_mono (inject_Z x1) (inject_Z x2) H12) as Hm.
      destruct (round64 (inject_Z x1)) as [q1| | |]; try discriminate;
        destruct (round64 (inject_Z x2)) as [q2| | |]; try discriminate.
      cbn [fle] in Hm. apply (Hmixed q1 q2 Hm (Fin y) eq_refl).
  - cbn [to_float]. destruct (to_float b) as [fb|e] eqn:Efb; [|discriminate].
    apply (Hmixed x1 x2 H12 fb eq_refl).
Qed.

Lemma momentum_score_mono (x1 x2 : num) (k : Z) (w w' cap : Q)
    (a1 a2 : float) :
  (0 < k < 2 ^ 53)%Z ->
  float_lit w = Fin w' -> 0 < w' -> round64 (10 * w') = Fin cap ->
  x1 <= x2 ->
  momentum_score x1 k w = Ok a1 -> momentum_score x2 k w = Ok a2 ->
  fle a1 a2.
Proof.
  intros Hk Hw Hw' Hcap H12 E1 E2.
  assert (Hpos : (0 < k)%Z) by lia.
  assert (Hw0 : 0 <= w') by lra.
  pose proof (momentum_score_between x2 k w w' cap a2 Hpos Hw Hw0 Hcap E2)
    as H2.
  apply float_between_fle in H2.
  unfold momentum_score, mbind, result_bind in E1, E2.
  destruct (Qlt_bool 0 x1) eqn:P1.
  - apply Qlt_bool_iff in P1.
    assert (P2 : Qlt_bool 0 x2 = true) by (apply Qlt_bool_iff; lra).
    rewrite P2 in E2.
    destruct (truediv x1 (Int k)) as [r1|] eqn:R1; [|discriminate].
    destruct (truediv x2 (Int k)) as [r2|] eqn:R2; [|discriminate].
    injection E1 as <-. injection E2 as <-.
    apply truediv_scale in R1, R2; try exact Hk. subst r1 r2.
    assert (Hinv : 0 < / inject_Z k).
    { apply Qinv_lt_0_compat. change 0 with (inject_Z 0).
      rewrite <- Zlt_Qlt. lia. }
    apply (capped_score_mono _ _ w w' Hw Hw').
    + apply round64_nonneg. unfold Qdiv. apply Qmult_le_0_compat; lra.
    + apply round64_mono. unfold Qdiv. apply Qmult_le_compat_r; lra.
  - injection E1 as <-. tauto.
Qed.

Lemma rank_score_mono (c1 c2 : coin) (d1 d2 : float) :
  (get_or_Z (market_cap_rank c2) 999 <= get_or_Z (market_cap_rank c1) 999)%Z ->
  rank_score c1 = Ok d1 -> rank_score c2 = Ok d2 -> fle d1 d2.
Proof.
  intros Hr E1 E2. pose proof (rank_score_nonneg c2 d2 E2) as H2.
  unfold rank_score, mbind, result_bind in E1, E2.
  destruct (Z.leb_spec (get_or_Z (market_cap_rank c1) 999) 100) as [L1|L1].
  - destruct (Z.leb_spec (get_or_Z (market_cap_rank c2) 999) 100) as [L2|L2];
      [|lia].
    destruct (truediv (Int (101 - get_or_Z (market_cap_rank c1) 999)) (Int 10))
      as [r1|] eqn:R1; [|discriminate].
    destruct (truediv (Int (101 - get_or_Z (market_cap_rank c2) 999)) (Int 10))
      as [r2|] eqn:R2; [|discriminate].
    injection E1 as <-. injection E2 as <-.
    destruct weight_facts as (_ & _ & _ & (w & Hw & Hw0 & _)). rewrite Hw.
    apply fmul_mono; [| |exact Hw0].
    + apply (truediv_nonneg _ _ r1) in R1; [exact R1| |reflexivity].
      cbn. change 0 with (inject_Z 0). rewrite <- Zle_Qle. lia.
    + apply (truediv_mono
               (Int (101 - get_or_Z (market_cap_rank c1) 999))
               (Int (101 - get_or_Z (market_cap_rank c2) 999))
               (Int 10) r1 r2 I); [|reflexivity|exact R1|exact R2].
      cbn. rewrite <- Zle_Qle. lia.
  - injection E1 as <-. exact H2.
Qed.

Lemma liquidity_score_mono (c1 c2 : coin) (l1 l2 : float) :
  market_cap c1 = market_cap c2 ->
  same_kind (get_num (total_volume c1) 0) (get_num (total_volume c2) 0) ->
  0 <= get_or (total_volume c1) 0 ->
  get_or (total_volume c1) 0 <= get_or (total_volume c2) 0 ->
  liquidity_score c1 = Ok l1 -> liquidity_score c2 = Ok l2 -> fle l1 l2.
Proof.
  intros Hcap Hkind Hv1 Hv12 E1 E2.
  unfold liquidity_score, mbind, result_bind in E1, E2. rewrite Hcap in E1.
  rewrite <- !get_num_value in *.
  destruct (Qlt_bool 0 (get_num (market_cap c2) 0)) eqn:Ecap.
  2:{ injection E1 as <-. injection E2 as <-. apply fle_refl_Fin. }
  apply Qlt_bool_iff in Ecap.
  destruct (truediv (get_num (total_volume c1) 0) _) as [r1|] eqn:R1;
    [|discriminate].
  destruct (truediv (get_num (total_volume c2) 0) _) as [r2|] eqn:R2;
    [|discriminate].
  pose proof (truediv_nonneg _ _ r1 Hv1 Ecap R1) as Hr1.
  pose proof (truediv_mono _ _ _ r1 r2 Hkind Hv12 Ecap R1 R2) as Hr12.
  destruct (fdiv (fmul r1 (Fin 100)) (Fin 5)) as [p1|] eqn:P1; [|discriminate].
  destruct (fdiv (fmul r2 (Fin 100)) (Fin 5)) as [p2|] eqn:P2; [|discriminate].
  injection E1 as <-. injection E2 as <-.
  assert (H100 : fle (Fin 0) (fmul r1 (Fin 100)))
    by (apply fmul_nonneg; [exact Hr1|reflexivity]).
  destruct weight_facts as ((w & Hw & Hw0 & _) & _).
  assert (Hwpos : 0 < w) by (apply weight_positive; auto).
  apply (capped_score_mono _ _ 0.4 w Hw Hwpos).
  - destruct (fdiv_nonneg (fmul r1 (Fin 100)) 5 H100 eq_refl)
      as (p & Hp & Hp0).
    rewrite P1 in Hp. injection Hp as <-. exact Hp0.
  - apply (fdiv_mono (fmul r1 (Fin 100)) (fmul r2 (Fin 100)) 5 p1 p2 H100);
      [|reflexivity|exact P1|exact P2].
    apply fmul_mono; [exact Hr1|exact Hr12|reflexivity].
Qed.

End Monotone.

(** X18.  [calculate_score] is monotone on the records it scores: of two
    records with the same market cap, whose volumes are both [int]s or both
    floats, the one with at least the volume of the other, which is not
    negative, at least its 24h change and its 7d change, and a rank number
    that is not larger, scores at least as high.  The scores are the floats
    the code computes; rounding does not disturb the order. *)
Theorem calculate_score_monotone (c1 c2 : coin) (s1 s2 : float) :
  market_cap c1 = market_cap c2 ->
  same_kind (get_num (total_volume c1) 0) (get_num (total_volume c2) 0) ->
  (0 <= get_or (total_volume c1) 0)%Q ->
  (get_or (total_volume c1) 0 <= get_or (total_volume c2) 0)%Q ->
  (get_or (price_change_percentage_24h c1) 0
   <= get_or (price_change_percentage_24h c2) 0)%Q ->
  (get_or (price_change_percentage_7d c1) 0
   <= get_or (price_change_percentage_7d c2) 0)%Q ->
  get_or_Z (market_cap_rank c2) 999 <= get_or_Z (market_cap_rank c1) 999 ->
  calculate_score c1 = Ok s1 -> calculate_score c2 = Ok s2 ->
  fle s1 s2.
Proof.
  intros Hcap Hkind Hv1 Hv12 H24 H7 Hrank.
  rewrite !calculate_score_sum. unfold mbind, result_bind.
  destruct (liquidity_score c1) as [l1|] eqn:L1; [|discriminate].
  destruct (momentum_24h_score c1) as [a1|] eqn:A1; [|discriminate].
  destruct (momentum_7d_score c1) as [b1|] eqn:B1; [|discriminate].
  destruct (rank_score c1) as [d1|] eqn:D1; [|discriminate].
  destruct (liquidity_score c2) as [l2|] eqn:L2; [|discriminate].
  destruct (momentum_24h_score c2) as [a2|] eqn:A2; [|discriminate].
  destruct (momentum_7d_score c2) as [b2|] eqn:B2; [|discriminate].
  destruct (rank_score c2) as [d2|] eqn:D2; [|discriminate].
  intros E1 E2. injection E1 as <-. injection E2 as <-.
  destruct weight_facts as (_ & (w3 & Hw3 & Hw30 & Hc3)
                            & (w2 & Hw2 & Hw20 & Hc2) & _).
  assert (Hw3pos : (0 < w3)%Q) by (apply weight_positive; auto).
  assert (Hw2pos : (0 < w2)%Q) by (apply weight_positive; auto).
  pose proof (liquidity_score_between c1 l1 Hv1 L1) as Hl1.
  pose proof (momentum_score_between _ 10 0.3 w3 3 a1 ltac:(lia) Hw3 Hw30 Hc3 A1)
    as Ha1.
  pose proof (momentum_score_between _ 20 0.2 w2 2 b1 ltac:(lia) Hw2 Hw20 Hc2 B1)
    as Hb1.
  pose proof (rank_score_nonneg c1 d1 D1) as Hd1.
  apply float_between_fle in Hl1, Ha1, Hb1.
  pose proof (liquidity_score_mono c1 c2 l1 l2 Hcap Hkind Hv1 Hv12 L1 L2)
    as Hl.
  assert (Ha : fle a1 a2).
  { refine (momentum_score_mono _ _ 10 0.3 w3 3 a1 a2 ltac:(lia) Hw3 Hw3pos Hc3
              _ A1 A2).
    rewrite !get_num_value. exact H24. }
  assert (Hb : fle b1 b2).
  { refine (momentum_score_mono _ _ 20 0.2 w2 2 b1 b2 ltac:(lia) Hw2 Hw2pos Hc2
              _ B1 B2).
    rewrite !get_num_value. exact H7. }
  pose proof (rank_score_mono c1 c2 d1 d2 Hrank D1 D2) as Hd.
  unfold score_sum.
  repeat (apply fadd_mono; [repeat apply fadd_nonneg; try tauto;
                            apply fle_refl_Fin| |tauto|assumption]).
  apply fle_refl_Fin.
Qed.

(** The property on two sample records that differ in volume only. *)
Lemma calculate_score_monotone_witness :
  exists s1 s2 : float,
    calculate_score coin_quiet = Ok s1 /\ calculate_score coin_busy = Ok s2 /\
    fle s1 s2.
Proof.
  destruct (calculate_score coin_quiet) as [s1|e1] eqn:E1;
    [|vm_compute in E1; discriminate E1].
  destruct (calculate_score coin_busy) as [s2|e2] eqn:E2;
    [|vm_compute in E2; discriminate E2].
  exists s1, s2. split; [reflexivity|]. split; [reflexivity|].
  apply (calculate_score_monotone coin_quiet coin_busy s1 s2); try assumption.
  - reflexivity.
  - exact I.
  - vm_compute. discriminate.
  - vm_compute. discriminate.
  - vm_compute. discriminate.
  - vm_compute. discriminate.
  - vm_compute. discriminate.
Defined.

(** ** The selection *)

Section SelectionMore.

Variable upper : string -> string.
Variable fromisoformat : string -> option datetime.
Variable blacklist_keywords : list string.

Lemma accepted_rejected_length (all_coins : list coin) :
  first_raise upper fromisoformat blacklist_keywords all_coins = None ->
  (length (accepted_in_order upper fromisoformat blacklist_keywords all_coins)
   + length (rejected_in_order upper fromisoformat blacklist_keywords all_coins)
   = length all_coins)%nat.
Proof.
  unfold first_raise, accepted_in_order, rejected_in_order.
  induction all_coins as [|c rest IH]; [reflexivity|].
  cbn [List.filter omap list_omap length].
  unfold raises at 1, accepts at 1, rejection at 1.
  destruct (is_excellent_coin upper fromisoformat blacklist_keywords c)
    as [[[|] r]|e]; [| |discriminate].
  - cbn [omap list_omap]. unfold scored at 1.
    destruct (calculate_score c) as [s|e]; [|discriminate].
    intros H. specialize (IH H). cbn [length]. lia.
  - intros H. specialize (IH H). cbn [length]. lia.
Qed.

(** X19.  When the selection returns, every record read is in exactly one of
    the two lists: the lengths add up; an accepted entry is a record read
    that the filter accepts, unchanged but for its score, which is the one
    [calculate_score] gives it; a rejected entry carries six fields of a
    record read and the reason the filter gave.  No record is in neither: a
    record is accepted or rejected according to the filter alone. *)
Theorem selection_partitions (all_coins accepted : list coin)
    (filtered_out : list rejected) :
  select_from upper fromisoformat blacklist_keywords all_coins
  = Ok (accepted, filtered_out) ->
  (length accepted + length filtered_out = length all_coins)%nat /\
  (forall a, In a accepted <->
     exists c, In c all_coins /\
       is_excellent_coin upper fromisoformat blacklist_keywords c
       = Ok (true, None) /\
       exists score, calculate_score c = Ok score /\
                     a = set_excellent_score c score) /\
  (forall r, In r filtered_out <->
     exists c reason, In c all_coins /\
       is_excellent_coin upper fromisoformat blacklist_keywords c
       = Ok (false, Some reason) /\
       r = reject c (Some reason)).
Proof.
  rewrite select_from_spec.
  destruct (first_raise upper fromisoformat blacklist_keywords all_coins)
    eqn:Eraise; [discriminate|].
  intros [= <- <-].
  assert (Hverdict : forall c b r,
             is_excellent_coin upper fromisoformat blacklist_keywords c
             = Ok (b, r) ->
             (b = true /\ r = None) \/ (b = false /\ exists reason, r = Some reason)).
  { intros c b r H. rewrite is_excellent_coin_first_failing in H.
    destruct (first_failing _ _ _ rules_before_ath c).
    - injection H as <- <-. right. eauto.
    - destruct (date_comparison_raises fromisoformat c); [discriminate|].
      unfold verdict in H.
      destruct (first_failing _ _ _ rule_order c); injection H as <- <-;
        [right|left]; eauto. }
  split; [|split].
  - rewrite (Permutation_length
               (stable_sort_perm score_before
                  (accepted_in_order upper fromisoformat blacklist_keywords
                     all_coins))).
    apply accepted_rejected_length, Eraise.
  - intros a.
    assert (Hperm := stable_sort_perm score_before
                       (accepted_in_order upper fromisoformat
                          blacklist_keywords all_coins)).
    assert (Hin : In a (stable_sort score_before
                          (accepted_in_order upper fromisoformat
                             blacklist_keywords all_coins)) <->
                  In a (accepted_in_order upper fromisoformat
                          blacklist_keywords all_coins)).
    { split; apply Permutation_in; [exact Hperm|symmetry; exact Hperm]. }
    rewrite Hin. clear Hin Hperm.
    unfold accepted_in_order. rewrite <- list_elem_of_In, list_elem_of_omap.
    split.
    + intros (c & Hin & Hsc). apply list_elem_of_In, filter_In in Hin.
      destruct Hin as (Hin & Hacc).
      exists c. split; [exact Hin|]. split.
      * unfold accepts in Hacc.
        destruct (is_excellent_coin upper fromisoformat blacklist_keywords c)
          as [[b r]|] eqn:E; [|discriminate].
        destruct (Hverdict c b r E) as [(-> & ->)|(-> & _)];
          [reflexivity|discriminate].
      * unfold scored in Hsc. destruct (calculate_score c) as [s|e];
          [|discriminate].
        injection Hsc as <-. exists s. split; reflexivity.
    + intros (c & Hin & E & s & Es & ->). exists c. split.
      * apply list_elem_of_In, filter_In. split; [exact Hin|].
        unfold accepts. rewrite E. reflexivity.
      * unfold scored. rewrite Es. reflexivity.
  - intros r. unfold rejected_in_order. rewrite <- list_elem_of_In.
    rewrite list_elem_of_omap. split.
    + intros (c & Hin & Hrej). apply list_elem_of_In in Hin.
      unfold rejection in Hrej.
      destruct (is_excellent_coin upper fromisoformat blacklist_keywords c)
        as [[b reason]|] eqn:E; [|discriminate].
      destruct (Hverdict c b reason E) as [(-> & ->)|(-> & why & ->)];
        [discriminate|].
      injection Hrej as <-. exists c, why. auto.
    + intros (c & reason & Hin & E & ->). exists c.
      split; [apply list_elem_of_In; exact Hin|].
      unfold rejection. rewrite E. reflexivity.
Qed.

End SelectionMore.

Lemma selection_partitions_witness :
  exists (accepted : list coin) (filtered_out : list rejected),
    select_from ascii_upper fromisoformat_basic [] [sample_coin; coin_usd]
    = Ok (accepted, filtered_out) /\
    List.map name accepted = [Some "Sample Coin"%string] /\
    filtered_out = [reject coin_usd (Some ReasonStablecoin)] /\
    (length accepted + length filtered_out = length [sample_coin; coin_usd])%nat.
Proof.
  destruct (select_from ascii_upper fromisoformat_basic []
              [sample_coin; coin_usd]) as [[accepted filtered_out]|e] eqn:E.
  - exists accepted, filtered_out. split; [reflexivity|].
    pose proof (selection_partitions ascii_upper fromisoformat_basic []
                  [sample_coin; coin_usd] accepted filtered_out E) as (Hlen & _).
    vm_compute in E. injection E as <- <-.
    split; [reflexivity|]. split; [reflexivity|exact Hlen].
  - vm_compute in E. discriminate E.
Defined.
